(** * mcp-web: the search-session core of the DuckDuckGo MCP server

  A shallow embedding of [index.ts] (the version with CAPTCHA support):
  the response parser [parseSearchResults], the result renderer and puzzle
  compositor [dataToResult], and the three stateful tools [search],
  [search_next] and [solve_captcha], followed by the properties the
  specification states about them.

  Conventions of the embedding.
  - A JavaScript string is a [string]: the sequence of its UTF-16 code
    units, each a [unit16]; a byte sequence is a string of units below
    256.
  - An HTML text is represented by the tree [cheerio.load] builds from it.
  - The process-wide variables [searchState], [captchaState] and
    [captchaImages] form an explicit [state] threaded through a small
    state/exception/log monad; every [fetch] is logged together with the
    state at the moment the request is issued.
  - What the program obtains from its platform (the HTTP transport, the
    URL constructor, the image codec, the random source) is a [world]. *)

From Stdlib Require Import ZArith NArith QArith Qround Ascii String List Lia Bool.
From stdpp Require Import base option list strings gmap pretty.

Set Warnings "-register-all".

(* ===================================================================== *)
(** * JavaScript strings                                                  *)
(* ===================================================================== *)

(** A UTF-16 code unit, by its high and low byte. *)
Record unit16 := U16 { high : ascii; low : ascii }.

Declare Scope unit_scope.
Delimit Scope unit_scope with unit.
Bind Scope unit_scope with unit16.

Module Unit.

(** The number of a code unit, below 65536, and the unit of a number. *)
Definition code (u : unit16) : N := 256 * N_of_ascii (high u) + N_of_ascii (low u).

Definition of_N (n : N) : unit16 := U16 (ascii_of_N (n / 256)) (ascii_of_N (n mod 256)).

Definition eqb (u v : unit16) : bool :=
  Ascii.eqb (high u) (high v) && Ascii.eqb (low u) (low v).

(** Reading and printing a unit below 256 as a one-character literal. *)
Definition of_bytes (l : list Byte.byte) : option unit16 :=
  match l with
  | [b] => Some (U16 zero (ascii_of_byte b))
  | _ => None
  end.

Definition to_bytes (u : unit16) : option (list Byte.byte) :=
  if Ascii.eqb (high u) zero then Some [byte_of_ascii (low u)] else None.

End Unit.

String Notation unit16 Unit.of_bytes Unit.to_bytes : unit_scope.

#[global] Instance unit16_eq_dec : EqDecision unit16.
Proof. solve_decision. Defined.

Module JsString.

Inductive string : Set :=
| EmptyString
| String (c : unit16) (s : string).

Fixpoint append (a b : string) : string :=
  match a with
  | EmptyString => b
  | String c a' => String c (append a' b)
  end.

(** [a === b] on strings. *)
Fixpoint eqb (a b : string) : bool :=
  match a, b with
  | EmptyString, EmptyString => true
  | String c a', String d b' => Unit.eqb c d && eqb a' b'
  | _, _ => false
  end.

Fixpoint units (s : string) : list unit16 :=
  match s with
  | EmptyString => []
  | String c s' => c :: units s'
  end.

Fixpoint of_units (l : list unit16) : string :=
  match l with
  | [] => EmptyString
  | c :: l' => String c (of_units l')
  end.

(** A string of ASCII characters, from the library's strings. *)
Fixpoint of_ascii (s : Strings.String.string) : string :=
  match s with
  | Strings.String.EmptyString => EmptyString
  | Strings.String.String a s' => String (U16 zero a) (of_ascii s')
  end.

(** Reading and printing a string of units below 256 as a literal. *)
Fixpoint of_bytes (l : list Byte.byte) : string :=
  match l with
  | [] => EmptyString
  | b :: l' => String (U16 zero (ascii_of_byte b)) (of_bytes l')
  end.

Fixpoint to_bytes (s : string) : option (list Byte.byte) :=
  match s with
  | EmptyString => Some []
  | String c s' =>
      match Unit.to_bytes c, to_bytes s' with
      | Some [b], Some l => Some (b :: l)
      | _, _ => None
      end
  end.

End JsString.

Export JsString.

Declare Scope js_scope.
Delimit Scope js_scope with js.
Bind Scope js_scope with string.
String Notation string JsString.of_bytes JsString.to_bytes : js_scope.
Infix "+:+" := JsString.append (at level 60, right associativity) : js_scope.

#[global] Instance string_eq_dec : EqDecision string.
Proof. solve_decision. Defined.

#[global] Instance unit16_countable : Countable unit16.
Proof.
  refine (inj_countable' (fun u => (high u, low u)) (fun p => U16 (fst p) (snd p)) _).
  intros [h l]. reflexivity.
Defined.

#[global] Instance string_countable : Countable string.
Proof.
  refine (inj_countable' JsString.units JsString.of_units _).
  intros s. induction s as [|c s IH]; [reflexivity|]. cbn. rewrite IH. reflexivity.
Defined.

Local Open Scope js_scope.
Local Open Scope list_scope.

(* ===================================================================== *)
(** * UTF-8                                                               *)
(* ===================================================================== *)

Module Utf8.

(** A byte, as a code unit below 256. *)
Definition byte (n : N) : unit16 := U16 zero (ascii_of_N n).

(** U+FFFD REPLACEMENT CHARACTER *)
Definition replacement : unit16 := Unit.of_N 0xFFFD.

(** The two halves of the surrogate range. *)
Definition is_high (n : N) : bool := ((0xD800 <=? n) && (n <=? 0xDBFF))%N.
Definition is_low (n : N) : bool := ((0xDC00 <=? n) && (n <=? 0xDFFF))%N.

(** The code point of a surrogate pair. *)
Definition pair (hi lo : N) : N := (0x10000 + (hi - 0xD800) * 0x400 + (lo - 0xDC00))%N.

(** The UTF-8 bytes of a scalar value. *)
Definition bytes_of (cp : N) : string :=
  (if cp <? 0x80 then String (byte cp) EmptyString
   else if cp <? 0x800 then
     String (byte (0xC0 + cp / 0x40)) (String (byte (0x80 + cp mod 0x40)) EmptyString)
   else if cp <? 0x10000 then
     String (byte (0xE0 + cp / 0x1000))
       (String (byte (0x80 + (cp / 0x40) mod 0x40))
          (String (byte (0x80 + cp mod 0x40)) EmptyString))
   else
     String (byte (0xF0 + cp / 0x40000))
       (String (byte (0x80 + (cp / 0x1000) mod 0x40))
          (String (byte (0x80 + (cp / 0x40) mod 0x40))
             (String (byte (0x80 + cp mod 0x40)) EmptyString))))%N.

(** The code units of a code point. *)
Definition units_of (cp : N) : string :=
  (if cp <? 0x10000 then String (Unit.of_N cp) EmptyString
   else String (Unit.of_N (0xD800 + (cp - 0x10000) / 0x400))
          (String (Unit.of_N (0xDC00 + (cp - 0x10000) mod 0x400)) EmptyString))%N.

(** UTF-8 encode: a surrogate pair gives the four bytes of its code
    point, a surrogate that is not part of a pair the bytes of U+FFFD. *)
Fixpoint encode (s : string) : string :=
  match s with
  | EmptyString => EmptyString
  | String c s' =>
      let n := Unit.code c in
      if is_high n then
        match s' with
        | String d s'' =>
            if is_low (Unit.code d)
            then bytes_of (pair n (Unit.code d)) +:+ encode s''
            else bytes_of 0xFFFD +:+ encode s'
        | EmptyString => bytes_of 0xFFFD
        end
      else if is_low n then bytes_of 0xFFFD +:+ encode s'
      else bytes_of n +:+ encode s'
  end.

(** What a lead byte announces: the number of continuation bytes. *)
Inductive needed : Set := One | Two | Three.

(** A lead byte: the continuation bytes needed, the bounds of the first
    of them, and the bits the lead byte contributes. *)
Definition lead (n : N) : option (needed * N * N * N) :=
  (if (0xC2 <=? n) && (n <=? 0xDF) then Some (One, 0x80, 0xBF, n - 0xC0)
   else if n =? 0xE0 then Some (Two, 0xA0, 0xBF, 0)
   else if n =? 0xED then Some (Two, 0x80, 0x9F, 0xD)
   else if (0xE1 <=? n) && (n <=? 0xEF) then Some (Two, 0x80, 0xBF, n - 0xE0)
   else if n =? 0xF0 then Some (Three, 0x90, 0xBF, 0)
   else if n =? 0xF4 then Some (Three, 0x80, 0x8F, 4)
   else if (0xF1 <=? n) && (n <=? 0xF3) then Some (Three, 0x80, 0xBF, n - 0xF0)
   else None)%N.

(** A continuation byte within bounds: its six bits. *)
Definition continuation (lower upper : N) (b : unit16) : option N :=
  let n := Unit.code b in
  (if (lower <=? n) && (n <=? upper) then Some (n - 0x80) else None)%N.

(** UTF-8 decode without BOM, as the Encoding standard defines it: a
    byte that cannot start or continue a sequence ends the sequence with
    U+FFFD and is read again as the start of the next one. *)
Fixpoint decode (bs : string) : string :=
  match bs with
  | EmptyString => EmptyString
  | String b rest =>
      let n := Unit.code b in
      if (n <? 0x80)%N then String b (decode rest)
      else
        match lead n with
        | None => String replacement (decode rest)
        | Some (count, lower, upper, bits) =>
            match rest with
            | EmptyString => String replacement EmptyString
            | String b1 r1 =>
                match continuation lower upper b1 with
                | None => String replacement (decode rest)
                | Some x1 =>
                    match count with
                    | One => units_of (bits * 0x40 + x1) +:+ decode r1
                    | _ =>
                        match r1 with
                        | EmptyString => String replacement EmptyString
                        | String b2 r2 =>
                            match continuation 0x80 0xBF b2 with
                            | None => String replacement (decode r1)
                            | Some x2 =>
                                match count with
                                | Three =>
                                    match r2 with
                                    | EmptyString => String replacement EmptyString
                                    | String b3 r3 =>
                                        match continuation 0x80 0xBF b3 with
                                        | None => String replacement (decode r2)
                                        | Some x3 =>
                                            units_of (((bits * 0x40 + x1) * 0x40 + x2) * 0x40
                                                      + x3)
                                            +:+ decode r3
                                        end
                                    end
                                | _ => units_of ((bits * 0x40 + x1) * 0x40 + x2) +:+ decode r2
                                end
                            end
                        end
                    end
                end
            end
        end
  end.

(** Every unit of the string is below the bound. *)
Fixpoint all_below (bound : N) (s : string) : bool :=
  match s with
  | EmptyString => true
  | String c s' => (Unit.code c <? bound)%N && all_below bound s'
  end.

End Utf8.

(* ===================================================================== *)
(** * JavaScript string methods                                           *)
(* ===================================================================== *)

Module Js.

(** White space as [String.prototype.trim] and the regular expression
    class [\s] see it: TAB, LF, VT, FF, CR, SPACE, NO-BREAK SPACE, the
    space separators U+1680, U+2000 to U+200A, U+202F, U+205F and U+3000,
    the line and paragraph separators U+2028 and U+2029, and U+FEFF. *)
Definition is_space (c : unit16) : bool :=
  let n := Unit.code c in
  ((9 <=? n) && (n <=? 13) || (n =? 32) || (n =? 160) || (n =? 0x1680)
   || (0x2000 <=? n) && (n <=? 0x200A) || (n =? 0x2028) || (n =? 0x2029)
   || (n =? 0x202F) || (n =? 0x205F) || (n =? 0x3000) || (n =? 0xFEFF))%N.

Definition is_empty (s : string) : bool :=
  match s with EmptyString => true | String _ _ => false end.

(** Truthiness of a string: every string but the empty one. *)
Definition truthy (s : string) : bool := negb (is_empty s).

(** Truthiness of [string | null]. *)
Definition truthy_opt (o : option string) : bool :=
  match o with Some s => truthy s | None => false end.

(** [a || ""] for [a : string | undefined]. *)
Definition or_empty (o : option string) : string :=
  match o with Some s => s | None => "" end.

Fixpoint trimStart (s : string) : string :=
  match s with
  | EmptyString => EmptyString
  | String c s' => if is_space c then trimStart s' else s
  end.

Fixpoint trimEnd (s : string) : string :=
  match s with
  | EmptyString => EmptyString
  | String c s' =>
      let t := trimEnd s' in
      if is_space c && is_empty t then EmptyString else String c t
  end.

Definition trim (s : string) : string := trimEnd (trimStart s).

(** [s.split(sep)] for a one-character separator: never empty. *)
Fixpoint split (sep : unit16) (s : string) : list string :=
  match s with
  | EmptyString => [EmptyString]
  | String c s' =>
      let r := split sep s' in
      if Unit.eqb c sep then EmptyString :: r
      else match r with
           | h :: t => String c h :: t
           | [] => [String c EmptyString]
           end
  end.

(** [arr.pop()] read as a value: the last element. *)
Definition pop (l : list string) : option string := last l.

(** [strip_prefix p s] is [Some r] when [s = p ++ r]. *)
Fixpoint strip_prefix (p s : string) : option string :=
  match p, s with
  | EmptyString, _ => Some s
  | String a p', String b s' =>
      if Unit.eqb a b then strip_prefix p' s' else None
  | String _ _, EmptyString => None
  end.

(** [s.replace(pat, rep)] with a string pattern: the first occurrence
    only. *)
Fixpoint replace (pat rep s : string) : string :=
  match strip_prefix pat s with
  | Some r => rep +:+ r
  | None =>
      match s with
      | EmptyString => EmptyString
      | String c s' => String c (replace pat rep s')
      end
  end.

(** The words of a white-space separated attribute value. *)
Fixpoint words_aux (cur : string) (s : string) : list string :=
  match s with
  | EmptyString => if is_empty cur then [] else [cur]
  | String c s' =>
      if is_space c
      then (if is_empty cur then words_aux EmptyString s'
            else cur :: words_aux EmptyString s')
      else words_aux (cur +:+ String c EmptyString) s'
  end.

Definition words (s : string) : list string := words_aux EmptyString s.

(** [arr.join(sep)]. *)
Fixpoint join (sep : string) (l : list string) : string :=
  match l with
  | [] => EmptyString
  | [x] => x
  | x :: l' => x +:+ sep +:+ join sep l'
  end.

(** [obj[key]] for an object given by its own properties in order: the
    first of that name. *)
Fixpoint property (key : string) (obj : list (string * string)) : option string :=
  match obj with
  | [] => None
  | (k, v) :: obj' => if JsString.eqb k key then Some v else property key obj'
  end.

(** [n.toString()] for an integer. *)
Definition toString (n : Z) : string := JsString.of_ascii (pretty n).

(** [s.isWellFormed()]: no surrogate outside a pair. *)
Fixpoint isWellFormed (s : string) : bool :=
  match s with
  | EmptyString => true
  | String c s' =>
      if Utf8.is_high (Unit.code c) then
        match s' with
        | String d s'' => Utf8.is_low (Unit.code d) && isWellFormed s''
        | EmptyString => false
        end
      else negb (Utf8.is_low (Unit.code c)) && isWellFormed s'
  end.

(** [s.toWellFormed()]: every surrogate outside a pair replaced by
    U+FFFD. *)
Fixpoint toWellFormed (s : string) : string :=
  match s with
  | EmptyString => EmptyString
  | String c s' =>
      if Utf8.is_high (Unit.code c) then
        match s' with
        | String d s'' =>
            if Utf8.is_low (Unit.code d)
            then String c (String d (toWellFormed s''))
            else String Utf8.replacement (toWellFormed s')
        | EmptyString => String Utf8.replacement EmptyString
        end
      else if Utf8.is_low (Unit.code c) then String Utf8.replacement (toWellFormed s')
      else String c (toWellFormed s')
  end.

End Js.

(* ===================================================================== *)
(** * URLSearchParams                                                     *)
(* ===================================================================== *)

Module URLSearchParams.

(** The list of name/value pairs, in insertion order. The pairs are kept
    as the program gave them; the conversion of a name or value to scalar
    values, which the object makes when a pair enters, is made by
    [toString], the only way the program reads the object. *)
Definition t := list (string * string).

Definition new : t := [].

Definition append (name value : string) (p : t) : t := p ++ [(name, value)].

(** Two names are the same entry when they agree as scalar values. *)
Definition same_name (a b : string) : bool :=
  JsString.eqb (Js.toWellFormed a) (Js.toWellFormed b).

(** [set]: overwrite the first pair of that name and drop the others, or
    append when there is none. *)
Fixpoint set_first (name value : string) (p : t) : t :=
  match p with
  | [] => []
  | (k, v) :: p' =>
      if same_name k name
      then (name, value) :: List.filter (fun kv => negb (same_name (fst kv) name)) p'
      else (k, v) :: set_first name value p'
  end.

Definition set (name value : string) (p : t) : t :=
  if existsb (fun kv => same_name (fst kv) name) p
  then set_first name value p
  else append name value p.

Definition hex_digit (n : N) : unit16 :=
  (if n <? 10 then Utf8.byte (48 + n) else Utf8.byte (55 + n))%N.

Definition percent (byte : N) : string :=
  String "%" (String (hex_digit (byte / 16)) (String (hex_digit (byte mod 16)) EmptyString)).

(** Bytes left as they are by the application/x-www-form-urlencoded
    serializer: ASCII letters and digits, and [* - . _]. *)
Definition unreserved (n : N) : bool :=
  ((48 <=? n) && (n <=? 57) || (65 <=? n) && (n <=? 90)
   || (97 <=? n) && (n <=? 122)
   || (n =? 42) || (n =? 45) || (n =? 46) || (n =? 95))%N.

(** One byte: kept, turned into [+], or percent-encoded. *)
Definition encode_byte (b : unit16) : string :=
  let n := Unit.code b in
  if unreserved n then String b EmptyString
  else if (n =? 32)%N then "+"
  else percent n.

Fixpoint encode_bytes (bs : string) : string :=
  match bs with
  | EmptyString => EmptyString
  | String b bs' => encode_byte b +:+ encode_bytes bs'
  end.

(** A name or a value, serialized: its UTF-8 bytes, byte by byte. *)
Definition encode (s : string) : string := encode_bytes (Utf8.encode s).

(** One serialized pair. *)
Definition piece_of (kv : string * string) : string :=
  encode (fst kv) +:+ "=" +:+ encode (snd kv).

(** [params.toString()]. *)
Definition toString (p : t) : string := Js.join "&" (map piece_of p).

(** The pairs as the object holds them: scalar values throughout. *)
Definition entries (p : t) : list (string * string) :=
  map (fun kv => (Js.toWellFormed (fst kv), Js.toWellFormed (snd kv))) p.

(** ** Reading a serialized form back

    The application/x-www-form-urlencoded parser of the URL standard, by
    which the receiver of a body recovers the pairs: the UTF-8 bytes of
    the body are cut at [&], empty pieces dropped, each piece cut at its
    first [=], [+] turned into a space, the bytes percent-decoded and
    then read as UTF-8. *)

Definition hex_value (c : unit16) : option N :=
  let n := Unit.code c in
  (if (48 <=? n) && (n <=? 57) then Some (n - 48)
   else if (65 <=? n) && (n <=? 70) then Some (n - 55)
   else if (97 <=? n) && (n <=? 102) then Some (n - 87)
   else None)%N.

Fixpoint unescape (s : string) : string :=
  match s with
  | EmptyString => EmptyString
  | String c s' =>
      if Unit.eqb c "+" then String " " (unescape s')
      else if Unit.eqb c "%" then
        match s' with
        | String h (String l s'') =>
            match hex_value h, hex_value l with
            | Some a, Some b => String (Utf8.byte (16 * a + b)) (unescape s'')
            | _, _ => String c (unescape s')
            end
        | _ => String c (unescape s')
        end
      else String c (unescape s')
  end.

Definition decode (s : string) : string := Utf8.decode (unescape s).

(** The parts before and after the first separator. *)
Fixpoint cut (sep : unit16) (s : string) : string * string :=
  match s with
  | EmptyString => (EmptyString, EmptyString)
  | String c s' =>
      if Unit.eqb c sep then (EmptyString, s')
      else (String c (fst (cut sep s')), snd (cut sep s'))
  end.

Definition parse (s : string) : t :=
  map (fun piece => (decode (fst (cut "=" piece)), decode (snd (cut "=" piece))))
      (List.filter Js.truthy (Js.split "&" (Utf8.encode s))).

(** The separator does not occur in the string. *)
Fixpoint free_of (sep : unit16) (s : string) : bool :=
  match s with
  | EmptyString => true
  | String c s' => negb (Unit.eqb c sep) && free_of sep s'
  end.

End URLSearchParams.

(* ===================================================================== *)
(** * Documents and the cheerio selection API                             *)
(* ===================================================================== *)

Module Cheerio.

(** The tree built by [cheerio.load]. *)
Inductive node : Type :=
| Text (data : string)
| Comment (data : string)
| Element (name : string) (attribs : list (string * string)) (children : list node).

(** The children of the document root. *)
Definition document := list node.

(** A node is identified by its position: the child indices leading to
    it from the root. *)
Definition path := list nat.

Record elem := Elem { pos : path; self : node }.

(** [elem.attribs[name]]. *)
Definition attribs_get (name : string) (n : node) : option string :=
  match n with
  | Element _ a _ => Js.property name a
  | _ => None
  end.

(** [textContent]: the text nodes below, in order; comments give
    nothing. *)
Fixpoint textContent (n : node) : string :=
  match n with
  | Text s => s
  | Comment _ => EmptyString
  | Element _ _ ch =>
      (fix go (l : list node) : string :=
         match l with
         | [] => EmptyString
         | c :: l' => textContent c +:+ go l'
         end) ch
  end.

(** The elements of a subtree in document order, each with its
    position. *)
Fixpoint walk (p : path) (n : node) {struct n} : list elem :=
  match n with
  | Element _ _ ch =>
      Elem p n ::
      (fix go (i : nat) (l : list node) {struct l} : list elem :=
         match l with
         | [] => []
         | c :: l' => walk (p ++ [i]) c ++ go (S i) l'
         end) 0 ch
  | _ => []
  end.

Fixpoint walk_from (i : nat) (d : list node) : list elem :=
  match d with
  | [] => []
  | c :: d' => walk [i] c ++ walk_from (S i) d'
  end.

Definition all (d : document) : list elem := walk_from 0 d.

(** [below p q] is [Some r] when [q = p ++ r]. *)
Fixpoint below (p q : path) : option path :=
  match p, q with
  | [], _ => Some q
  | i :: p', j :: q' => if Nat.eqb i j then below p' q' else None
  | _ :: _, [] => None
  end.

Definition is_descendant (a e : elem) : bool :=
  match below (pos a) (pos e) with
  | Some (_ :: _) => true
  | _ => false
  end.

Definition is_child (a e : elem) : bool :=
  match below (pos a) (pos e) with
  | Some [_] => true
  | _ => false
  end.

(** ** Simple selectors *)

Definition selector := node -> bool.

(** [#id] *)
Definition by_id (id : string) : selector :=
  fun n => match attribs_get "id" n with
           | Some v => JsString.eqb v id
           | None => false
           end.

(** [.class]: one of the white-space separated words of the class
    attribute. *)
Definition by_class (c : string) : selector :=
  fun n => match attribs_get "class" n with
           | Some v => existsb (JsString.eqb c) (Js.words v)
           | None => false
           end.

(** [tag] *)
Definition by_tag (t : string) : selector :=
  fun n => match n with
           | Element name _ _ => JsString.eqb name t
           | _ => false
           end.

(** [[name='value']] *)
Definition by_attr (name value : string) : selector :=
  fun n => match attribs_get name n with
           | Some v => JsString.eqb v value
           | None => false
           end.

Definition both (s1 s2 : selector) : selector := fun n => s1 n && s2 n.

(** ** Selections *)

(** A cheerio object: the matched elements, in document order and
    without repetition, and the document they come from. *)
Record t := Sel { root : document; elems : list elem }.

(** [$(selector)] *)
Definition select (d : document) (s : selector) : t :=
  Sel d (List.filter (fun e => s (self e)) (all d)).

(** [sel.find(selector)]: the matching proper descendants of any
    element of the selection. *)
Definition find (s : selector) (c : t) : t :=
  Sel (root c)
      (List.filter (fun e => s (self e) && existsb (fun a => is_descendant a e) (elems c))
                   (all (root c))).

(** [sel.children(selector)]; [$("a>b")] is [$("a").children("b")]. *)
Definition children (s : selector) (c : t) : t :=
  Sel (root c)
      (List.filter (fun e => s (self e) && existsb (fun a => is_child a e) (elems c))
                   (all (root c))).

(** [sel.parent()]: the element parents, once each. *)
Definition parent (c : t) : t :=
  Sel (root c)
      (List.filter (fun a => existsb (fun e => is_child a e) (elems c))
                   (all (root c))).

(** [$(elem)] *)
Definition wrap (d : document) (e : elem) : t := Sel d [e].

(** [sel.first()] *)
Definition first (c : t) : t := Sel (root c) (take 1 (elems c)).

(** [sel.length] *)
Definition length (c : t) : nat := List.length (elems c).

(** [sel.attr(name)]: the attribute of the first element. *)
Definition attr (name : string) (c : t) : option string :=
  match elems c with
  | e :: _ => attribs_get name (self e)
  | [] => None
  end.

(** [sel.text()]: the text of every element of the selection. *)
Definition text (c : t) : string :=
  fold_right (fun e acc => textContent (self e) +:+ acc) EmptyString (elems c).

End Cheerio.

(* ===================================================================== *)
(** * Platform, state and effects                                         *)
(* ===================================================================== *)

(** A [Buffer]: its bytes. *)
Definition buffer := string.

(** The outcome of an operation that may throw an [Error]. *)
Inductive result (A : Type) : Type :=
| Ok (value : A)
| Throw (message : string).

Arguments Ok {A} value.
Arguments Throw {A} message.

(** The arguments of one [fetch] call. *)
Record request := Request {
  method : string;
  resource : string;
  headers : list (string * string);
  body : option string
}.

(** A [Response]; the body as the program reads it, either as text handed
    to [cheerio.load] or as an array buffer. *)
Record response := Response {
  ok : bool;
  status : Z;
  statusText : string;
  text : result Cheerio.document;
  arrayBuffer : result buffer
}.

(** A pureimage [Bitmap]. *)
Record Bitmap := MkBitmap { width : Z; height : Z; data : buffer }.

(** The calls made on a 2D drawing context. *)
Inductive drawing : Type :=
| FillRect (fillStyle : string) (x y w h : Z)
| DrawImage9 (img : Bitmap) (sx sy sw sh dx dy dw dh : Z)
| DrawImage5 (img : Bitmap) (dx dy dw dh : Z)
| FillText (fillStyle font : string) (label : string) (x y : Z).

(** A canvas made by [pureimage.make] with its 2D context: the size, the
    current style and font, and the drawing calls so far, oldest first. *)
Record canvas := Canvas {
  canvas_width : Z;
  canvas_height : Z;
  fillStyle : string;
  font : string;
  drawn : list drawing
}.

(** What the program gets from outside. *)
Record world := World {
  (** [Intl.DateTimeFormat().resolvedOptions().locale] *)
  locale : string;
  (** the transport: the response to a request, or a network failure *)
  fetch_response : request -> result response;
  (** [new URL(input, base).href]; throws on an invalid URL *)
  URL_href : string -> string -> result string;
  (** [pureimage.decodeJPEGFromStream] on the bytes of a buffer *)
  decodeJPEGFromStream : buffer -> result Bitmap;
  (** reading and decoding [assets/captcha-overlay.png] *)
  overlay_asset : result Bitmap;
  (** [pureimage.encodePNGToStream], collected into one buffer *)
  encodePNGToStream : canvas -> result buffer;
  (** [randomBytes(16).toString("hex")] as drawn by this call *)
  randomBytes_hex : string;
  (** the port the image server listens on *)
  server_port : Z
}.

Record SearchState := MkSearchState {
  currentQuery : option string;
  currentPage : Z;
  nextFormData : option string
}.

Record CaptchaState := MkCaptchaState {
  challenge : option string;
  images : option (list string);
  action : option string;
  submitValue : option string;
  checkboxNames : option (list string)
}.

(** The module-level variables, and the pending [setTimeout] callbacks
    (delay in milliseconds and the image path each one deletes). *)
Record state := State {
  searchState : SearchState;
  captchaState : CaptchaState;
  captchaImages : gmap string buffer;
  timeouts : list (Z * string)
}.

Definition initial_state : state :=
  State (MkSearchState None 1 None)
        (MkCaptchaState None None None None None)
        ∅ [].

(** One issued request, with the state at that moment. *)
Record event := Event { issued : request; during : state }.

(** Computations over the state that may throw and that log their
    requests. A thrown error keeps the state changes made before it. *)
Definition M (A : Type) : Type := state -> result A * state * list event.

Definition ret {A} (a : A) : M A := fun s => (Ok a, s, []).

Definition bind {A B} (m : M A) (k : A -> M B) : M B :=
  fun s =>
    match m s with
    | (Ok a, s1, l1) => let '(r, s2, l2) := k a s1 in (r, s2, l1 ++ l2)
    | (Throw e, s1, l1) => (Throw e, s1, l1)
    end.

Notation "x <- m ;; k" := (bind m (fun x => k))
  (at level 100, m at next level, right associativity).
Notation "m ;; k" := (bind m (fun _ => k))
  (at level 100, right associativity).

(** [await] on a value that may be a rejection. *)
Definition lift {A} (r : result A) : M A := fun s => (r, s, []).

(** [try { m } catch (error) { h(error.message) }] *)
Definition try_catch {A} (m : M A) (h : string -> M A) : M A :=
  fun s =>
    match m s with
    | (Throw e, s1, l1) => let '(r, s2, l2) := h e s1 in (r, s2, l1 ++ l2)
    | done => done
    end.

Definition get : M state := fun s => (Ok s, s, []).

Definition modify (f : state -> state) : M unit := fun s => (Ok tt, f s, []).

Definition set_searchState (x : SearchState) : M unit :=
  modify (fun s => State x (captchaState s) (captchaImages s) (timeouts s)).

Definition set_captchaState (x : CaptchaState) : M unit :=
  modify (fun s => State (searchState s) x (captchaImages s) (timeouts s)).

Definition set_nextFormData (x : option string) : M unit :=
  modify (fun s =>
    State (MkSearchState (currentQuery (searchState s)) (currentPage (searchState s)) x)
          (captchaState s) (captchaImages s) (timeouts s)).

Definition set_currentPage (x : Z) : M unit :=
  modify (fun s =>
    State (MkSearchState (currentQuery (searchState s)) x (nextFormData (searchState s)))
          (captchaState s) (captchaImages s) (timeouts s)).

(** [await fetch(resource, options)] *)
Definition fetch (W : world) (req : request) : M response :=
  fun s => (fetch_response W req, s, [Event req s]).

Fixpoint mapM {A B} (f : A -> M B) (l : list A) : M (list B) :=
  match l with
  | [] => ret []
  | a :: l' => b <- f a ;; bs <- mapM f l' ;; ret (b :: bs)
  end.

(** The result, final state and request log of running a computation. *)
Definition outcome {A} (r : result A * state * list event) : result A := fst (fst r).
Definition final {A} (r : result A * state * list event) : state := snd (fst r).
Definition requests {A} (r : result A * state * list event) : list event := snd r.

(* ===================================================================== *)
(** * The response parser                                                 *)
(* ===================================================================== *)

Record SearchResult := MkSearchResult {
  title : string;
  url : string;
  description : string
}.

(** What [parseSearchResults] returns: one variant per [mode]. *)
Inductive parse_data : Type :=
| Captcha (error : string) (captcha_challenge : string) (captcha_images : list string)
| CaptchaFailed (error : string) (next : string)
| CaptchaSuccess
| Unknown
| Results (hasMore : nat) (results : list SearchResult).

Definition mode (data : parse_data) : string :=
  match data with
  | Captcha _ _ _ => "captcha"
  | CaptchaFailed _ _ => "captcha-failed"
  | CaptchaSuccess => "captcha-success"
  | Unknown => "unknown"
  | Results _ _ => "results"
  end.

(** [src.split("/").pop()?.replace(".jpg", "") || ""] *)
Definition filename_of (src : string) : string :=
  Js.or_empty (Js.replace ".jpg" "" <$> Js.pop (Js.split "/" src)).

(** The [.each] loop over the tile images, with its two arrays. *)
Fixpoint each_image (W : world) (html : Cheerio.document) (elems : list Cheerio.elem)
    (images checkboxNames : list string) : result (list string * list string) :=
  match elems with
  | [] => Ok (images, checkboxNames)
  | elem :: rest =>
      let src := Js.or_empty (Cheerio.attr "src" (Cheerio.wrap html elem)) in
      match URL_href W src "https://duckduckgo.com" with
      | Throw e => Throw e
      | Ok absoluteUrl =>
          let images := images ++ [absoluteUrl] in
          let filename := filename_of src in
          let checkboxNames :=
            if Js.truthy filename
            then checkboxNames ++ ["image-check_" +:+ filename]
            else checkboxNames in
          each_image W html rest images checkboxNames
      end
  end.

(** The body of the [.each] loop over the result items: the record
    pushed for one item, if any. *)
Definition result_of (html : Cheerio.document) (elem : Cheerio.elem) : option SearchResult :=
  let result := Cheerio.wrap html elem in
  let titleElement := Cheerio.first (Cheerio.find (Cheerio.by_class "result__a") result) in
  let urlElement := Cheerio.first (Cheerio.find (Cheerio.by_class "result__a") result) in
  let descriptionElement :=
    Cheerio.first (Cheerio.find (Cheerio.by_class "result__snippet") result) in
  if (0 <? Cheerio.length titleElement)%nat then
    let title := Js.trim (Cheerio.text titleElement) in
    let url := Js.or_empty (Cheerio.attr "href" urlElement) in
    let description :=
      if (0 <? Cheerio.length descriptionElement)%nat
      then Js.trim (Cheerio.text descriptionElement)
      else "" in
    if Js.truthy title then Some (MkSearchResult title url description) else None
  else None.

(** The loop over the inputs of the next-page form. *)
Definition form_fields (inputs : list Cheerio.elem) : URLSearchParams.t :=
  fold_left
    (fun formData input =>
       if Js.truthy_opt (Cheerio.attribs_get "name" (Cheerio.self input))
       then URLSearchParams.append
              (Js.or_empty (Cheerio.attribs_get "name" (Cheerio.self input)))
              (Js.or_empty (Cheerio.attribs_get "value" (Cheerio.self input)))
              formData
       else formData)
    inputs URLSearchParams.new.

(** [$("form>[value='Next']").parent()] *)
Definition next_forms (html : Cheerio.document) : Cheerio.t :=
  Cheerio.parent
    (Cheerio.children (Cheerio.by_attr "value" "Next")
                      (Cheerio.select html (Cheerio.by_tag "form"))).

Definition parseSearchResults (W : world) (html : Cheerio.document) : M parse_data :=
  let challengeForm := Cheerio.select html (Cheerio.by_id "challenge-form") in
  if (0 <? Cheerio.length challengeForm)%nat then
    let action := Js.or_empty (Cheerio.attr "action" challengeForm) in
    let submitButton :=
      Cheerio.find (Cheerio.both (Cheerio.by_tag "button")
                                 (Cheerio.by_attr "name" "challenge-submit"))
                   challengeForm in
    let submitValue := Js.or_empty (Cheerio.attr "value" submitButton) in
    arrays <- lift (each_image W html
                      (Cheerio.elems (Cheerio.find (Cheerio.by_class "anomaly-modal__image")
                                                   challengeForm))
                      [] []) ;;
    let images := fst arrays in
    let checkboxNames := snd arrays in
    let challenge :=
      Cheerio.text (Cheerio.find (Cheerio.by_class "anomaly-modal__instructions")
                                 challengeForm) in
    set_captchaState
      (MkCaptchaState (Some challenge) (Some images) (Some action)
                      (Some submitValue) (Some checkboxNames)) ;;
    ret (Captcha "Search blocked by CAPTCHA challenge." challenge images)
  else
  let errorForm := Cheerio.select html (Cheerio.by_id "error-form") in
  if (0 <? Cheerio.length errorForm)%nat then
    let instruction :=
      Cheerio.first (Cheerio.find (Cheerio.by_class "anomaly-modal__error-instructions")
                                  errorForm) in
    ret (CaptchaFailed (Js.trim (Cheerio.text instruction))
                       (Js.or_empty (Cheerio.attr "action" errorForm)))
  else
  let successForm := Cheerio.select html (Cheerio.by_id "success-form") in
  if (0 <? Cheerio.length successForm)%nat then ret CaptchaSuccess
  else
  let resultsElement := Cheerio.select html (Cheerio.by_class "results") in
  if (Cheerio.length resultsElement =? 0)%nat then ret Unknown
  else
  let results :=
    omap (result_of html) (Cheerio.elems (Cheerio.select html (Cheerio.by_class "result"))) in
  let next := next_forms html in
  let hasMore := Cheerio.length next in
  if (hasMore =? 0)%nat then ret (Results hasMore results)
  else
    let inputs := Cheerio.find (Cheerio.by_tag "input") next in
    let formData := form_fields (Cheerio.elems inputs) in
    set_nextFormData (Some (URLSearchParams.toString formData)) ;;
    ret (Results hasMore results).

(* ===================================================================== *)
(** * Rendering a parse result; the puzzle compositor                     *)
(* ===================================================================== *)

(** A content item of a tool result; the program only produces text. *)
Inductive content_item : Type :=
| TextItem (text : string).

(** A tool result; [isError] is [None] where the field is left out. *)
Record CallToolResult := MkResult {
  content : list content_item;
  isError : option bool
}.

Definition nl : string := String (U16 zero "010") EmptyString.
Definition quote : string := String (U16 zero "034") EmptyString.

Definition hostname : string := "127.0.0.1".

Definition tileSize : Z := 256.

(** [pureimage.make(w, h)] and its 2D context. *)
Definition make (w h : Z) : canvas := Canvas w h "#000000" "" [].

Definition set_fillStyle (v : string) (c : canvas) : canvas :=
  Canvas (canvas_width c) (canvas_height c) v (font c) (drawn c).

Definition set_font (v : string) (c : canvas) : canvas :=
  Canvas (canvas_width c) (canvas_height c) (fillStyle c) v (drawn c).

Definition draw (d : drawing) (c : canvas) : canvas :=
  Canvas (canvas_width c) (canvas_height c) (fillStyle c) (font c) (drawn c ++ [d]).

Definition fillRect (x y w h : Z) (c : canvas) : canvas :=
  draw (FillRect (fillStyle c) x y w h) c.

Definition fillText (label : string) (x y : Z) (c : canvas) : canvas :=
  draw (FillText (fillStyle c) (font c) label x y) c.

(** The cells of the two nested loops, [row] outside and [col] inside. *)
Definition grid : list (Z * Z) :=
  flat_map (fun row => map (fun col => (row, col)) [0; 1; 2]%Z) [0; 1; 2]%Z.

(** [imageBuffers[index]]; the index is below the length 9 the caller has
    tested. *)
Definition buffer_at (imageBuffers : list buffer) (index : Z) : buffer :=
  default EmptyString (imageBuffers !! Z.to_nat index).

(** The compositing loop: decode a tile, draw it into its cell, draw its
    index. A tile that does not decode throws. *)
Fixpoint draw_tiles (W : world) (imageBuffers : list buffer) (cells : list (Z * Z))
    (c : canvas) : result canvas :=
  match cells with
  | [] => Ok c
  | (row, col) :: rest =>
      let index := (row * 3 + col)%Z in
      match decodeJPEGFromStream W (buffer_at imageBuffers index) with
      | Throw e => Throw e
      | Ok img =>
          let c := draw (DrawImage9 img 0 0 (width img) (height img)
                           (col * tileSize) (row * tileSize) tileSize tileSize) c in
          let c := set_fillStyle "red" c in
          let c := set_font "20px Arial" c in
          let c := fillText (Js.toString index)
                            (col * tileSize - 5) (row * tileSize - 25) c in
          draw_tiles W imageBuffers rest c
      end
  end.

(** The canvas of the composite: white background, the nine tiles, the
    overlay. *)
Definition compose (W : world) (imageBuffers : list buffer) : result canvas :=
  let c := make (tileSize * 3) (tileSize * 3) in
  let c := set_fillStyle "white" c in
  let c := fillRect 0 0 (tileSize * 3) (tileSize * 3) c in
  match draw_tiles W imageBuffers grid c with
  | Throw e => Throw e
  | Ok c =>
      match overlay_asset W with
      | Throw e => Throw e
      | Ok overlayImage =>
          Ok (draw (DrawImage5 overlayImage 0 0 (tileSize * 3) (tileSize * 3)) c)
      end
  end.

(** One tile download: [null] for an empty URL, a failed request, a
    response that is not ok, or a body that cannot be read. *)
Definition download (W : world) (imageUrl : string) : M (option buffer) :=
  if negb (Js.truthy imageUrl) then ret None
  else
    try_catch
      (response <- fetch W (Request "GET" imageUrl [] None) ;;
       if ok response
       then (arrayBuffer <- lift (arrayBuffer response) ;; ret (Some arrayBuffer))
       else ret None)
      (fun _ => ret None).

(** All downloads, started in the order of the URLs, and the buffers of
    those that succeeded. *)
Definition download_all (W : world) (images : list string) : M (list buffer) :=
  buffers <- mapM (download W) images ;;
  ret (omap id buffers).

(** [captchaImages.set(imageUrl, buffer)] and the [setTimeout] that is to
    delete the entry after five minutes. *)
Definition publish (imageUrl : string) (png : buffer) : M unit :=
  modify (fun s =>
    State (searchState s) (captchaState s)
          (<[imageUrl := png]> (captchaImages s))
          (timeouts s ++ [(5 * 60 * 1000, imageUrl)%Z])).

Definition solve_instructions (W : world) (challenge imageUrl : string) : string :=
  "Search blocked by CAPTCHA challenge." +:+ nl +:+ nl +:+
  "Ask user to solve CAPTCHA: " +:+ quote +:+ challenge +:+ quote +:+
  ". Inform user that the search requires CAPTCHA to be solved. Inform user to check this image " +:+
  quote +:+ "http://" +:+ hostname +:+ ":" +:+ Js.toString (server_port W) +:+ imageUrl +:+ quote +:+
  " and reply the result numbers selected from 1 to 9. Do not attempt to solve it for user or provide suggestions." +:+
  nl +:+ nl +:+ "Then use the " +:+ quote +:+ "solve_captcha" +:+ quote +:+
  " tool with the list of result numbers.".

Definition blocked_message : string :=
  "Search blocked by DuckDuckGo, this search cannot be performed.".

Definition results_summary (hasMore : nat) (results : list SearchResult) (query : string) : string :=
  let listing :=
    Js.join (nl +:+ nl)
      (map (fun r => "(" +:+ title r +:+ ")[" +:+ url r +:+ "]" +:+ nl +:+ description r)
           results) in
  "Found " +:+ Js.toString (Z.of_nat (List.length results)) +:+
  " results for query " +:+ quote +:+ query +:+ quote +:+ ". " +:+
  (if (hasMore =? 0)%nat
   then "No more pages available."
   else "More pages available via search_next tool. Only use it if you have yet to obtain enough information.") +:+
  nl +:+ nl +:+ "Results:" +:+ nl +:+
  (if Js.truthy listing then listing else "No results found.").

Definition dataToResult (W : world) (data : parse_data) (query : string) : M CallToolResult :=
  match data with
  | CaptchaFailed error _ =>
      ret (MkResult
             [TextItem ("Captcha failed. Notify user to retry giving the captcha result." +:+
                        nl +:+ nl +:+ error +:+ ".")]
             (Some true))
  | CaptchaSuccess =>
      ret (MkResult
             [TextItem ("Captcha successfully solved. You should call " +:+
                        quote +:+ "search" +:+ quote +:+ " tool again.")]
             None)
  | Unknown =>
      ret (MkResult [TextItem "Search can not be performed due to unknown error."] None)
  | Captcha _ challenge images =>
      imageBuffers <- download_all W images ;;
      if (List.length imageBuffers =? 9)%nat then
        canvas <- lift (compose W imageBuffers) ;;
        buffer <- lift (encodePNGToStream W canvas) ;;
        let imageUrl := "/" +:+ randomBytes_hex W +:+ ".png" in
        publish imageUrl buffer ;;
        ret (MkResult [TextItem (solve_instructions W challenge imageUrl)] None)
      else
        ret (MkResult [TextItem blocked_message] None)
  | Results hasMore results =>
      ret (MkResult [TextItem (results_summary hasMore results query)] None)
  end.

(** The image server's request handler: status and body. *)
Definition serve (req_url : option string) (s : state) : Z * option buffer :=
  match captchaImages s !! Js.or_empty req_url with
  | Some image => (200%Z, Some image)
  | None => (404%Z, None)
  end.

(** The pending timeouts without the oldest one for a path. *)
Fixpoint fired (imageUrl : string) (pending : list (Z * string)) : list (Z * string) :=
  match pending with
  | [] => []
  | t :: pending' =>
      if JsString.eqb (snd t) imageUrl then pending' else t :: fired imageUrl pending'
  end.

(** A pending timeout fires: [captchaImages.delete(imageUrl)]. *)
Definition expire (imageUrl : string) (s : state) : state :=
  State (searchState s) (captchaState s) (delete imageUrl (captchaImages s))
        (fired imageUrl (timeouts s)).

(* ===================================================================== *)
(** * The tools                                                           *)
(* ===================================================================== *)

Definition supportedRegions : list (string * string) :=
  [ ("global", ""); ("argentina", "ar-es"); ("australia", "au-en");
    ("austria", "at-de"); ("belgium_fr", "be-fr"); ("belgium_nl", "be-nl");
    ("brazil", "br-pt"); ("bulgaria", "bg-bg"); ("canada_en", "ca-en");
    ("canada_fr", "ca-fr"); ("catalonia", "ct-ca"); ("chile", "cl-es");
    ("china", "cn-zh"); ("colombia", "co-es"); ("croatia", "hr-hr");
    ("czech_republic", "cz-cs"); ("denmark", "dk-da"); ("estonia", "ee-et");
    ("finland", "fi-fi"); ("france", "fr-fr"); ("germany", "de-de");
    ("greece", "gr-el"); ("hong_kong", "hk-tzh"); ("hungary", "hu-hu");
    ("iceland", "is-is"); ("india_en", "in-en"); ("indonesia_en", "id-en");
    ("ireland", "ie-en"); ("israel_en", "il-en"); ("italy", "it-it");
    ("japan", "jp-jp"); ("korea", "kr-kr"); ("latvia", "lv-lv");
    ("lithuania", "lt-lt"); ("malaysia_en", "my-en"); ("mexico", "mx-es");
    ("netherlands", "nl-nl"); ("new_zealand", "nz-en"); ("norway", "no-no");
    ("pakistan_en", "pk-en"); ("peru", "pe-es"); ("philippines_en", "ph-en");
    ("poland", "pl-pl"); ("portugal", "pt-pt"); ("romania", "ro-ro");
    ("russia", "ru-ru"); ("saudi_arabia", "xa-ar"); ("singapore", "sg-en");
    ("slovakia", "sk-sk"); ("slovenia", "sl-sl"); ("south_africa", "za-en");
    ("spain_ca", "es-ca"); ("spain_es", "es-es"); ("sweden", "se-sv");
    ("switzerland_de", "ch-de"); ("switzerland_fr", "ch-fr"); ("taiwan", "tw-tzh");
    ("thailand_en", "th-en"); ("turkey", "tr-tr"); ("us_english", "us-en");
    ("us_spanish", "us-es"); ("ukraine", "ua-uk"); ("united_kingdom", "uk-en");
    ("vietnam_en", "vn-en") ].

Definition supportedDateFrame : list (string * string) :=
  [ ("any", ""); ("past_day", "d"); ("past_week", "w"); ("past_month", "m");
    ("past_year", "y") ].

(** [key && table[key]] as a condition that also yields the code: the
    code of a key of the table (the input schema admits no other key),
    when the key is given and the code is not empty. *)
Definition code_of (table : list (string * string)) (key : option string) : option string :=
  match key with
  | Some k =>
      if Js.truthy k then
        match Js.property k table with
        | Some code => if Js.truthy code then Some code else None
        | None => None
        end
      else None
  | None => None
  end.

Definition defaultHeaders (W : world) : list (string * string) :=
  let lang := default EmptyString (head (Js.split "-" (locale W))) in
  [ ("User-Agent", "Mozilla/5.0 (X11; Linux x86_64; rv:143.0) Gecko/20100101 Firefox/143.0");
    ("Accept", "text/html,application/xhtml+xml,application/xml;q=0.9,*/*;q=0.8");
    ("Accept-Language",
     if negb (Js.truthy lang) then "en-US,en;q=0.9"
     else locale W +:+ "," +:+ lang +:+ ";q=0.9");
    ("Accept-Encoding", "gzip, deflate, br, zstd");
    ("Referer", "https://html.duckduckgo.com/");
    ("Sec-GPC", "1");
    ("Upgrade-Insecure-Requests", "1");
    ("Sec-Fetch-Dest", "document");
    ("Sec-Fetch-Mode", "navigate");
    ("Sec-Fetch-Site", "same-origin");
    ("DNT", "1");
    ("Priority", "u=0, i");
    ("Pragma", "no-cache");
    ("Cache-Control", "no-cache");
    ("TE", "trailers") ].

(** The headers of the three form posts. *)
Definition form_headers (W : world) : list (string * string) :=
  defaultHeaders W ++
  [ ("Content-Type", "application/x-www-form-urlencoded");
    ("Origin", "https://html.duckduckgo.com") ].

Definition search_endpoint : string := "https://html.duckduckgo.com/html/".

Definition error_result (message : string) : CallToolResult :=
  MkResult [TextItem message] (Some true).

Definition http_error (prefix : string) (response : response) : CallToolResult :=
  error_result (prefix +:+ Js.toString (status response) +:+ " " +:+ statusText response).

Definition search (W : world) (query : string) (region dateFrame : option string)
    : M CallToolResult :=
  try_catch
    (set_searchState (MkSearchState (Some query) 1 None) ;;
     let searchParams := URLSearchParams.set "q" query URLSearchParams.new in
     let searchParams :=
       match code_of supportedRegions region with
       | Some code => URLSearchParams.set "kl" code searchParams
       | None => searchParams
       end in
     let searchParams :=
       match code_of supportedDateFrame dateFrame with
       | Some code => URLSearchParams.set "df" code searchParams
       | None => searchParams
       end in
     let searchParams := URLSearchParams.set "b" "" searchParams in
     response <- fetch W (Request "POST" search_endpoint (form_headers W)
                                  (Some (URLSearchParams.toString searchParams))) ;;
     if negb (ok response)
     then ret (http_error "Error fetching search results: " response)
     else
       html <- lift (text response) ;;
       data <- parseSearchResults W html ;;
       dataToResult W data query)
    (fun errorMessage => ret (error_result ("Error performing search: " +:+ errorMessage))).

Definition no_next_page : CallToolResult := error_result "No next page available.".

Definition search_next (W : world) : M CallToolResult :=
  s <- get ;;
  if negb (Js.truthy_opt (nextFormData (searchState s)))
     || (5 <? currentPage (searchState s))%Z
  then ret no_next_page
  else
    try_catch
      (set_currentPage (currentPage (searchState s) + 1) ;;
       let body := nextFormData (searchState s) in
       set_nextFormData None ;;
       response <- fetch W (Request "POST" search_endpoint (form_headers W) body) ;;
       if negb (ok response)
       then ret (http_error "Error fetching search results: " response)
       else
         html <- lift (text response) ;;
         data <- parseSearchResults W html ;;
         s' <- get ;;
         dataToResult W data (Js.or_empty (currentQuery (searchState s'))))
      (fun errorMessage => ret (error_result ("Error performing search: " +:+ errorMessage))).

(** The fields [solve_captcha] uses of a challenge it accepts: all five
    fields of [captchaState] are truthy. *)
Definition active (c : CaptchaState) : option (string * string * list string) :=
  match challenge c, images c, action c, submitValue c, checkboxNames c with
  | Some ch, Some _, Some act, Some sv, Some names =>
      if Js.truthy ch && Js.truthy act && Js.truthy sv
      then Some (act, sv, names)
      else None
  | _, _, _, _, _ => None
  end.

(** [arr[k]] for a number [k]: an element only at a whole, non-negative
    index below the length. *)
Definition array_get (arr : list string) (k : Q) : option string :=
  if Qeq_bool (inject_Z (Qfloor k)) k && Qle_bool 0 k
  then arr !! Z.to_nat (Qfloor k)
  else None.

(** The loop over [indices], appending the checked boxes. *)
Definition check_boxes (names : list string) (indices : list Q)
    (formData : URLSearchParams.t) : URLSearchParams.t :=
  fold_left
    (fun formData index =>
       if Qle_bool 1 index && Qle_bool index (inject_Z (Z.of_nat (List.length names)))
       then
         match array_get names (index - 1) with
         | Some checkboxName =>
             if Js.truthy checkboxName
             then URLSearchParams.append checkboxName "1" formData
             else formData
         | None => formData
         end
       else formData)
    indices formData.

Definition no_active_challenge : CallToolResult :=
  error_result "No CAPTCHA challenge is currently active.".

Definition solve_captcha (W : world) (indices : list Q) : M CallToolResult :=
  try_catch
    (s <- get ;;
     match active (captchaState s) with
     | None => ret no_active_challenge
     | Some (action, submitValue, checkboxNames) =>
         let formData :=
           URLSearchParams.append "challenge-submit" submitValue URLSearchParams.new in
         let formData := check_boxes checkboxNames indices formData in
         actionUrl <- lift (URL_href W action "https://duckduckgo.com") ;;
         response <- fetch W (Request "POST" actionUrl (form_headers W)
                                      (Some (URLSearchParams.toString formData))) ;;
         if negb (ok response)
         then ret (http_error "Error solving CAPTCHA: " response)
         else
           html <- lift (text response) ;;
           data <- parseSearchResults W html ;;
           s' <- get ;;
           dataToResult W data (Js.or_empty (currentQuery (searchState s')))
     end)
    (fun errorMessage => ret (error_result ("Error solving CAPTCHA: " +:+ errorMessage))).

(* ===================================================================== *)
(** * The fetch tool                                                      *)
(* ===================================================================== *)

Module Dom.

Import Cheerio.

(** [elem.remove()] for every element matching a selector: the tree
    without these elements and what is below them. *)
Fixpoint remove (s : selector) (n : node) : list node :=
  match n with
  | Element name a ch =>
      if s n then [] else [Element name a (flat_map (remove s) ch)]
  | other => [other]
  end.

Definition remove_all (s : selector) (d : document) : document := flat_map (remove s) d.

(** [[src^='data:']] *)
Definition data_src : selector :=
  fun n => match attribs_get "src" n with
           | Some v => match Js.strip_prefix "data:" v with Some _ => true | None => false end
           | None => false
           end.

(** [elem.setAttribute(name, value)] on the attributes of an element. *)
Fixpoint setAttribute (name value : string) (a : list (string * string))
    : list (string * string) :=
  match a with
  | [] => [(name, value)]
  | (k, v) :: a' =>
      if JsString.eqb k name then (k, value) :: a' else (k, v) :: setAttribute name value a'
  end.

(** [setAttribute("src", "")] on every element matching [data_src]. *)
Fixpoint clear_data_src (n : node) : node :=
  match n with
  | Element name a ch =>
      Element name (if data_src n then setAttribute "src" "" a else a)
              (map clear_data_src ch)
  | other => other
  end.

(** The three cleaning passes of the fetch tool, in their order. *)
Definition clean (d : document) : document :=
  map clear_data_src (remove_all (by_tag "svg") (remove_all (by_tag "iframe") d)).


End Dom.

(** [obj[key] = value] on an object given by its own properties: the
    value is replaced in place, or the property is added last. (The
    order of properties is kept as written; it plays no part below.) *)
Fixpoint assign (key value : string) (obj : list (string * string)) : list (string * string) :=
  match obj with
  | [] => [(key, value)]
  | (k, v) :: obj' =>
      if JsString.eqb k key then (k, value) :: obj' else (k, v) :: assign key value obj'
  end.

(** [{ ...target, ...source }] *)
Definition spread (target source : list (string * string)) : list (string * string) :=
  fold_left (fun obj kv => assign (fst kv) (snd kv) obj) source target.

(** [JSON.stringify] of a string: quotes and backslashes escaped, the
    control characters written as short or [\u00..] escapes, a surrogate
    outside a pair as a [\ud...] escape. *)
Definition hex_lower (n : N) : unit16 :=
  (if n <? 10 then Utf8.byte (48 + n) else Utf8.byte (87 + n))%N.

Definition unicode_escape (n : N) : string :=
  ("\u" +:+ String (hex_lower (n / 4096))
              (String (hex_lower ((n / 256) mod 16))
                 (String (hex_lower ((n / 16) mod 16))
                    (String (hex_lower (n mod 16)) EmptyString))))%N.

Definition json_char (c : unit16) : string :=
  let n := Unit.code c in
  (if n =? 34 then String "\" (String c EmptyString)
   else if n =? 92 then "\\"
   else if n =? 8 then "\b"
   else if n =? 9 then "\t"
   else if n =? 10 then "\n"
   else if n =? 12 then "\f"
   else if n =? 13 then "\r"
   else if n <? 32 then unicode_escape n
   else String c EmptyString)%N.

Fixpoint json_chars (s : string) : string :=
  match s with
  | EmptyString => EmptyString
  | String c s' =>
      let n := Unit.code c in
      if Utf8.is_high n then
        match s' with
        | String d s'' =>
            if Utf8.is_low (Unit.code d)
            then String c (String d (json_chars s''))
            else unicode_escape n +:+ json_chars s'
        | EmptyString => unicode_escape n
        end
      else if Utf8.is_low n then unicode_escape n +:+ json_chars s'
      else json_char c +:+ json_chars s'
  end.

Definition json_string (s : string) : string := quote +:+ json_chars s +:+ quote.

(** What the fetch tool gets from outside, besides the platform. *)
Record reader := Reader {
  platform : world;
  (** [new URL(url).origin]; throws on an invalid URL *)
  URL_origin : string -> result string;
  (** the transport, with the response text as the tree [parseHTML]
      builds from it; the outer result is that of [fetch], the inner one
      that of [response.text()] *)
  fetch_page : request -> result (result Cheerio.document);
  (** [Defuddle(dom, url, { markdown: true })], its [content] *)
  Defuddle : Cheerio.document -> string -> result string;
  (** [Date.now()] at its three calls *)
  startTime : Z;
  domDone : Z;
  articleDone : Z
}.

Definition mergedHeaders (R : reader) (origin : string)
    (headers : option (list (string * string))) : list (string * string) :=
  spread (assign "Origin" origin (spread [] (defaultHeaders (platform R))))
         (default [] headers).

Definition fetch_report (R : reader) (content : string) : string :=
  "{" +:+ quote +:+ "domTime" +:+ quote +:+ ":" +:+ Js.toString (domDone R - startTime R) +:+
  "," +:+ quote +:+ "articleTime" +:+ quote +:+ ":" +:+
  Js.toString (articleDone R - startTime R) +:+
  "," +:+ quote +:+ "content" +:+ quote +:+ ":" +:+ json_string content +:+ "}".

(** The handler of the [fetch] tool: its answer and the requests it
    issues. It uses none of the server's state. *)
Definition fetch_tool (R : reader) (url : string) (headers : option (list (string * string)))
    : CallToolResult * list request :=
  match URL_origin R url with
  | Throw e => (error_result ("Error fetching URL: " +:+ e), [])
  | Ok origin =>
      let req := Request "GET" url (mergedHeaders R origin headers) None in
      match fetch_page R req with
      | Throw e => (error_result ("Error fetching URL: " +:+ e), [req])
      | Ok (Throw e) => (error_result ("Error fetching URL: " +:+ e), [req])
      | Ok (Ok dom) =>
          match Defuddle R (Dom.clean dom) url with
          | Throw e => (error_result ("Error fetching URL: " +:+ e), [req])
          | Ok content => (MkResult [TextItem (fetch_report R content)] None, [req])
          end
      end
  end.

(* ===================================================================== *)
(** * The first version of the server ([src/index.ts])                    *)
(* ===================================================================== *)

(** The version without challenges: a parser that knows results pages
    only, and the two search tools. Its only state is [searchState]; run
    in the monad of the later version, it leaves the other components of
    the state alone. *)
Module Legacy.

Definition defaultHeaders : list (string * string) :=
  [ ("User-Agent", "Mozilla/5.0 (X11; Linux x86_64; rv:143.0) Gecko/20100101 Firefox/143.0");
    ("Accept", "text/html,application/xhtml+xml,application/xml;q=0.9,*/*;q=0.8");
    ("Accept-Language", "en-US,zh-CN;q=0.7,en;q=0.3");
    ("Accept-Encoding", "gzip, deflate, br, zstd");
    ("Referer", "https://html.duckduckgo.com/");
    ("Sec-GPC", "1");
    ("Upgrade-Insecure-Requests", "1");
    ("Sec-Fetch-Dest", "document");
    ("Sec-Fetch-Mode", "navigate");
    ("Sec-Fetch-Site", "same-origin");
    ("DNT", "1");
    ("Priority", "u=0, i");
    ("Pragma", "no-cache");
    ("Cache-Control", "no-cache");
    ("TE", "trailers") ].

Definition form_headers : list (string * string) :=
  defaultHeaders ++
  [ ("Content-Type", "application/x-www-form-urlencoded");
    ("Origin", "https://html.duckduckgo.com") ].

Record data := MkData {
  hasMore : nat;
  results : list SearchResult
}.

Definition parseSearchResults (html : Cheerio.document) : M data :=
  let results :=
    omap (result_of html) (Cheerio.elems (Cheerio.select html (Cheerio.by_class "result"))) in
  let next := next_forms html in
  let hasMore := Cheerio.length next in
  if (hasMore =? 0)%nat then ret (MkData hasMore results)
  else
    let inputs := Cheerio.find (Cheerio.by_tag "input") next in
    let formData := form_fields (Cheerio.elems inputs) in
    set_nextFormData (Some (URLSearchParams.toString formData)) ;;
    ret (MkData hasMore results).

(** Code units [encodeURIComponent] leaves as they are: ASCII letters
    and digits, and [- _ . ! ~ * ' ( )]. *)
Definition unescaped (n : N) : bool :=
  ((48 <=? n) && (n <=? 57) || (65 <=? n) && (n <=? 90)
   || (97 <=? n) && (n <=? 122)
   || (n =? 45) || (n =? 95) || (n =? 46) || (n =? 33) || (n =? 126)
   || (n =? 42) || (n =? 39) || (n =? 40) || (n =? 41))%N.

(** One byte, kept or percent-encoded. *)
Definition escape_byte (b : unit16) : string :=
  let n := Unit.code b in
  if unescaped n then String b EmptyString else URLSearchParams.percent n.

Fixpoint escape_bytes (bs : string) : string :=
  match bs with
  | EmptyString => EmptyString
  | String b bs' => escape_byte b +:+ escape_bytes bs'
  end.

(** [encodeURIComponent]: the UTF-8 bytes of the string, escaped. On a
    surrogate outside a pair it throws a URIError, whose message
    [malformed] is the engine's. *)
Definition encodeURIComponent (malformed : string) (s : string) : result string :=
  if Js.isWellFormed s then Ok (escape_bytes (Utf8.encode s)) else Throw malformed.

(** The template literal of the request body. *)
Definition search_body (malformed : string) (query : string) : result string :=
  match encodeURIComponent malformed query with
  | Ok component => Ok ("q=" +:+ component +:+ "&b=")
  | Throw e => Throw e
  end.

(** The text both tools answer with; [more] is the condition of the
    conditional expression, [query] the interpolated query. *)
Definition summary (more : bool) (results : list SearchResult) (query : string) : string :=
  "Found " +:+ Js.toString (Z.of_nat (List.length results)) +:+
  " results for query " +:+ quote +:+ query +:+ quote +:+ ". " +:+
  (if more
   then "More pages available via search_next tool. Only use it if you have yet to obtain enough information."
   else "No more pages available.") +:+
  nl +:+ nl +:+ "Results:" +:+ nl +:+
  Js.join (nl +:+ nl)
    (map (fun r => "(" +:+ title r +:+ ")[" +:+ url r +:+ "]" +:+ nl +:+ description r)
         results).

Definition search (W : world) (malformed : string) (query : string) : M CallToolResult :=
  try_catch
    (set_searchState (MkSearchState (Some query) 1 None) ;;
     body <- lift (search_body malformed query) ;;
     response <- fetch W (Request "POST" search_endpoint form_headers (Some body)) ;;
     if negb (ok response)
     then ret (http_error "Error fetching search results: " response)
     else
       html <- lift (text response) ;;
       data <- parseSearchResults html ;;
       ret (MkResult [TextItem (summary (negb (hasMore data =? 0)%nat) (results data) query)]
                     None))
    (fun errorMessage => ret (error_result ("Error performing search: " +:+ errorMessage))).

(** A template literal's rendering of [string | null]. *)
Definition interpolate (x : option string) : string := default "null" x.

Definition search_next (W : world) : M CallToolResult :=
  s <- get ;;
  if negb (Js.truthy_opt (nextFormData (searchState s)))
     || (5 <? currentPage (searchState s))%Z
  then ret no_next_page
  else
    try_catch
      (set_currentPage (currentPage (searchState s) + 1) ;;
       let body := nextFormData (searchState s) in
       set_nextFormData None ;;
       response <- fetch W (Request "POST" search_endpoint form_headers body) ;;
       if negb (ok response)
       then ret (http_error "Error fetching search results: " response)
       else
         html <- lift (text response) ;;
         data <- parseSearchResults html ;;
         s' <- get ;;
         ret (MkResult
                [TextItem (summary (negb (hasMore data =? 0)%nat
                                    || (5 <? currentPage (searchState s'))%Z)
                                   (results data)
                                   (interpolate (currentQuery (searchState s'))))]
                None))
      (fun errorMessage => ret (error_result ("Error performing search: " +:+ errorMessage))).

End Legacy.

(* ===================================================================== *)
(** * Sample documents and a sample platform                              *)
(* ===================================================================== *)

Module Sample.

Import Cheerio.

Definition el (name : string) (attribs : list (string * string)) (children : list node) : node :=
  Element name attribs children.

(** A stand-in for the URL constructor with base [https://duckduckgo.com],
    agreeing with it on the inputs of the examples: an absolute URL is
    kept, a bare scheme is invalid, the empty input gives the base, and a
    path is appended to the origin. *)
Definition href (input base : string) : result string :=
  match Js.strip_prefix "https://" input, Js.strip_prefix "http://" input with
  | Some rest, _ | None, Some rest =>
      if Js.truthy rest then Ok input else Throw "Invalid URL"
  | None, None =>
      match Js.strip_prefix "/" input with
      | Some _ => Ok (base +:+ input)
      | None => Ok (base +:+ "/" +:+ input)
      end
  end.

Definition jpeg (name : string) : buffer := "JPEG:" +:+ name.

(** A decoder that accepts the buffers made by [jpeg]. *)
Definition decode (b : buffer) : result Bitmap :=
  match Js.strip_prefix "JPEG:" b with
  | Some _ => Ok (MkBitmap 100 100 b)
  | None => Throw "SOI not found"
  end.

Definition encode (c : canvas) : result buffer :=
  Ok ("PNG " +:+ Js.toString (canvas_width c) +:+ "x" +:+ Js.toString (canvas_height c)).

Definition page (d : document) : response :=
  Response true 200 "OK" (Ok d) (Ok EmptyString).

Definition bytes (b : buffer) : response :=
  Response true 200 "OK" (Ok []) (Ok b).

Definition refused : response :=
  Response false 503 "Service Unavailable" (Ok []) (Ok EmptyString).

(** A platform whose transport is given by [transport]. *)
Definition platform (transport : request -> result response) : world :=
  World "en-US" transport href decode (Ok (MkBitmap 768 768 "overlay")) encode
        "00112233445566778899aabbccddeeff" 40123.

Definition tile_path (stem : string) : string :=
  "/assets/anomaly/images/challenge/" +:+ stem +:+ ".jpg".

Definition tile (src : string) : node :=
  el "img" [("class", "anomaly-modal__image"); ("src", src)] [].

Definition stems : list string := ["a"; "b"; "c"; "d"; "e"; "f"; "g"; "h"; "i"].

(** A challenge page with the given tile sources. *)
Definition challenge_page (action instructions submit : string) (srcs : list string) : document :=
  [ el "html" []
      [ el "body" []
          [ el "form" [("id", "challenge-form"); ("action", action)]
              ([ el "div" [("class", "anomaly-modal__instructions")] [Text instructions] ]
               ++ map tile srcs ++
               [ el "button" [("name", "challenge-submit"); ("value", submit)]
                             [Text "Submit"] ]) ] ] ].

Definition duck_challenge : document :=
  challenge_page "/anomaly-verify" "Select all squares containing a duck:" "go"
                 (map tile_path stems).

(** A challenge page one of whose tiles has a bare scheme as source. *)
Definition broken_challenge : document :=
  challenge_page "/anomaly-verify" "Select all squares containing a duck:" "go"
                 (map tile_path ["a"; "b"] ++ ["http://"]).

Definition item (t : string) (link : string) (snippet : string) : node :=
  el "div" [("class", "result results_links web-result")]
     [ el "h2" [("class", "result__title")]
          [ el "a" [("class", "result__a"); ("href", link)] [Text t] ];
       el "a" [("class", "result__snippet"); ("href", link)] [Text snippet] ].

Definition next_control (fields : list node) : node :=
  el "div" [("class", "nav-link")]
     [ el "form" [("action", "/html/"); ("method", "post")]
          (el "input" [("type", "submit"); ("class", "btn btn--alt"); ("value", "Next")] []
           :: fields) ].

Definition hidden (name value : string) : node :=
  el "input" [("type", "hidden"); ("name", name); ("value", value)] [].

Definition results_page (items : list node) : document :=
  [ el "html" [] [ el "body" [] [ el "div" [("class", "results")] items ] ] ].

Definition two_results : document :=
  results_page [ item "A" "https://a.example/" "a-desc";
                 item "B" "https://b.example/" "b-desc" ].

Definition two_results_and_next : document :=
  results_page [ item "A" "https://a.example/" "a-desc";
                 item "B" "https://b.example/" "b-desc";
                 next_control [ hidden "q" "wild ducks"; hidden "s" "10";
                                el "input" [("type", "hidden"); ("name", "dc")] [] ] ].

Definition success_page : document :=
  [ el "html" [] [ el "body" [] [ el "form" [("id", "success-form")] [] ] ] ].

Definition error_page : document :=
  [ el "html" [] [ el "body" []
      [ el "form" [("id", "error-form"); ("action", "/anomaly-retry")]
           [ el "p" [("class", "anomaly-modal__error-instructions")]
                [Text " Wrong answer "] ] ] ] ].

(** A session on page 4 with a pending token and an accepted challenge. *)
Definition busy : state :=
  State (MkSearchState (Some "ducks") 4 (Some "q=ducks&s=30"))
        (MkCaptchaState (Some "Select all squares containing a duck:")
                        (Some (map (fun s => "https://duckduckgo.com" +:+ tile_path s) stems))
                        (Some "/anomaly-verify") (Some "go")
                        (Some (map (fun s => "image-check_" +:+ s) stems)))
        ∅ [].

(** A challenge page with nine tiles, the last of which has a source
    that ends in a slash: it has no file name. *)
Definition lopsided_challenge : document :=
  challenge_page "/anomaly-verify" "Select all squares containing a duck:" "go"
                 (map tile_path ["a"; "b"; "c"; "d"; "e"; "f"; "g"; "h"]
                  ++ ["/assets/anomaly/images/challenge/"]).

(** A transport that answers every form post with the given page and
    every other request with the given bytes. *)
Definition serving (d : document) (tile_bytes : string -> buffer) (req : request)
    : result response :=
  if JsString.eqb (method req) "POST" then Ok (page d)
  else Ok (bytes (tile_bytes (resource req))).

(** A results page whose only item has no title link, with a next-page
    control. *)
Definition untitled_results : document :=
  results_page [ el "div" [("class", "result")]
                    [ el "a" [("class", "result__snippet")] [Text "orphan"] ];
                 next_control [ hidden "q" "ducks"; hidden "s" "10" ] ].

(** A results page with a next-page control whose form has no named
    input. *)
Definition bare_next : document :=
  results_page [ item "A" "https://a.example/" "a-desc"; next_control [] ].

(** A session whose accepted challenge has the checkbox names f1 to f9. *)
Definition numbered : state :=
  State (MkSearchState (Some "ducks") 1 None)
        (MkCaptchaState (Some "Select all squares containing a duck:")
                        (Some (map (fun s => "https://duckduckgo.com" +:+ tile_path s) stems))
                        (Some "/anomaly-verify") (Some "go")
                        (Some ["f1"; "f2"; "f3"; "f4"; "f5"; "f6"; "f7"; "f8"; "f9"]))
        ∅ [].

(** A challenge page whose instructions are empty. *)
Definition mute_challenge : document :=
  challenge_page "/anomaly-verify" "" "go" (map tile_path stems).

(** A platform that answers every request with the results page of
    [two_results_and_next]. *)
Definition paging : world := platform (fun _ => Ok (page two_results_and_next)).

(** A platform that answers every request with a results page that has
    no next-page form. *)
Definition ending : world := platform (fun _ => Ok (page two_results)).

(** A session on page 5 with a token. *)
Definition fifth_page : state :=
  State (MkSearchState (Some "ducks") 5 (Some "q=ducks&s=40"))
        (MkCaptchaState None None None None None) ∅ [].


End Sample.

(* ===================================================================== *)
(** * Notions the properties are stated with                              *)
(* ===================================================================== *)

(** The five classifications of a document. *)
Inductive classification : Type :=
| Challenge
| ChallengeFailed
| ChallengeResolved
| ResultsPage
| Unrecognized.

Definition class_of (data : parse_data) : classification :=
  match data with
  | Captcha _ _ _ => Challenge
  | CaptchaFailed _ _ => ChallengeFailed
  | CaptchaSuccess => ChallengeResolved
  | Results _ _ => ResultsPage
  | Unknown => Unrecognized
  end.

Definition has (html : Cheerio.document) (s : Cheerio.selector) : bool :=
  (0 <? Cheerio.length (Cheerio.select html s))%nat.

(** The classification by markers, in the priority order of the
    specification: challenge form, error form, success marker, results
    container. *)
Definition classify (html : Cheerio.document) : classification :=
  if has html (Cheerio.by_id "challenge-form") then Challenge
  else if has html (Cheerio.by_id "error-form") then ChallengeFailed
  else if has html (Cheerio.by_id "success-form") then ChallengeResolved
  else if has html (Cheerio.by_class "results") then ResultsPage
  else Unrecognized.

(** The parts of a challenge form. *)
Definition challengeForm (html : Cheerio.document) : Cheerio.t :=
  Cheerio.select html (Cheerio.by_id "challenge-form").

Definition form_action (html : Cheerio.document) : string :=
  Js.or_empty (Cheerio.attr "action" (challengeForm html)).

Definition form_submit_value (html : Cheerio.document) : string :=
  Js.or_empty
    (Cheerio.attr "value"
       (Cheerio.find (Cheerio.both (Cheerio.by_tag "button")
                                   (Cheerio.by_attr "name" "challenge-submit"))
                     (challengeForm html))).

Definition form_instructions (html : Cheerio.document) : string :=
  Cheerio.text (Cheerio.find (Cheerio.by_class "anomaly-modal__instructions")
                             (challengeForm html)).

(** The tile images of a challenge form, in document order. *)
Definition tiles (html : Cheerio.document) : list Cheerio.elem :=
  Cheerio.elems (Cheerio.find (Cheerio.by_class "anomaly-modal__image") (challengeForm html)).

Definition tile_src (html : Cheerio.document) (elem : Cheerio.elem) : string :=
  Js.or_empty (Cheerio.attr "src" (Cheerio.wrap html elem)).

(** The tile has a file name stem, hence a checkbox name. *)
Definition has_stem (html : Cheerio.document) (elem : Cheerio.elem) : bool :=
  Js.truthy (filename_of (tile_src html elem)).

(** The state with a new challenge descriptor. *)
Definition with_captcha (c : CaptchaState) (s : state) : state :=
  State (searchState s) c (captchaImages s) (timeouts s).

(** The state with a new pagination token. *)
Definition with_token (t : option string) (s : state) : state :=
  State (MkSearchState (currentQuery (searchState s)) (currentPage (searchState s)) t)
        (captchaState s) (captchaImages s) (timeouts s).

(** The result items of a results document, in document order. *)
Definition result_items (html : Cheerio.document) : list Cheerio.elem :=
  Cheerio.elems (Cheerio.select html (Cheerio.by_class "result")).

Definition title_link (html : Cheerio.document) (elem : Cheerio.elem) : Cheerio.t :=
  Cheerio.first (Cheerio.find (Cheerio.by_class "result__a") (Cheerio.wrap html elem)).

Definition snippet (html : Cheerio.document) (elem : Cheerio.elem) : Cheerio.t :=
  Cheerio.first (Cheerio.find (Cheerio.by_class "result__snippet") (Cheerio.wrap html elem)).

(** The item has a title link whose trimmed text is not empty. *)
Definition titled (html : Cheerio.document) (elem : Cheerio.elem) : bool :=
  (0 <? Cheerio.length (title_link html elem))%nat
  && Js.truthy (Js.trim (Cheerio.text (title_link html elem))).

(** The record of a titled item, field by field. *)
Definition record_of (html : Cheerio.document) (elem : Cheerio.elem) : SearchResult :=
  MkSearchResult
    (Js.trim (Cheerio.text (title_link html elem)))
    (Js.or_empty (Cheerio.attr "href" (title_link html elem)))
    (if (0 <? Cheerio.length (snippet html elem))%nat
     then Js.trim (Cheerio.text (snippet html elem))
     else "").

(** The inputs inside the form of the next-page control. *)
Definition next_inputs (html : Cheerio.document) : list Cheerio.elem :=
  Cheerio.elems (Cheerio.find (Cheerio.by_tag "input") (next_forms html)).

Definition named (input : Cheerio.elem) : bool :=
  Js.truthy_opt (Cheerio.attribs_get "name" (Cheerio.self input)).

(** The name and value of an input, the value defaulting to the empty
    string. *)
Definition field_of (input : Cheerio.elem) : string * string :=
  (Js.or_empty (Cheerio.attribs_get "name" (Cheerio.self input)),
   Js.or_empty (Cheerio.attribs_get "value" (Cheerio.self input))).

(** The request of a tile download and the buffer it yields, if any. *)
Definition tile_request (imageUrl : string) : request := Request "GET" imageUrl [] None.

Definition fetched (W : world) (imageUrl : string) : option buffer :=
  if Js.truthy imageUrl then
    match fetch_response W (tile_request imageUrl) with
    | Ok response =>
        if ok response then
          match arrayBuffer response with
          | Ok b => Some b
          | Throw _ => None
          end
        else None
    | Throw _ => None
    end
  else None.

(** The position in the list of checkbox names an index selects: the
    index is a whole number [k] with [1 <= k <= N], and selects position
    [k - 1]. *)
Definition position (N : nat) (index : Q) : option nat :=
  if Qeq_bool (inject_Z (Qfloor index)) index
     && (1 <=? Qfloor index)%Z && (Qfloor index <=? Z.of_nat N)%Z
  then Some (Z.to_nat (Qfloor index - 1))
  else None.

(** The checkbox names the indices select, one per valid index, in the
    order of the indices. *)
Definition selected (names : list string) (indices : list Q) : list string :=
  omap (fun index => position (List.length names) index ≫= (names !!.)) indices.

(** The submission for a submit value and the selected names. *)
Definition submission (submitValue : string) (names : list string) : URLSearchParams.t :=
  ("challenge-submit", submitValue) :: map (fun name => (name, "1")) names.

(** The base the program resolves URLs against. *)
Definition base_url : string := "https://duckduckgo.com".

(** The checkbox name derived from a tile. *)
Definition checkbox_name (html : Cheerio.document) (elem : Cheerio.elem) : string :=
  "image-check_" +:+ filename_of (tile_src html elem).

(** The requests of the downloads: one per non-empty URL, in order. *)
Definition tile_events (images : list string) (s : state) : list event :=
  map (fun u => Event (tile_request u) s) (List.filter Js.truthy images).

(** The state after a composite has been stored. *)
Definition published (imageUrl : string) (png : buffer) (s : state) : state :=
  State (searchState s) (captchaState s) (<[imageUrl := png]> (captchaImages s))
        (timeouts s ++ [(5 * 60 * 1000, imageUrl)%Z]).

(** The session as [search] resets it: the fresh query on page 1 with no
    token; the rest of the state as it was. *)
Definition fresh (query : string) (s : state) : state :=
  State (MkSearchState (Some query) 1 None) (captchaState s) (captchaImages s) (timeouts s).

(** The session as [search_next] advances it: the next page, the token
    consumed. *)
Definition advanced (s : state) : state :=
  State (MkSearchState (currentQuery (searchState s)) (currentPage (searchState s) + 1) None)
        (captchaState s) (captchaImages s) (timeouts s).

(** A form post to the search endpoint. *)
Definition search_request (W : world) (body : string) : request :=
  Request "POST" search_endpoint (form_headers W) (Some body).

(** The request did not bring an ok response: the transport failed or
    the status is not a success. *)
Definition failed (W : world) (req : request) : Prop :=
  match fetch_response W req with
  | Ok response => ok response = false
  | Throw _ => True
  end.

(** The token a results document with a next-page control yields. *)
Definition token_of (html : Cheerio.document) : string :=
  URLSearchParams.toString (form_fields (next_inputs html)).

(** The compositor path of [dataToResult], entered with nine buffers:
    compose, encode, store, and tell where the image is. *)
Definition compositor_path (W : world) (challenge : string) (imageBuffers : list buffer)
    (log : list event) (s : state) : result CallToolResult * state * list event :=
  match compose W imageBuffers with
  | Throw e => (Throw e, s, log)
  | Ok c =>
      match encodePNGToStream W c with
      | Throw e => (Throw e, s, log)
      | Ok png =>
          let imageUrl := "/" +:+ randomBytes_hex W +:+ ".png" in
          (Ok (MkResult [TextItem (solve_instructions W challenge imageUrl)] None),
           published imageUrl png s, log)
      end
  end.

(** The answer on the other path. *)
Definition unavailable (log : list event) (s : state)
    : result CallToolResult * state * list event :=
  (Ok (MkResult [TextItem blocked_message] None), s, log).

(** What a tool does with a response that is ok, and how it reports an
    error thrown on the way. *)
Definition respond (W : world) (response : response) (failure : string) : M CallToolResult :=
  try_catch
    (html <- lift (text response) ;;
     data <- parseSearchResults W html ;;
     s' <- get ;;
     dataToResult W data (Js.or_empty (currentQuery (searchState s'))))
    (fun errorMessage => ret (error_result (failure +:+ errorMessage))).

(** The same for [search], which renders with the query it was given. *)
Definition respond_to (W : world) (response : response) (query : string) : M CallToolResult :=
  try_catch
    (html <- lift (text response) ;;
     data <- parseSearchResults W html ;;
     dataToResult W data query)
    (fun errorMessage => ret (error_result ("Error performing search: " +:+ errorMessage))).

(** The body of the request [search] posts. *)
Definition search_body (query : string) (region dateFrame : option string) : string :=
  let searchParams := URLSearchParams.set "q" query URLSearchParams.new in
  let searchParams :=
    match code_of supportedRegions region with
    | Some code => URLSearchParams.set "kl" code searchParams
    | None => searchParams
    end in
  let searchParams :=
    match code_of supportedDateFrame dateFrame with
    | Some code => URLSearchParams.set "df" code searchParams
    | None => searchParams
    end in
  URLSearchParams.toString (URLSearchParams.set "b" "" searchParams).

(** The request [solve_captcha] posts. *)
Definition solve_request (W : world) (actionUrl submitValue : string)
    (names : list string) (indices : list Q) : request :=
  Request "POST" actionUrl (form_headers W)
          (Some (URLSearchParams.toString
                   (check_boxes names indices [("challenge-submit", submitValue)]))).

(** What answering a response does to the session and the descriptor:
    what the parser does to them on the text of the response. *)
Definition parsed_effect (response : response) (s s2 : state) : Prop :=
  currentQuery (searchState s2) = currentQuery (searchState s) /\
  currentPage (searchState s2) = currentPage (searchState s) /\
  (nextFormData (searchState s2) = nextFormData (searchState s) \/
   exists html, text response = Ok html /\ classify html = ResultsPage /\
                nextFormData (searchState s2) = Some (token_of html)) /\
  (captchaState s2 = captchaState s \/
   exists html, text response = Ok html /\ classify html = Challenge).

(** The number is whole. *)
Definition whole (q : Q) : bool := Qeq_bool (inject_Z (Qfloor q)) q.

(** The states the server can be in: the initial one, and those the
    tools and the expiry of an image lead to, on any platform. *)
Inductive reachable : state -> Prop :=
| reach_initial : reachable initial_state
| reach_search W query region dateFrame s :
    reachable s -> reachable (final (search W query region dateFrame s))
| reach_search_next W s :
    reachable s -> reachable (final (search_next W s))
| reach_solve_captcha W indices s :
    reachable s -> reachable (final (solve_captcha W indices s))
| reach_expire imageUrl s :
    reachable s -> reachable (expire imageUrl s).

(** No stored checkbox name is empty. *)
Definition well_named (c : CaptchaState) : Prop :=
  forall names, checkboxNames c = Some names -> Forall (fun name => name <> "") names.

(** The tile requests rendering a parse result issues. *)
Definition downloads (data : parse_data) : list request :=
  match data with
  | Captcha _ _ imgs => map tile_request (List.filter Js.truthy imgs)
  | _ => []
  end.

(** The requests of a run are one form post, followed by tile downloads
    only when the post brought an ok challenge page, and then by one
    download per non-empty image URL of the stored descriptor. *)
Definition post_then_tiles (W : world) (req : request)
    (r : result CallToolResult * state * list event) : Prop :=
  map issued (requests r) = [req] \/
  exists response html imgs,
    fetch_response W req = Ok response /\ ok response = true /\
    text response = Ok html /\ classify html = Challenge /\
    images (captchaState (final r)) = Some imgs /\
    map issued (requests r) = req :: map tile_request (List.filter Js.truthy imgs).

(** Whether a run issued a request: 1 or 0. *)
Definition posted {A} (r : result A * state * list event) : nat :=
  match requests r with
  | [] => 0
  | _ :: _ => 1
  end.

(** Calling [search_next] again and again, each time on some platform:
    the state reached and the number of calls that issued a request. *)
Fixpoint browse (Ws : list world) (s : state) : state * nat :=
  match Ws with
  | [] => (s, 0)
  | W :: Ws' =>
      (fst (browse Ws' (final (search_next W s))),
       posted (search_next W s) + snd (browse Ws' (final (search_next W s))))
  end.

(** The form [search] posts, pair by pair. *)
Definition search_form (query : string) (region dateFrame : option string)
    : URLSearchParams.t :=
  [("q", query)]
  ++ match code_of supportedRegions region with
     | Some code => [("kl", code)]
     | None => []
     end
  ++ match code_of supportedDateFrame dateFrame with
     | Some code => [("df", code)]
     | None => []
     end
  ++ [("b", "")].

(** The code a table gives for each of its own keys is the listed one,
    an empty code meaning no filter. *)
Definition table_ok (table : list (string * string)) : bool :=
  forallb (fun kc =>
             match code_of table (Some (fst kc)) with
             | Some code => JsString.eqb code (snd kc) && Js.truthy (snd kc)
             | None => Js.is_empty (snd kc)
             end) table.

(** Every stored image has a path of the form [/....png] and a pending
    timeout that will delete it. *)
Definition images_expire (s : state) : Prop :=
  forall path image,
    captchaImages s !! path = Some image ->
    (exists hex, path = "/" +:+ hex +:+ ".png") /\
    In ((5 * 60 * 1000)%Z, path) (timeouts s).

(** The selector looks at the tag and the attributes only. *)
Definition shallow (s : Cheerio.selector) : Prop :=
  forall name a ch ch', s (Cheerio.Element name a ch) = s (Cheerio.Element name a ch').

(** The selector looks at the tag only. *)
Definition by_name (s : Cheerio.selector) : Prop :=
  forall name a a' ch ch', s (Cheerio.Element name a ch) = s (Cheerio.Element name a' ch').

(** The names and values of a form are text: no surrogate outside a
    pair, as in every string read from an HTML text. *)
Definition well_formed_fields (p : URLSearchParams.t) : Prop :=
  Forall (fun kv => Js.isWellFormed (fst kv) = true /\ Js.isWellFormed (snd kv) = true) p.

(* ===================================================================== *)
(** * Code units, strings and UTF-8                                       *)
(* ===================================================================== *)

Module UnitFacts.

Lemma N_of_ascii_lt a : (N_of_ascii a < 256)%N.
Proof. apply N_ascii_bounded. Qed.

Lemma code_lt c : (Unit.code c < 65536)%N.
Proof.
  unfold Unit.code. pose proof (N_of_ascii_lt (high c)). pose proof (N_of_ascii_lt (low c)). lia.
Qed.

Lemma of_N_code c : Unit.of_N (Unit.code c) = c.
Proof.
  destruct c as [h l]. unfold Unit.of_N, Unit.code. cbn [high low].
  pose proof (N_of_ascii_lt h) as Hh. pose proof (N_of_ascii_lt l) as Hl.
  assert (Hd : ((256 * N_of_ascii h + N_of_ascii l) / 256 = N_of_ascii h)%N).
  { symmetry. apply (N.div_unique _ 256 _ (N_of_ascii l)); lia. }
  assert (Hm : ((256 * N_of_ascii h + N_of_ascii l) mod 256 = N_of_ascii l)%N).
  { symmetry. apply (N.mod_unique _ 256 (N_of_ascii h) _); lia. }
  rewrite Hd, Hm, !ascii_N_embedding. reflexivity.
Qed.

Lemma code_of_N n : (n < 65536)%N -> Unit.code (Unit.of_N n) = n.
Proof.
  intros H. unfold Unit.of_N, Unit.code. cbn [high low].
  rewrite !N_ascii_embedding.
  - pose proof (N.div_mod n 256). lia.
  - apply N.mod_lt. discriminate.
  - apply N.Div0.div_lt_upper_bound. lia.
Qed.

Lemma code_byte n : (n < 256)%N -> Unit.code (Utf8.byte n) = n.
Proof.
  intros H. unfold Utf8.byte, Unit.code. cbn [high low].
  rewrite N_ascii_embedding by exact H. reflexivity.
Qed.

Lemma unit_eqb_refl u : Unit.eqb u u = true.
Proof. unfold Unit.eqb. rewrite !Ascii.eqb_refl. reflexivity. Qed.

Lemma unit_eqb_eq u v : Unit.eqb u v = true <-> u = v.
Proof.
  destruct u as [h l], v as [h' l']. unfold Unit.eqb. cbn [high low].
  rewrite andb_true_iff, !Ascii.eqb_eq. split; [intros [-> ->]; reflexivity|].
  intros H. injection H. auto.
Qed.

Lemma unit_eqb_sym u v : Unit.eqb u v = Unit.eqb v u.
Proof. unfold Unit.eqb. rewrite (Ascii.eqb_sym (high u)), (Ascii.eqb_sym (low u)). reflexivity. Qed.

Lemma unit_eqb_neq u v : Unit.eqb u v = false <-> u <> v.
Proof.
  split.
  - intros H E. apply unit_eqb_eq in E. congruence.
  - intros H. destruct (Unit.eqb u v) eqn:E; [|reflexivity]. apply unit_eqb_eq in E. contradiction.
Qed.

(** A unit below 256 has a zero high byte. *)
Lemma byte_shape c : (Unit.code c < 256)%N -> c = U16 zero (low c).
Proof.
  intros H. destruct c as [h l]. unfold Unit.code in H. cbn [high low] in *.
  assert (Hh : N_of_ascii h = 0%N) by (pose proof (N_of_ascii_lt l); lia).
  rewrite <- (ascii_N_embedding h), Hh. reflexivity.
Qed.

End UnitFacts.

Module StringFacts.


Lemma string_eqb_eq a b : JsString.eqb a b = true <-> a = b.
Proof.
  revert b. induction a as [|c a IH]; intros [|d b]; cbn; try (split; congruence).
  rewrite andb_true_iff, UnitFacts.unit_eqb_eq, IH. split; [intros [-> ->]; reflexivity|].
  intros H. injection H. auto.
Qed.


Lemma string_eqb_neq a b : JsString.eqb a b = false <-> a <> b.
Proof.
  split.
  - intros H E. apply string_eqb_eq in E. congruence.
  - intros H. destruct (JsString.eqb a b) eqn:E; [|reflexivity]. apply string_eqb_eq in E. contradiction.
Qed.

Lemma append_assoc (a b c : string) : (a +:+ b) +:+ c = a +:+ b +:+ c.
Proof. induction a as [|x a IH]; cbn; [reflexivity|]. rewrite IH. reflexivity. Qed.

Lemma append_nil_r (a : string) : a +:+ "" = a.
Proof. induction a as [|x a IH]; cbn; [reflexivity|]. rewrite IH. reflexivity. Qed.

End StringFacts.


Module Utf8Facts.

Import Utf8 UnitFacts.


Ltac test_true t := replace t with true by (symmetry; first [apply N.ltb_lt|apply N.leb_le|apply N.eqb_eq]; lia).
Ltac test_false t := replace t with false by (symmetry; first [apply N.ltb_ge|apply N.leb_gt|apply N.eqb_neq]; lia).
Ltac div_lia := zify; Z.to_euclidean_division_equations; lia.

Ltac tests :=
  repeat match goal with
         | |- context [(?a <? ?b)%N] => first [test_true (a <? b)%N | test_false (a <? b)%N]
         | |- context [(?a <=? ?b)%N] => first [test_true (a <=? b)%N | test_false (a <=? b)%N]
         | |- context [(?a =? ?b)%N] => first [test_true (a =? b)%N | test_false (a =? b)%N]
         end;
  cbn [andb orb negb].

Lemma byte_code c : (Unit.code c < 256)%N -> byte (Unit.code c) = c.
Proof.
  intros H. rewrite <- (of_N_code c) at 2. unfold byte, Unit.of_N.
  rewrite (N.div_small _ _ H), (N.mod_small _ _ H). reflexivity.
Qed.

Lemma decode_one c X :
  (Unit.code c < 0x80)%N ->
  decode (bytes_of (Unit.code c) +:+ X) = String c (decode X).
Proof.
  intros H. unfold bytes_of. tests. cbn [JsString.append decode].
  rewrite byte_code by lia. tests. reflexivity.
Qed.

Lemma decode_seq2 a b X :
  (2 <= a < 32)%N -> (b < 64)%N ->
  decode (String (byte (0xC0 + a)) (String (byte (0x80 + b)) X))
  = units_of (a * 0x40 + b) +:+ decode X.
Proof.
  intros Ha Hb. cbn [decode]. rewrite !code_byte by lia. tests. unfold lead. tests.
  unfold continuation. rewrite !code_byte by lia. tests.
  replace (0xC0 + a - 0xC0)%N with a by lia. replace (0x80 + b - 0x80)%N with b by lia.
  reflexivity.
Qed.

Lemma decode_seq3 a b c X :
  (a < 16)%N -> (b < 64)%N -> (c < 64)%N ->
  (a = 0 -> 32 <= b)%N -> (a = 13 -> b < 32)%N ->
  decode (String (byte (0xE0 + a)) (String (byte (0x80 + b)) (String (byte (0x80 + c)) X)))
  = units_of ((a * 0x40 + b) * 0x40 + c) +:+ decode X.
Proof.
  intros Ha Hb Hc H0 HD. cbn [decode]. rewrite !code_byte by lia. tests. unfold lead.
  replace (0x80 + b - 0x80)%N with b by lia. replace (0x80 + c - 0x80)%N with c by lia.
  destruct (N.eq_dec a 0%N) as [E0|E0]; [|destruct (N.eq_dec a 13%N) as [ED|ED]].
  - specialize (H0 E0). subst a. tests. unfold continuation. rewrite !code_byte by lia. tests.
    replace (0x80 + b - 0x80)%N with b by lia. replace (0x80 + c - 0x80)%N with c by lia.
    reflexivity.
  - specialize (HD ED). subst a. tests. unfold continuation. rewrite !code_byte by lia. tests.
    replace (0x80 + b - 0x80)%N with b by lia. replace (0x80 + c - 0x80)%N with c by lia.
    reflexivity.
  - tests. unfold continuation. rewrite !code_byte by lia. tests.
    replace (0x80 + b - 0x80)%N with b by lia. replace (0x80 + c - 0x80)%N with c by lia.
    replace (0xE0 + a - 0xE0)%N with a by lia. reflexivity.
Qed.

Lemma decode_seq4 a b c d X :
  (a < 5)%N -> (b < 64)%N -> (c < 64)%N -> (d < 64)%N ->
  (a = 0 -> 16 <= b)%N -> (a = 4 -> b < 16)%N ->
  decode (String (byte (0xF0 + a))
            (String (byte (0x80 + b)) (String (byte (0x80 + c)) (String (byte (0x80 + d)) X))))
  = units_of (((a * 0x40 + b) * 0x40 + c) * 0x40 + d) +:+ decode X.
Proof.
  intros Ha Hb Hc Hd H0 H4. cbn [decode]. rewrite !code_byte by lia. tests. unfold lead.
  destruct (N.eq_dec a 0%N) as [E0|E0]; [|destruct (N.eq_dec a 4%N) as [E4|E4]].
  - specialize (H0 E0). subst a. tests. unfold continuation. rewrite !code_byte by lia. tests.
    replace (0x80 + b - 0x80)%N with b by lia. replace (0x80 + c - 0x80)%N with c by lia.
    replace (0x80 + d - 0x80)%N with d by lia. reflexivity.
  - specialize (H4 E4). subst a. tests. unfold continuation. rewrite !code_byte by lia. tests.
    replace (0x80 + b - 0x80)%N with b by lia. replace (0x80 + c - 0x80)%N with c by lia.
    replace (0x80 + d - 0x80)%N with d by lia. reflexivity.
  - tests. unfold continuation. rewrite !code_byte by lia. tests.
    replace (0x80 + b - 0x80)%N with b by lia. replace (0x80 + c - 0x80)%N with c by lia.
    replace (0x80 + d - 0x80)%N with d by lia.
    replace (0xF0 + a - 0xF0)%N with a by lia. reflexivity.
Qed.

Lemma units_of_unit n : (n < 0x10000)%N -> units_of n = String (Unit.of_N n) EmptyString.
Proof. intros H. unfold units_of. tests. reflexivity. Qed.

Lemma decode_two n X :
  (0x80 <= n < 0x800)%N ->
  decode (bytes_of n +:+ X) = String (Unit.of_N n) (decode X).
Proof.
  intros H. unfold bytes_of. tests. cbn [JsString.append].
  rewrite decode_seq2 by div_lia.
  replace (n / 0x40 * 0x40 + n mod 0x40)%N with n by div_lia.
  rewrite units_of_unit by lia. reflexivity.
Qed.

Lemma decode_three n X :
  (0x800 <= n < 0x10000)%N -> is_high n = false -> is_low n = false ->
  decode (bytes_of n +:+ X) = String (Unit.of_N n) (decode X).
Proof.
  intros H Hh Hl. unfold is_high, is_low in *.
  assert (Hn : (n < 0xD800 \/ 0xDFFF < n)%N).
  { apply andb_false_iff in Hh, Hl. rewrite !N.leb_gt in Hh, Hl. lia. }
  clear Hh Hl.
  unfold bytes_of. tests. cbn [JsString.append].
  rewrite decode_seq3 by div_lia.
  replace ((n / 0x1000 * 0x40 + (n / 0x40) mod 0x40) * 0x40 + n mod 0x40)%N with n by div_lia.
  rewrite units_of_unit by lia. reflexivity.
Qed.

Lemma decode_four hi lo X :
  is_high hi = true -> is_low lo = true ->
  decode (bytes_of (pair hi lo) +:+ X)
  = String (Unit.of_N hi) (String (Unit.of_N lo) (decode X)).
Proof.
  intros Hh Hl. unfold is_high, is_low in *.
  apply andb_true_iff in Hh, Hl. rewrite !N.leb_le in Hh, Hl.
  assert (Hp : exists cp, pair hi lo = cp /\ (0x10000 <= cp < 0x110000)%N /\
                 ((cp - 0x10000) / 0x400 = hi - 0xD800)%N /\
                 ((cp - 0x10000) mod 0x400 = lo - 0xDC00)%N).
  { exists (pair hi lo). unfold pair. repeat split; try lia.
    - replace (65536 + (hi - 55296) * 1024 + (lo - 56320) - 65536)%N
        with ((lo - 56320) + (hi - 55296) * 1024)%N by lia.
      rewrite N.div_add by discriminate. rewrite N.div_small by lia. lia.
    - replace (65536 + (hi - 55296) * 1024 + (lo - 56320) - 65536)%N
        with ((lo - 56320) + (hi - 55296) * 1024)%N by lia.
      rewrite N.Div0.mod_add. apply N.mod_small. lia. }
  destruct Hp as (cp & -> & Hcp & Hq & Hr).
  unfold bytes_of. tests. cbn [JsString.append].
  rewrite decode_seq4 by div_lia.
  replace (((cp / 0x40000 * 0x40 + (cp / 0x1000) mod 0x40) * 0x40 + (cp / 0x40) mod 0x40) * 0x40
           + cp mod 0x40)%N with cp by div_lia.
  unfold units_of. tests. rewrite Hq, Hr. cbn [JsString.append].
  replace (0xD800 + (hi - 0xD800))%N with hi by lia.
  replace (0xDC00 + (lo - 0xDC00))%N with lo by lia. reflexivity.
Qed.

Lemma decode_scalar c X :
  is_high (Unit.code c) = false -> is_low (Unit.code c) = false ->
  decode (bytes_of (Unit.code c) +:+ X) = String c (decode X).
Proof.
  intros Hh Hl. pose proof (code_lt c) as Hc.
  destruct (N.lt_ge_cases (Unit.code c) 0x80) as [H1|H1]; [apply decode_one, H1|].
  rewrite <- (of_N_code c) at 2.
  destruct (N.lt_ge_cases (Unit.code c) 0x800) as [H2|H2]; [apply decode_two; lia|].
  apply decode_three; [lia|exact Hh|exact Hl].
Qed.

Lemma decode_replacement X :
  decode (bytes_of 0xFFFD +:+ X) = String replacement (decode X).
Proof. apply (decode_three 0xFFFD X); [lia|reflexivity|reflexivity]. Qed.

(** Decoding the UTF-8 bytes of a string gives the string back, up to
    the surrogates outside a pair. *)
Lemma utf8_decode_encode s : decode (encode s) = Js.toWellFormed s.
Proof.
  enough (H : decode (encode s) = Js.toWellFormed s /\
              forall c, decode (encode (String c s)) = Js.toWellFormed (String c s))
    by exact (proj1 H).
  induction s as [|d s [IH1 IH2]].
  - split; [reflexivity|]. intros c. cbn [encode Js.toWellFormed].
    destruct (is_high (Unit.code c)) eqn:Hh.
    + rewrite <- (StringFacts.append_nil_r (bytes_of 0xFFFD)). apply decode_replacement.
    + destruct (is_low (Unit.code c)) eqn:Hl.
      * apply decode_replacement.
      * apply (decode_scalar c EmptyString Hh Hl).
  - split; [apply IH2|]. intros c.
    change (encode (String c (String d s)))
      with (if is_high (Unit.code c)
            then if is_low (Unit.code d)
                 then bytes_of (pair (Unit.code c) (Unit.code d)) +:+ encode s
                 else bytes_of 0xFFFD +:+ encode (String d s)
            else if is_low (Unit.code c) then bytes_of 0xFFFD +:+ encode (String d s)
                 else bytes_of (Unit.code c) +:+ encode (String d s)).
    change (Js.toWellFormed (String c (String d s)))
      with (if is_high (Unit.code c)
            then if is_low (Unit.code d)
                 then String c (String d (Js.toWellFormed s))
                 else String replacement (Js.toWellFormed (String d s))
            else if is_low (Unit.code c) then String replacement (Js.toWellFormed (String d s))
                 else String c (Js.toWellFormed (String d s))).
    destruct (is_high (Unit.code c)) eqn:Hh.
    + destruct (is_low (Unit.code d)) eqn:Hl.
      * rewrite (decode_four _ _ _ Hh Hl), !of_N_code, IH1. reflexivity.
      * rewrite decode_replacement, IH2. reflexivity.
    + destruct (is_low (Unit.code c)) eqn:Hl.
      * rewrite decode_replacement, IH2. reflexivity.
      * rewrite (decode_scalar c _ Hh Hl), IH2. reflexivity.
Qed.

(** A well-formed string is its own well-formed version. *)
Lemma toWellFormed_id s : Js.isWellFormed s = true -> Js.toWellFormed s = s.
Proof.
  enough (H : (Js.isWellFormed s = true -> Js.toWellFormed s = s) /\
              forall c, Js.isWellFormed (String c s) = true ->
                        Js.toWellFormed (String c s) = String c s)
    by exact (proj1 H).
  induction s as [|d s [IH1 IH2]].
  - split; [reflexivity|]. intros c. cbn [Js.isWellFormed Js.toWellFormed].
    destruct (is_high (Unit.code c)); [discriminate|].
    destruct (is_low (Unit.code c)); [discriminate|reflexivity].
  - split; [apply IH2|]. intros c.
    change (Js.isWellFormed (String c (String d s)))
      with (if is_high (Unit.code c)
            then is_low (Unit.code d) && Js.isWellFormed s
            else negb (is_low (Unit.code c)) && Js.isWellFormed (String d s)).
    change (Js.toWellFormed (String c (String d s)))
      with (if is_high (Unit.code c)
            then if is_low (Unit.code d)
                 then String c (String d (Js.toWellFormed s))
                 else String replacement (Js.toWellFormed (String d s))
            else if is_low (Unit.code c) then String replacement (Js.toWellFormed (String d s))
                 else String c (Js.toWellFormed (String d s))).
    destruct (is_high (Unit.code c)).
    + destruct (is_low (Unit.code d)); [|discriminate].
      cbn [andb]. intros H. rewrite (IH1 H). reflexivity.
    + destruct (is_low (Unit.code c)); [discriminate|].
      cbn [negb andb]. intros H. rewrite (IH2 d H). reflexivity.
Qed.

Lemma all_below_append bound (a b : string) :
  all_below bound (a +:+ b) = all_below bound a && all_below bound b.
Proof.
  induction a as [|x a IH]; cbn; [reflexivity|]. rewrite IH, andb_assoc. reflexivity.
Qed.

Lemma all_below_weaken s : all_below 0x80 s = true -> all_below 0x100 s = true.
Proof.
  induction s as [|c s IH]; [reflexivity|]. cbn [all_below].
  rewrite !andb_true_iff, !N.ltb_lt. intros [H1 H2]. split; [lia|exact (IH H2)].
Qed.

(** The bytes of a code point are bytes. *)
Lemma bytes_of_bytes cp : (cp < 0x200000)%N -> all_below 0x100 (bytes_of cp) = true.
Proof.
  intros H. unfold bytes_of.
  destruct (cp <? 0x80)%N eqn:H1; [|destruct (cp <? 0x800)%N eqn:H2;
                                    [|destruct (cp <? 0x10000)%N eqn:H3]];
    rewrite ?N.ltb_lt, ?N.ltb_ge in *;
    cbn [all_below]; rewrite !code_byte by div_lia;
    rewrite ?andb_true_iff, ?N.ltb_lt; repeat split; div_lia.
Qed.

Lemma encode_is_bytes s : all_below 0x100 (encode s) = true.
Proof.
  enough (H : all_below 0x100 (encode s) = true /\
              forall c, all_below 0x100 (encode (String c s)) = true)
    by exact (proj1 H).
  assert (Hrep : all_below 0x100 (bytes_of 0xFFFD) = true) by reflexivity.
  induction s as [|d s [IH1 IH2]].
  - split; [reflexivity|]. intros c. cbn [encode]. pose proof (code_lt c).
    destruct (is_high (Unit.code c)); [exact Hrep|].
    destruct (is_low (Unit.code c)); [exact Hrep|].
    rewrite all_below_append, bytes_of_bytes by lia. reflexivity.
  - split; [apply IH2|]. intros c.
    change (encode (String c (String d s)))
      with (if is_high (Unit.code c)
            then if is_low (Unit.code d)
                 then bytes_of (pair (Unit.code c) (Unit.code d)) +:+ encode s
                 else bytes_of 0xFFFD +:+ encode (String d s)
            else if is_low (Unit.code c) then bytes_of 0xFFFD +:+ encode (String d s)
                 else bytes_of (Unit.code c) +:+ encode (String d s)).
    pose proof (code_lt c). pose proof (code_lt d).
    destruct (is_high (Unit.code c)) eqn:Hh.
    + destruct (is_low (Unit.code d)) eqn:Hl.
      * rewrite all_below_append, IH1, bytes_of_bytes; [reflexivity|].
        unfold pair, is_high, is_low in *.
        apply andb_true_iff in Hh, Hl. rewrite !N.leb_le in Hh, Hl. lia.
      * rewrite all_below_append, Hrep, IH2. reflexivity.
    + destruct (is_low (Unit.code c)).
      * rewrite all_below_append, Hrep, IH2. reflexivity.
      * rewrite all_below_append, IH2, bytes_of_bytes by lia. reflexivity.
Qed.

(** An ASCII string is its own UTF-8 encoding. *)
Lemma encode_ascii s : all_below 0x80 s = true -> encode s = s.
Proof.
  induction s as [|c s IH]; [reflexivity|]. cbn [all_below].
  rewrite andb_true_iff, N.ltb_lt. intros [Hc Hs].
  assert (Hh : is_high (Unit.code c) = false) by (unfold is_high; tests; reflexivity).
  assert (Hl : is_low (Unit.code c) = false) by (unfold is_low; tests; reflexivity).
  destruct s as [|d s].
  - cbn [encode]. rewrite Hh, Hl. unfold bytes_of. tests. rewrite byte_code by lia. reflexivity.
  - change (encode (String c (String d s)))
      with (if is_high (Unit.code c)
            then if is_low (Unit.code d)
                 then bytes_of (pair (Unit.code c) (Unit.code d)) +:+ encode s
                 else bytes_of 0xFFFD +:+ encode (String d s)
            else if is_low (Unit.code c) then bytes_of 0xFFFD +:+ encode (String d s)
                 else bytes_of (Unit.code c) +:+ encode (String d s)).
    rewrite Hh, Hl, (IH Hs). unfold bytes_of. tests. rewrite byte_code by lia. reflexivity.
Qed.

End Utf8Facts.


(* ===================================================================== *)
(** * The parser, branch by branch                                        *)
(* ===================================================================== *)

Section Parser.

Variable W : world.
Variable html : Cheerio.document.
Variable s : state.

Lemma parse_challenge (imgs names : list string) :
  has html (Cheerio.by_id "challenge-form") = true ->
  each_image W html (tiles html) [] [] = Ok (imgs, names) ->
  parseSearchResults W html s =
    (Ok (Captcha "Search blocked by CAPTCHA challenge." (form_instructions html) imgs),
     with_captcha (MkCaptchaState (Some (form_instructions html)) (Some imgs)
                                  (Some (form_action html))
                                  (Some (form_submit_value html)) (Some names)) s,
     []).
Proof.
  intros Hform Himgs.
  unfold has in Hform. unfold tiles, challengeForm in Himgs.
  unfold parseSearchResults. rewrite Hform.
  unfold bind, lift. rewrite Himgs. reflexivity.
Qed.

Lemma parse_challenge_throws (e : string) :
  has html (Cheerio.by_id "challenge-form") = true ->
  each_image W html (tiles html) [] [] = Throw e ->
  parseSearchResults W html s = (Throw e, s, []).
Proof.
  intros Hform Himgs.
  unfold has in Hform. unfold tiles, challengeForm in Himgs.
  unfold parseSearchResults. rewrite Hform.
  unfold bind, lift. rewrite Himgs. reflexivity.
Qed.

Lemma parse_failed :
  has html (Cheerio.by_id "challenge-form") = false ->
  has html (Cheerio.by_id "error-form") = true ->
  exists error next, parseSearchResults W html s = (Ok (CaptchaFailed error next), s, []).
Proof.
  unfold has. intros H1 H2. unfold parseSearchResults. rewrite H1, H2.
  eexists _, _. reflexivity.
Qed.

Lemma parse_success :
  has html (Cheerio.by_id "challenge-form") = false ->
  has html (Cheerio.by_id "error-form") = false ->
  has html (Cheerio.by_id "success-form") = true ->
  parseSearchResults W html s = (Ok CaptchaSuccess, s, []).
Proof.
  unfold has. intros H1 H2 H3. unfold parseSearchResults. rewrite H1, H2, H3.
  reflexivity.
Qed.

Lemma parse_unknown :
  has html (Cheerio.by_id "challenge-form") = false ->
  has html (Cheerio.by_id "error-form") = false ->
  has html (Cheerio.by_id "success-form") = false ->
  has html (Cheerio.by_class "results") = false ->
  parseSearchResults W html s = (Ok Unknown, s, []).
Proof.
  unfold has. intros H1 H2 H3 H4. unfold parseSearchResults. rewrite H1, H2, H3.
  apply Nat.ltb_ge in H4. assert (Hz : Cheerio.length (Cheerio.select html (Cheerio.by_class "results")) = 0) by lia.
  rewrite Hz. reflexivity.
Qed.

Lemma parse_results :
  has html (Cheerio.by_id "challenge-form") = false ->
  has html (Cheerio.by_id "error-form") = false ->
  has html (Cheerio.by_id "success-form") = false ->
  has html (Cheerio.by_class "results") = true ->
  parseSearchResults W html s =
    (Ok (Results (Cheerio.length (next_forms html)) (omap (result_of html) (result_items html))),
     if (Cheerio.length (next_forms html) =? 0)%nat then s
     else with_token (Some (URLSearchParams.toString (form_fields (next_inputs html)))) s,
     []).
Proof.
  unfold has. intros H1 H2 H3 H4. unfold parseSearchResults. rewrite H1, H2, H3.
  apply Nat.ltb_lt in H4.
  destruct (Cheerio.length (Cheerio.select html (Cheerio.by_class "results")) =? 0)%nat eqn:Hz.
  { apply Nat.eqb_eq in Hz. lia. }
  unfold result_items, next_inputs.
  destruct (Cheerio.length (next_forms html) =? 0)%nat; reflexivity.
Qed.

End Parser.

(* ===================================================================== *)
(** * The tile loop and the downloads                                     *)
(* ===================================================================== *)

Lemma each_image_ok W html elems : forall imgs names imgs' names',
  each_image W html elems imgs names = Ok (imgs', names') ->
  exists urls,
    imgs' = imgs ++ urls /\
    Forall2 (fun elem u => URL_href W (tile_src html elem) base_url = Ok u) elems urls /\
    names' = names ++ map (checkbox_name html) (List.filter (has_stem html) elems).
Proof.
  induction elems as [|elem rest IH]; intros imgs names imgs' names' H; simpl in H.
  - inversion H; subst. exists []. rewrite !app_nil_r. repeat split. constructor.
  - fold (tile_src html elem) in H.
    destruct (URL_href W (tile_src html elem) "https://duckduckgo.com") as [u|e] eqn:Hu;
      [|discriminate].
    apply IH in H. destruct H as (urls & -> & Hall & ->).
    exists (u :: urls). rewrite <- app_assoc. split; [reflexivity|].
    split; [constructor; assumption|].
    cbn [List.filter]. unfold has_stem at 2.
    destruct (Js.truthy (filename_of (tile_src html elem)));
      [rewrite <- app_assoc|]; reflexivity.
Qed.

Lemma each_image_throws W html elems : forall imgs names e,
  each_image W html elems imgs names = Throw e ->
  Exists (fun elem => URL_href W (tile_src html elem) base_url = Throw e) elems.
Proof.
  induction elems as [|elem rest IH]; intros imgs names e H; simpl in H.
  - discriminate.
  - fold (tile_src html elem) in H.
    destruct (URL_href W (tile_src html elem) "https://duckduckgo.com") as [u|e'] eqn:Hu.
    + apply Exists_cons_tl. eapply IH, H.
    + inversion H; subst. apply Exists_cons_hd. exact Hu.
Qed.

Lemma each_image_total W html elems : forall imgs names,
  Forall (fun elem => exists u, URL_href W (tile_src html elem) base_url = Ok u) elems ->
  exists imgs' names', each_image W html elems imgs names = Ok (imgs', names').
Proof.
  induction elems as [|elem rest IH]; intros imgs names H; simpl.
  - eauto.
  - inversion H as [|? ? [u Hu] Hrest]; subst.
    fold (tile_src html elem). unfold base_url in Hu. rewrite Hu. apply IH, Hrest.
Qed.

Lemma filter_length_le {A} (f : A -> bool) (l : list A) :
  List.length (List.filter f l) <= List.length l.
Proof. induction l as [|a l IH]; simpl; [lia|]. destruct (f a); simpl; lia. Qed.

Lemma filter_all {A} (f : A -> bool) (l : list A) :
  Forall (fun a => f a = true) l -> List.filter f l = l.
Proof.
  induction 1 as [|a l Ha _ IH]; simpl; [reflexivity|]. rewrite Ha, IH. reflexivity.
Qed.

Lemma download_run W imageUrl s :
  download W imageUrl s =
    (Ok (fetched W imageUrl), s,
     if Js.truthy imageUrl then [Event (tile_request imageUrl) s] else []).
Proof.
  unfold download, fetched, tile_request.
  destruct (Js.truthy imageUrl); simpl; [|reflexivity].
  unfold try_catch, bind, fetch, lift, ret.
  destruct (fetch_response W _) as [r|e]; simpl; [|reflexivity].
  destruct (ok r); simpl; [|reflexivity].
  destruct (arrayBuffer r); reflexivity.
Qed.

Lemma mapM_download_run W images s :
  mapM (download W) images s = (Ok (map (fetched W) images), s, tile_events images s).
Proof.
  induction images as [|u images IH]; [reflexivity|].
  cbn [mapM]. unfold bind at 1. rewrite download_run.
  unfold bind at 1. rewrite IH. unfold ret, tile_events. cbn [List.filter map].
  destruct (Js.truthy u); simpl; rewrite ?app_nil_r; reflexivity.
Qed.

Lemma omap_id_map {A B} (f : A -> option B) (l : list A) :
  omap id (map f l) = omap f l.
Proof.
  induction l as [|a l IH]; [reflexivity|].
  cbn [map omap list_omap]. rewrite IH. destruct (f a); reflexivity.
Qed.

Lemma download_all_run W images s :
  download_all W images s = (Ok (omap (fetched W) images), s, tile_events images s).
Proof.
  unfold download_all, bind. rewrite mapM_download_run. unfold ret.
  rewrite omap_id_map, app_nil_r. reflexivity.
Qed.

(* ===================================================================== *)
(** * The compositor and the renderer                                     *)
(* ===================================================================== *)

Lemma draw_tiles_size W buffers cells : forall c c',
  draw_tiles W buffers cells c = Ok c' ->
  canvas_width c' = canvas_width c /\ canvas_height c' = canvas_height c.
Proof.
  induction cells as [|[row col] rest IH]; intros c c' H; simpl in H.
  - inversion H; subst; split; reflexivity.
  - destruct (decodeJPEGFromStream W _) as [img|e]; [|discriminate].
    apply IH in H. exact H.
Qed.

Lemma compose_size W buffers c :
  compose W buffers = Ok c ->
  canvas_width c = (3 * tileSize)%Z /\ canvas_height c = (3 * tileSize)%Z.
Proof.
  unfold compose. intros H.
  destruct (draw_tiles W buffers grid _) as [c1|e] eqn:Htiles; [|discriminate].
  destruct (overlay_asset W) as [o|e]; [|discriminate].
  inversion H; subst. apply draw_tiles_size in Htiles. simpl in *. lia.
Qed.

Lemma draw_tiles_total W buffers cells : forall c,
  Forall (fun cell => exists img,
            decodeJPEGFromStream W (buffer_at buffers (fst cell * 3 + snd cell)%Z) = Ok img)
         cells ->
  exists c', draw_tiles W buffers cells c = Ok c'.
Proof.
  induction cells as [|[row col] rest IH]; intros c H; simpl.
  - eauto.
  - inversion H as [|? ? [img Himg] Hrest]; subst. simpl in Himg. rewrite Himg.
    apply IH, Hrest.
Qed.

Lemma draw_tiles_throws W buffers cells : forall c e,
  draw_tiles W buffers cells c = Throw e ->
  Exists (fun cell =>
            decodeJPEGFromStream W (buffer_at buffers (fst cell * 3 + snd cell)%Z) = Throw e)
         cells.
Proof.
  induction cells as [|[row col] rest IH]; intros c e H; simpl in H.
  - discriminate.
  - destruct (decodeJPEGFromStream W _) as [img|e'] eqn:Himg.
    + apply Exists_cons_tl. eapply IH, H.
    + inversion H; subst. apply Exists_cons_hd. exact Himg.
Qed.

Lemma grid_buffers W (buffers : list buffer) :
  List.length buffers = 9 ->
  Forall (fun b => exists img, decodeJPEGFromStream W b = Ok img) buffers ->
  Forall (fun cell => exists img,
            decodeJPEGFromStream W (buffer_at buffers (fst cell * 3 + snd cell)%Z) = Ok img)
         grid.
Proof.
  intros Hlen Hall.
  do 9 (destruct buffers as [|? buffers]; [discriminate|]).
  destruct buffers; [|discriminate].
  repeat match goal with H : Forall _ (_ :: _) |- _ => inversion H; clear H; subst end.
  repeat constructor; assumption.
Qed.

Lemma compose_total W (buffers : list buffer) overlayImage :
  List.length buffers = 9 ->
  Forall (fun b => exists img, decodeJPEGFromStream W b = Ok img) buffers ->
  overlay_asset W = Ok overlayImage ->
  exists c, compose W buffers = Ok c.
Proof.
  intros Hlen Hall Hov. unfold compose.
  destruct (draw_tiles_total W buffers grid
              (fillRect 0 0 (tileSize * 3) (tileSize * 3)
                 (set_fillStyle "white" (make (tileSize * 3) (tileSize * 3))))
              (grid_buffers W buffers Hlen Hall)) as [c1 Hc1].
  rewrite Hc1, Hov. eauto.
Qed.

(** The compositing loop stops at the first tile that does not decode,
    with the error of the decoder. *)
Lemma compose_throws W (buffers pre post : list buffer) (b : buffer) e :
  buffers = pre ++ b :: post ->
  List.length buffers = 9 ->
  Forall (fun b => exists img, decodeJPEGFromStream W b = Ok img) pre ->
  decodeJPEGFromStream W b = Throw e ->
  compose W buffers = Throw e.
Proof.
  intros -> Hlen Hpre Hb. unfold compose, grid. cbn [flat_map map app].
  do 9 (destruct pre as [|? pre];
        [cbn [app] in *;
         repeat match goal with
                | H : Forall _ (_ :: _) |- _ =>
                    let img := fresh "img" in
                    let Himg := fresh "Himg" in
                    inversion H as [|? ? [img Himg] ?]; clear H; subst
                end;
         cbn [draw_tiles];
         repeat match goal with
                | |- context [buffer_at ?l ?i] =>
                    let v := eval cbv in (buffer_at l i) in change (buffer_at l i) with v
                end;
         repeat match goal with
                | H : decodeJPEGFromStream W ?x = Ok _ |- context [decodeJPEGFromStream W ?x] =>
                    rewrite H
                end;
         rewrite Hb; reflexivity
        |]).
  exfalso. rewrite length_app in Hlen. cbn [List.length] in Hlen. lia.
Qed.

Lemma dataToResult_captcha W error challenge images query s :
  dataToResult W (Captcha error challenge images) query s =
    if (List.length (omap (fetched W) images) =? 9)%nat
    then compositor_path W challenge (omap (fetched W) images) (tile_events images s) s
    else unavailable (tile_events images s) s.
Proof.
  unfold dataToResult, compositor_path, unavailable.
  unfold bind at 1. rewrite download_all_run.
  destruct (List.length (omap (fetched W) images) =? 9)%nat.
  - unfold bind, lift. destruct (compose W _) as [c|e]; [|rewrite app_nil_r; reflexivity].
    destruct (encodePNGToStream W c) as [png|e]; simpl; rewrite !app_nil_r; reflexivity.
  - unfold ret. rewrite app_nil_r. reflexivity.
Qed.

(** Rendering touches neither the search session nor the challenge
    descriptor. *)
Lemma dataToResult_frame W data query s :
  searchState (final (dataToResult W data query s)) = searchState s /\
  captchaState (final (dataToResult W data query s)) = captchaState s.
Proof.
  destruct data as [error challenge images| | | |]; try (split; reflexivity).
  rewrite dataToResult_captcha. unfold compositor_path, unavailable.
  destruct (_ =? 9)%nat; [|split; reflexivity].
  destruct (compose W _); [|split; reflexivity].
  destruct (encodePNGToStream W _); split; reflexivity.
Qed.

(* ===================================================================== *)
(** * Classification by the parser                                        *)
(* ===================================================================== *)

(** Going through the markers in their priority order. *)
Ltac by_markers html :=
  unfold classify;
  destruct (has html (Cheerio.by_id "challenge-form"));
  destruct (has html (Cheerio.by_id "error-form"));
  destruct (has html (Cheerio.by_id "success-form"));
  destruct (has html (Cheerio.by_class "results")).

Lemma classify_challenge html :
  classify html = Challenge <-> has html (Cheerio.by_id "challenge-form") = true.
Proof. by_markers html; split; congruence. Qed.

Lemma classify_results html :
  classify html = ResultsPage ->
  has html (Cheerio.by_id "challenge-form") = false /\
  has html (Cheerio.by_id "error-form") = false /\
  has html (Cheerio.by_id "success-form") = false /\
  has html (Cheerio.by_class "results") = true.
Proof. by_markers html; intros H; repeat split; congruence. Qed.

(** The parser issues no request and writes at most one of the two
    pieces of state: nothing, a descriptor on a challenge document, or a
    token on a results document. *)
Lemma parse_effect W html s :
  requests (parseSearchResults W html s) = [] /\
  (final (parseSearchResults W html s) = s \/
   (classify html = Challenge /\
    exists c, final (parseSearchResults W html s) = with_captcha c s) \/
   (classify html = ResultsPage /\
    final (parseSearchResults W html s) = with_token (Some (token_of html)) s)).
Proof.
  unfold classify.
  destruct (has html (Cheerio.by_id "challenge-form")) eqn:H1.
  { destruct (each_image W html (tiles html) [] []) as [[imgs names]|e] eqn:Himgs.
    - rewrite (parse_challenge W html s imgs names H1 Himgs). split; [reflexivity|].
      right; left. split; [reflexivity|]. eexists. reflexivity.
    - rewrite (parse_challenge_throws W html s e H1 Himgs). split; [reflexivity|].
      left; reflexivity. }
  destruct (has html (Cheerio.by_id "error-form")) eqn:H2.
  { destruct (parse_failed W html s H1 H2) as (error & next & ->).
    split; [reflexivity|left; reflexivity]. }
  destruct (has html (Cheerio.by_id "success-form")) eqn:H3.
  { rewrite (parse_success W html s H1 H2 H3). split; [reflexivity|left; reflexivity]. }
  destruct (has html (Cheerio.by_class "results")) eqn:H4.
  - rewrite (parse_results W html s H1 H2 H3 H4). split; [reflexivity|].
    unfold final; cbn [fst snd].
    destruct (Cheerio.length (next_forms html) =? 0)%nat; [left; reflexivity|].
    right; right. split; reflexivity.
  - rewrite (parse_unknown W html s H1 H2 H3 H4). split; [reflexivity|left; reflexivity].
Qed.

Lemma parse_outcome W html s :
  match outcome (parseSearchResults W html s) with
  | Ok data => class_of data = classify html
  | Throw e =>
      classify html = Challenge /\
      final (parseSearchResults W html s) = s /\
      Exists (fun elem => URL_href W (tile_src html elem) base_url = Throw e) (tiles html)
  end.
Proof.
  unfold classify.
  destruct (has html (Cheerio.by_id "challenge-form")) eqn:H1.
  { destruct (each_image W html (tiles html) [] []) as [[imgs names]|e] eqn:Himgs.
    - rewrite (parse_challenge W html s imgs names H1 Himgs). reflexivity.
    - rewrite (parse_challenge_throws W html s e H1 Himgs).
      repeat split. eapply each_image_throws, Himgs. }
  destruct (has html (Cheerio.by_id "error-form")) eqn:H2.
  { destruct (parse_failed W html s H1 H2) as (error & next & ->). reflexivity. }
  destruct (has html (Cheerio.by_id "success-form")) eqn:H3.
  { rewrite (parse_success W html s H1 H2 H3). reflexivity. }
  destruct (has html (Cheerio.by_class "results")) eqn:H4.
  - rewrite (parse_results W html s H1 H2 H3 H4). reflexivity.
  - rewrite (parse_unknown W html s H1 H2 H3 H4). reflexivity.
Qed.

(** The parser leaves the query, the page number, the stored images and
    the timeouts alone. *)
Lemma parse_frame W html s :
  currentQuery (searchState (final (parseSearchResults W html s))) = currentQuery (searchState s) /\
  currentPage (searchState (final (parseSearchResults W html s))) = currentPage (searchState s) /\
  captchaImages (final (parseSearchResults W html s)) = captchaImages s.
Proof.
  destruct (parse_effect W html s) as [_ [-> | [[_ [c ->]] | [_ ->]]]];
    repeat split; reflexivity.
Qed.

(* ===================================================================== *)
(** * The tail shared by the tools: parse, then render                    *)
(* ===================================================================== *)

(** Once the response text is there, a tool parses it and renders the
    result; the session and the descriptor end as the parser leaves
    them, and the first requests, if any, are those of the renderer. *)
Lemma parse_render W html (query : state -> string) s :
  searchState (final ((data <- parseSearchResults W html ;;
                       s' <- get ;; dataToResult W data (query s')) s))
  = searchState (final (parseSearchResults W html s)) /\
  captchaState (final ((data <- parseSearchResults W html ;;
                        s' <- get ;; dataToResult W data (query s')) s))
  = captchaState (final (parseSearchResults W html s)).
Proof.
  unfold bind, get.
  destruct (parseSearchResults W html s) as [[[data|e] s1] l1]; [|split; reflexivity].
  pose proof (dataToResult_frame W data (query s1) s1) as [Hs Hc].
  destruct (dataToResult W data (query s1) s1) as [[r2 s2] l2].
  split; assumption.
Qed.

Lemma parse_render_fixed W html query s :
  searchState (final ((data <- parseSearchResults W html ;; dataToResult W data query) s))
  = searchState (final (parseSearchResults W html s)) /\
  captchaState (final ((data <- parseSearchResults W html ;; dataToResult W data query) s))
  = captchaState (final (parseSearchResults W html s)).
Proof.
  unfold bind.
  destruct (parseSearchResults W html s) as [[[data|e] s1] l1]; [|split; reflexivity].
  pose proof (dataToResult_frame W data query s1) as [Hs Hc].
  destruct (dataToResult W data query s1) as [[r2 s2] l2].
  split; assumption.
Qed.

(** The final state of a caught computation whose handler only returns. *)
Lemma try_catch_final {A} (m : M A) (h : string -> A) s :
  final (try_catch m (fun e => ret (h e)) s) = final (m s).
Proof.
  unfold try_catch. destruct (m s) as [[[a|e] s1] l1]; reflexivity.
Qed.


(* ===================================================================== *)
(** * The tools, up to the response                                       *)
(* ===================================================================== *)

Lemma bind_get {A} (k : state -> M A) s : (s0 <- get ;; k s0) s = k s s.
Proof. unfold bind, get. destruct (k s s) as [[r s2] l2]. reflexivity. Qed.

Lemma bind_modify {A} (f : state -> state) (k : M A) s : (modify f ;; k) s = k (f s).
Proof. unfold bind, modify. destruct (k (f s)) as [[r s2] l2]. reflexivity. Qed.

Lemma bind_fetch {A} W req (k : response -> M A) s :
  (response <- fetch W req ;; k response) s =
    match fetch_response W req with
    | Ok response => let '(r, s2, l2) := k response s in (r, s2, Event req s :: l2)
    | Throw e => (Throw e, s, [Event req s])
    end.
Proof. unfold bind, fetch. destruct (fetch_response W req); reflexivity. Qed.

(** [search_next] stopped by its guard. *)
Lemma search_next_refuses W s :
  nextFormData (searchState s) = None \/
  nextFormData (searchState s) = Some "" \/
  (5 < currentPage (searchState s))%Z ->
  search_next W s = (Ok no_next_page, s, []).
Proof.
  intros H. unfold search_next. rewrite bind_get.
  destruct H as [H | [H | H]].
  - rewrite H. reflexivity.
  - rewrite H. reflexivity.
  - assert (Hp : (5 <? currentPage (searchState s))%Z = true) by lia.
    rewrite Hp, orb_true_r. reflexivity.
Qed.

(** [search_next] past its guard: the state is advanced, then the
    request is issued. *)
Lemma search_next_run W s token :
  nextFormData (searchState s) = Some token -> token <> "" ->
  (currentPage (searchState s) <= 5)%Z ->
  search_next W s =
    match fetch_response W (search_request W token) with
    | Throw e =>
        (Ok (error_result ("Error performing search: " +:+ e)), advanced s,
         [Event (search_request W token) (advanced s)])
    | Ok response =>
        if ok response then
          let '(r, s2, l2) := respond W response "Error performing search: " (advanced s) in
          (r, s2, Event (search_request W token) (advanced s) :: l2)
        else
          (Ok (http_error "Error fetching search results: " response), advanced s,
           [Event (search_request W token) (advanced s)])
    end.
Proof.
  intros Htok Hne Hpage. unfold search_next. rewrite bind_get. rewrite Htok.
  assert (Ht : Js.truthy_opt (Some token) = true) by (destruct token; [congruence|reflexivity]).
  rewrite Ht. assert (Hp : (5 <? currentPage (searchState s))%Z = false) by lia.
  rewrite Hp. cbn [negb orb].
  unfold try_catch at 1. unfold set_currentPage, set_nextFormData.
  rewrite !bind_modify. cbn [searchState currentQuery currentPage nextFormData
                             captchaState captchaImages timeouts].
  fold (advanced s). fold (search_request W token). rewrite bind_fetch.
  destruct (fetch_response W (search_request W token)) as [response|e]; [|reflexivity].
  destruct (ok response); cbn [negb]; [|reflexivity].
  unfold respond, try_catch.
  destruct ((html <- lift (text response) ;; _) (advanced s)) as [[[r|e] s2] l2]; [reflexivity|].
  simpl. rewrite app_nil_r. reflexivity.
Qed.

(** [search]: the session is reset, then the request is issued. *)
Lemma search_run W query region dateFrame s :
  search W query region dateFrame s =
    let req := search_request W (search_body query region dateFrame) in
    match fetch_response W req with
    | Throw e =>
        (Ok (error_result ("Error performing search: " +:+ e)), fresh query s,
         [Event req (fresh query s)])
    | Ok response =>
        if ok response then
          let '(r, s2, l2) := respond_to W response query (fresh query s) in
          (r, s2, Event req (fresh query s) :: l2)
        else
          (Ok (http_error "Error fetching search results: " response), fresh query s,
           [Event req (fresh query s)])
    end.
Proof.
  unfold search. unfold try_catch at 1. unfold set_searchState.
  rewrite bind_modify. fold (fresh query s).
  change (Some (URLSearchParams.toString _)) with (Some (search_body query region dateFrame)).
  fold (search_request W (search_body query region dateFrame)).
  rewrite bind_fetch. cbv zeta.
  destruct (fetch_response W (search_request W (search_body query region dateFrame)))
    as [response|e]; [|reflexivity].
  destruct (ok response); cbn [negb]; [|reflexivity].
  unfold respond_to, try_catch.
  destruct ((html <- lift (text response) ;; _) (fresh query s)) as [[[r|e] s2] l2];
    [reflexivity|].
  simpl. rewrite app_nil_r. reflexivity.
Qed.

Lemma solve_captcha_inactive W indices s :
  active (captchaState s) = None ->
  solve_captcha W indices s = (Ok no_active_challenge, s, []).
Proof.
  intros H. unfold solve_captcha, try_catch. rewrite bind_get. rewrite H. reflexivity.
Qed.

(** [solve_captcha] on an accepted challenge: the state is as it was when
    the request is issued. *)
Lemma solve_captcha_run W indices s act sv names :
  active (captchaState s) = Some (act, sv, names) ->
  solve_captcha W indices s =
    match URL_href W act base_url with
    | Throw e => (Ok (error_result ("Error solving CAPTCHA: " +:+ e)), s, [])
    | Ok actionUrl =>
        let req := solve_request W actionUrl sv names indices in
        match fetch_response W req with
        | Throw e => (Ok (error_result ("Error solving CAPTCHA: " +:+ e)), s, [Event req s])
        | Ok response =>
            if ok response then
              let '(r, s2, l2) := respond W response "Error solving CAPTCHA: " s in
              (r, s2, Event req s :: l2)
            else (Ok (http_error "Error solving CAPTCHA: " response), s, [Event req s])
        end
    end.
Proof.
  intros H. unfold solve_captcha. unfold try_catch at 1. rewrite bind_get. rewrite H.
  unfold base_url. unfold bind at 1, lift at 1.
  destruct (URL_href W act "https://duckduckgo.com") as [actionUrl|e]; [|reflexivity].
  change (Request "POST" actionUrl (form_headers W) _)
    with (solve_request W actionUrl sv names indices).
  rewrite bind_fetch. cbv zeta.
  destruct (fetch_response W (solve_request W actionUrl sv names indices))
    as [response|e]; [|reflexivity].
  destruct (ok response); cbn [negb]; [|reflexivity].
  unfold respond, try_catch.
  destruct ((html <- lift (text response) ;; _) s) as [[[r|e] s2] l2]; [reflexivity|].
  simpl. rewrite app_nil_r. reflexivity.
Qed.

Lemma parsed_effect_of_parse W response html s s2 :
  text response = Ok html ->
  searchState s2 = searchState (final (parseSearchResults W html s)) ->
  captchaState s2 = captchaState (final (parseSearchResults W html s)) ->
  parsed_effect response s s2.
Proof.
  intros Htext Hs Hc. unfold parsed_effect. rewrite Hs, Hc.
  destruct (parse_effect W html s) as [_ [-> | [[Hcl [c ->]] | [Hcl ->]]]]; cbn.
  - repeat split; left; reflexivity.
  - repeat split; [left; reflexivity|right; eauto].
  - repeat split; [right; eauto|left; reflexivity].
Qed.

Lemma parsed_effect_refl response s : parsed_effect response s s.
Proof. unfold parsed_effect. repeat split; left; reflexivity. Qed.

Lemma bind_lift_ok {A B} (a : A) (k : A -> M B) s : (x <- lift (Ok a) ;; k x) s = k a s.
Proof. unfold bind, lift. destruct (k a s) as [[r s2] l2]. reflexivity. Qed.

Lemma bind_lift_throw {A B} (e : string) (k : A -> M B) s :
  (x <- lift (Throw e) ;; k x) s = (Throw e, s, []).
Proof. reflexivity. Qed.

Lemma respond_effect W response failure s :
  parsed_effect response s (final (respond W response failure s)).
Proof.
  unfold respond. rewrite try_catch_final.
  destruct (text response) as [html|e] eqn:Htext.
  - rewrite bind_lift_ok.
    destruct (parse_render W html (fun s' => Js.or_empty (currentQuery (searchState s'))) s)
      as [Hs Hc].
    exact (parsed_effect_of_parse W response html s _ Htext Hs Hc).
  - rewrite bind_lift_throw. apply parsed_effect_refl.
Qed.

Lemma respond_to_effect W response query s :
  parsed_effect response s (final (respond_to W response query s)).
Proof.
  unfold respond_to. rewrite try_catch_final.
  destruct (text response) as [html|e] eqn:Htext.
  - rewrite bind_lift_ok.
    destruct (parse_render_fixed W html query s) as [Hs Hc].
    exact (parsed_effect_of_parse W response html s _ Htext Hs Hc).
  - rewrite bind_lift_throw. apply parsed_effect_refl.
Qed.

(* ===================================================================== *)
(** * Properties of the session tools                                     *)
(* ===================================================================== *)

(** C4. Whenever [search_next] is called with no pending token (the token
    is absent or the empty string) or with the page number beyond the cap
    of 5, it answers "No next page available." as an error, issues no
    request, and leaves the whole state as it was. *)
Theorem search_next_exhausted W s :
  nextFormData (searchState s) = None \/
  nextFormData (searchState s) = Some "" \/
  (5 < currentPage (searchState s))%Z ->
  search_next W s =
    (Ok (MkResult [TextItem "No next page available."] (Some true)), s, []).
Proof. intros H. exact (search_next_refuses W s H). Qed.

(** A session on page 6 that still holds a token. *)
Lemma search_next_exhausted_witness :
  (5 < currentPage (searchState
         (State (MkSearchState (Some "ducks") 6 (Some "q=ducks&s=50"))
                (captchaState initial_state) ∅ [])))%Z /\
  search_next (Sample.platform (fun _ => Ok (Sample.page Sample.two_results)))
              (State (MkSearchState (Some "ducks") 6 (Some "q=ducks&s=50"))
                     (captchaState initial_state) ∅ [])
  = (Ok (MkResult [TextItem "No next page available."] (Some true)),
     State (MkSearchState (Some "ducks") 6 (Some "q=ducks&s=50"))
           (captchaState initial_state) ∅ [],
     []).
Proof.
  split; [simpl; lia|].
  apply search_next_exhausted. right; right. simpl; lia.
Defined.

(** C5. On every [search_next] call that passes the guard (a non-empty
    token, page number at most 5), the first request carries the token as
    its body and is issued in a state where the token is already cleared
    and the page number already incremented by one; the page number ends
    exactly one higher; the token the session ends with is absent or the
    one parsed from the results page this request brought; and when the
    request fails, the session is left without a token, so that trying
    again answers "No next page available." without any request. *)
Theorem search_next_consumes_token W s token :
  nextFormData (searchState s) = Some token -> token <> "" ->
  (currentPage (searchState s) <= 5)%Z ->
  (exists e later,
     requests (search_next W s) = e :: later /\
     issued e = search_request W token /\
     nextFormData (searchState (during e)) = None /\
     currentPage (searchState (during e)) = (currentPage (searchState s) + 1)%Z) /\
  currentPage (searchState (final (search_next W s))) = (currentPage (searchState s) + 1)%Z /\
  (nextFormData (searchState (final (search_next W s))) = None \/
   exists response html,
     fetch_response W (search_request W token) = Ok response /\
     text response = Ok html /\ classify html = ResultsPage /\
     nextFormData (searchState (final (search_next W s))) = Some (token_of html)) /\
  (failed W (search_request W token) ->
     final (search_next W s) = advanced s /\
     forall W', search_next W' (final (search_next W s))
                = (Ok no_next_page, final (search_next W s), [])).
Proof.
  intros Htok Hne Hpage. rewrite (search_next_run W s token Htok Hne Hpage).
  unfold failed.
  destruct (fetch_response W (search_request W token)) as [response|e].
  - destruct (ok response) eqn:Hok.
    + pose proof (respond_effect W response "Error performing search: " (advanced s))
        as (_ & Hp & Ht & _).
      destruct (respond W response "Error performing search: " (advanced s)) as [[r s2] l2].
      unfold final in *; cbn [fst snd] in *.
      split; [eexists _, _; repeat split|]. split; [exact Hp|].
      split; [|discriminate].
      destruct Ht as [Ht | (html & Htext & Hcl & Ht)]; [left; exact Ht|].
      right. exists response, html. auto.
    + split; [eexists _, _; repeat split|]. split; [reflexivity|].
      split; [left; reflexivity|].
      intros _. split; [reflexivity|]. intros W'.
      unfold final; cbn [fst snd]. apply search_next_refuses. left; reflexivity.
  - split; [eexists _, _; repeat split|]. split; [reflexivity|].
    split; [left; reflexivity|].
    intros _. split; [reflexivity|]. intros W'.
    unfold final; cbn [fst snd]. apply search_next_refuses. left; reflexivity.
Qed.

(** The session of [Sample.busy] is on page 4 with a token; the transport
    refuses the request. *)
Lemma search_next_consumes_token_witness :
  nextFormData (searchState Sample.busy) = Some "q=ducks&s=30" /\
  (currentPage (searchState Sample.busy) <= 5)%Z /\
  failed (Sample.platform (fun _ => Ok Sample.refused))
         (search_request (Sample.platform (fun _ => Ok Sample.refused)) "q=ducks&s=30") /\
  searchState (final (search_next (Sample.platform (fun _ => Ok Sample.refused)) Sample.busy))
  = MkSearchState (Some "ducks") 5 None.
Proof.
  split; [reflexivity|]. split; [simpl; lia|]. split; [reflexivity|].
  destruct (search_next_consumes_token
              (Sample.platform (fun _ => Ok Sample.refused)) Sample.busy "q=ducks&s=30")
    as (_ & _ & _ & Hfail).
  - reflexivity.
  - discriminate.
  - simpl; lia.
  - destruct Hfail as [-> _]; reflexivity.
Defined.

(** C1 (as stated, refuted). From the session of [Sample.busy] (page 4,
    a token, an accepted challenge), a [search] whose request is refused
    leaves the challenge descriptor in place, and a following
    [solve_captcha] does not answer "No CAPTCHA challenge is currently
    active.": it posts the old descriptor's form. *)
Lemma search_keeps_challenge :
  captchaState (final (search (Sample.platform (fun _ => Ok Sample.refused))
                              "geese" None None Sample.busy))
  = captchaState Sample.busy /\
  outcome (solve_captcha (Sample.platform (fun _ => Ok Sample.refused)) [3 # 1]
             (final (search (Sample.platform (fun _ => Ok Sample.refused))
                            "geese" None None Sample.busy)))
  = Ok (MkResult [TextItem "Error solving CAPTCHA: 503 Service Unavailable"] (Some true)) /\
  map (fun e => (resource (issued e), body (issued e)))
      (requests (solve_captcha (Sample.platform (fun _ => Ok Sample.refused)) [3 # 1]
                   (final (search (Sample.platform (fun _ => Ok Sample.refused))
                                  "geese" None None Sample.busy))))
  = [("https://duckduckgo.com/anomaly-verify",
      Some "challenge-submit=go&image-check_c=1")].
Proof. vm_compute. repeat split. Qed.

(** C1 (amended). For every session state, [search] first resets the
    session to the fresh query on page 1 without a token and only then
    issues its request; in that state [search_next] answers "No next page
    available." without a request. The session ends on the fresh query
    and page 1, and its token is either absent or the one parsed from
    this search's own results page, never a prior one; while it is absent
    [search_next] fails in the same way. The reset does not touch the
    challenge descriptor: it ends as it was unless this search's response
    is itself a challenge page. *)
Theorem search_resets_session W query region dateFrame s :
  let r := search W query region dateFrame s in
  let req := search_request W (search_body query region dateFrame) in
  (exists later, requests r = Event req (fresh query s) :: later) /\
  (forall W', search_next W' (fresh query s) = (Ok no_next_page, fresh query s, [])) /\
  currentQuery (searchState (final r)) = Some query /\
  currentPage (searchState (final r)) = 1%Z /\
  (nextFormData (searchState (final r)) = None \/
   exists response html,
     fetch_response W req = Ok response /\ text response = Ok html /\
     classify html = ResultsPage /\
     nextFormData (searchState (final r)) = Some (token_of html)) /\
  (nextFormData (searchState (final r)) = None ->
   forall W', search_next W' (final r) = (Ok no_next_page, final r, [])) /\
  captchaState (fresh query s) = captchaState s /\
  (captchaState (final r) = captchaState s \/
   exists response html,
     fetch_response W req = Ok response /\ text response = Ok html /\
     classify html = Challenge).
Proof.
  cbv zeta. rewrite search_run. cbv zeta.
  assert (Hnext : forall s0, nextFormData (searchState s0) = None ->
            forall W', search_next W' s0 = (Ok no_next_page, s0, [])).
  { intros s0 H0 W'. unfold search_next. rewrite bind_get, H0. reflexivity. }
  destruct (fetch_response W (search_request W (search_body query region dateFrame)))
    as [response|e] eqn:Hresp.
  - destruct (ok response) eqn:Hok.
    + pose proof (respond_to_effect W response query (fresh query s))
        as (Hq & Hp & Ht & Hc).
      destruct (respond_to W response query (fresh query s)) as [[r s2] l2].
      unfold final in *; cbn [fst snd] in *.
      split; [eexists; reflexivity|]. split; [apply Hnext; reflexivity|].
      split; [exact Hq|]. split; [exact Hp|].
      split; [|split; [apply Hnext|split; [reflexivity|]]].
      * destruct Ht as [Ht | (html & Htext & Hcl & Ht)]; [left; exact Ht|].
        right. exists response, html. auto.
      * destruct Hc as [Hc | (html & Htext & Hcl)]; [left; exact Hc|].
        right. exists response, html. auto.
    + unfold final; cbn [fst snd].
      split; [eexists; reflexivity|]. split; [apply Hnext; reflexivity|].
      repeat split; left; reflexivity.
  - unfold final; cbn [fst snd].
    split; [eexists; reflexivity|]. split; [apply Hnext; reflexivity|].
    repeat split; left; reflexivity.
Qed.

(* ===================================================================== *)
(** * The challenge form                                                  *)
(* ===================================================================== *)

Lemma whole_inject z : whole (inject_Z z) = true.
Proof. unfold whole. rewrite Qfloor_Z. apply Qeq_bool_iff. reflexivity. Qed.

Lemma whole_eq q : whole q = true -> (q == inject_Z (Qfloor q))%Q.
Proof. unfold whole. intros H. apply Qeq_bool_iff in H. symmetry. exact H. Qed.

Lemma Qfloor_pred q : whole q = true -> Qfloor (q - 1) = (Qfloor q - 1)%Z.
Proof.
  intros H. apply whole_eq in H.
  assert (E : (q - 1 == inject_Z (Qfloor q - 1))%Q).
  { rewrite H at 1. unfold Z.sub. rewrite inject_Z_plus, inject_Z_opp. reflexivity. }
  rewrite E. apply Qfloor_Z.
Qed.

Lemma whole_pred q : whole (q - 1) = whole q.
Proof.
  destruct (whole q) eqn:Hq.
  - unfold whole. rewrite (Qfloor_pred q Hq). apply Qeq_bool_iff.
    apply whole_eq in Hq. rewrite Hq at 2.
    unfold Z.sub. rewrite inject_Z_plus, inject_Z_opp. reflexivity.
  - destruct (whole (q - 1)) eqn:Hp; [|reflexivity].
    apply whole_eq in Hp.
    assert (E : (q == inject_Z (Qfloor (q - 1) + 1))%Q).
    { rewrite inject_Z_plus, <- Hp. ring. }
    assert (Hw : whole q = true).
    { unfold whole. apply Qeq_bool_iff. rewrite E at 1. rewrite Qfloor_Z. symmetry. exact E. }
    congruence.
Qed.

Lemma Qle_bool_whole_l z q : whole q = true -> Qle_bool (inject_Z z) q = (z <=? Qfloor q)%Z.
Proof.
  intros H. apply whole_eq in H. apply eq_true_iff_eq.
  rewrite Qle_bool_iff, Z.leb_le, H, Qfloor_Z, <- Zle_Qle. reflexivity.
Qed.

Lemma Qle_bool_whole_r z q : whole q = true -> Qle_bool q (inject_Z z) = (Qfloor q <=? z)%Z.
Proof.
  intros H. apply whole_eq in H. apply eq_true_iff_eq.
  rewrite Qle_bool_iff, Z.leb_le, H, Qfloor_Z, <- Zle_Qle. reflexivity.
Qed.

(** The loop body of [solve_captcha] picks the name the index selects. *)
Lemma checked_name (names : list string) (index : Q) :
  (if Qle_bool 1 index && Qle_bool index (inject_Z (Z.of_nat (List.length names)))
   then array_get names (index - 1) else None)
  = position (List.length names) index ≫= (names !!.).
Proof.
  unfold array_get, position. fold (whole index). fold (whole (index - 1)).
  rewrite whole_pred.
  destruct (whole index) eqn:Hw; cbn [andb].
  - rewrite (Qle_bool_whole_l 1 index Hw : Qle_bool 1 index = _),
            (Qle_bool_whole_r _ index Hw).
    destruct (1 <=? Qfloor index)%Z eqn:H1; cbn [andb]; [|reflexivity].
    destruct (Qfloor index <=? Z.of_nat (List.length names))%Z; [|reflexivity].
    assert (Hw' : whole (index - 1) = true) by (rewrite whole_pred; exact Hw).
    rewrite (Qle_bool_whole_l 0 (index - 1) Hw' : Qle_bool 0 (index - 1) = _),
            (Qfloor_pred index Hw).
    assert (H0 : (0 <=? Qfloor index - 1)%Z = true) by lia.
    rewrite H0. reflexivity.
  - destruct (_ && _); reflexivity.
Qed.

Lemma check_boxes_selected (names : list string) (indices : list Q) :
  Forall (fun name => name <> "") names ->
  forall formData,
    check_boxes names indices formData
    = formData ++ map (fun name => (name, "1")) (selected names indices).
Proof.
  intros Hnames. unfold check_boxes, selected.
  induction indices as [|index indices IH]; intros formData.
  - simpl. rewrite app_nil_r. reflexivity.
  - cbn [fold_left omap list_omap]. rewrite IH. clear IH.
    rewrite <- (checked_name names index).
    destruct (Qle_bool 1 index && _); [|reflexivity].
    destruct (array_get names (index - 1)) as [name|] eqn:Hget; [|reflexivity].
    assert (Hin : name ∈ names).
    { unfold array_get in Hget. destruct (_ && _); [|discriminate].
      eapply list_elem_of_lookup_2, Hget. }
    rewrite Forall_forall in Hnames. apply Hnames in Hin.
    destruct name; [congruence|]. cbn [Js.truthy Js.is_empty negb map].
    unfold URLSearchParams.append. rewrite <- app_assoc. reflexivity.
Qed.

Lemma position_whole (N : nat) (k : Z) :
  position N (inject_Z k)
  = if (1 <=? k)%Z && (k <=? Z.of_nat N)%Z then Some (Z.to_nat (k - 1)) else None.
Proof.
  unfold position. fold (whole (inject_Z k)). rewrite whole_inject, Qfloor_Z. reflexivity.
Qed.

Lemma position_fraction (N : nat) (q : Q) : whole q = false -> position N q = None.
Proof. unfold position. fold (whole q). intros ->. reflexivity. Qed.

Lemma selected_whole (names : list string) (ks : list Z) :
  selected names (map inject_Z ks)
  = omap (fun k => if (1 <=? k)%Z && (k <=? Z.of_nat (List.length names))%Z
                   then names !! Z.to_nat (k - 1) else None) ks.
Proof.
  unfold selected. induction ks as [|k ks IH]; [reflexivity|].
  cbn [map omap list_omap]. rewrite IH, position_whole.
  destruct (_ && _); reflexivity.
Qed.

(** The names the parser stores are never empty. *)
Lemma parsed_names_nonempty W html elems imgs names :
  each_image W html elems [] [] = Ok (imgs, names) ->
  Forall (fun name => name <> "") names.
Proof.
  intros H. apply each_image_ok in H. destruct H as (urls & _ & _ & ->).
  cbn [app]. apply Forall_forall. intros name Hin.
  apply list_elem_of_fmap in Hin. destruct Hin as (elem & -> & _).
  unfold checkbox_name. discriminate.
Qed.

Lemma parse_well_named W html s :
  well_named (captchaState s) ->
  well_named (captchaState (final (parseSearchResults W html s))).
Proof.
  intros Hs.
  destruct (has html (Cheerio.by_id "challenge-form")) eqn:Hform.
  - destruct (each_image W html (tiles html) [] []) as [[imgs names]|e] eqn:Himgs.
    + rewrite (parse_challenge W html s imgs names Hform Himgs).
      intros names' Hn. inversion Hn; subst names'.
      eapply parsed_names_nonempty, Himgs.
    + rewrite (parse_challenge_throws W html s e Hform Himgs). exact Hs.
  - destruct (parse_effect W html s) as [_ [-> | [[Hcl _] | [_ ->]]]]; try exact Hs.
    apply classify_challenge in Hcl. congruence.
Qed.

Lemma respond_well_named W response failure s :
  well_named (captchaState s) ->
  well_named (captchaState (final (respond W response failure s))).
Proof.
  intros Hs. unfold respond. rewrite try_catch_final.
  destruct (text response) as [html|e].
  - rewrite bind_lift_ok.
    destruct (parse_render W html (fun s' => Js.or_empty (currentQuery (searchState s'))) s)
      as [_ ->].
    apply parse_well_named, Hs.
  - rewrite bind_lift_throw. exact Hs.
Qed.

Lemma respond_to_well_named W response query s :
  well_named (captchaState s) ->
  well_named (captchaState (final (respond_to W response query s))).
Proof.
  intros Hs. unfold respond_to. rewrite try_catch_final.
  destruct (text response) as [html|e].
  - rewrite bind_lift_ok.
    destruct (parse_render_fixed W html query s) as [_ ->].
    apply parse_well_named, Hs.
  - rewrite bind_lift_throw. exact Hs.
Qed.

(** In every reachable state the page number is between 1 and 6 and no
    stored checkbox name is empty. *)
Lemma reachable_invariant s :
  reachable s ->
  (1 <= currentPage (searchState s) <= 6)%Z /\ well_named (captchaState s).
Proof.
  induction 1 as [|W query region dateFrame s _ [Hp Hn]|W s _ [Hp Hn]
                  |W indices s _ [Hp Hn]|imageUrl s _ IH].
  - split; [simpl; lia|]. intros names Hn. discriminate.
  - rewrite search_run. cbv zeta.
    destruct (fetch_response W _) as [response|e]; [|split; [simpl; lia|exact Hn]].
    destruct (ok response); [|split; [simpl; lia|exact Hn]].
    pose proof (respond_to_effect W response query (fresh query s)) as (_ & Hpage & _).
    pose proof (respond_to_well_named W response query (fresh query s) Hn) as Hn'.
    destruct (respond_to W response query (fresh query s)) as [[r s2] l2].
    unfold final in *; cbn [fst snd] in *. split; [|exact Hn'].
    rewrite Hpage. simpl. lia.
  - destruct (nextFormData (searchState s)) as [token|] eqn:Htok.
    2:{ rewrite (search_next_refuses W s (or_introl Htok)). split; assumption. }
    destruct (string_eq_dec token "") as [->|Hne].
    { rewrite (search_next_refuses W s (or_intror (or_introl Htok))). split; assumption. }
    destruct (Z_lt_le_dec 5 (currentPage (searchState s))) as [Hcap|Hcap].
    { rewrite (search_next_refuses W s (or_intror (or_intror Hcap))). split; assumption. }
    rewrite (search_next_run W s token Htok Hne Hcap).
    destruct (fetch_response W _) as [response|e]; [|split; [simpl; lia|exact Hn]].
    destruct (ok response); [|split; [simpl; lia|exact Hn]].
    pose proof (respond_effect W response "Error performing search: " (advanced s))
      as (_ & Hpage & _).
    pose proof (respond_well_named W response "Error performing search: " (advanced s) Hn)
      as Hn'.
    destruct (respond W response "Error performing search: " (advanced s)) as [[r s2] l2].
    unfold final in *; cbn [fst snd] in *. split; [|exact Hn'].
    rewrite Hpage. simpl. lia.
  - destruct (active (captchaState s)) as [[[act sv] names]|] eqn:Hact.
    2:{ rewrite (solve_captcha_inactive W indices s Hact). split; assumption. }
    rewrite (solve_captcha_run W indices s act sv names Hact).
    destruct (URL_href W act base_url) as [actionUrl|e]; [|split; assumption].
    cbv zeta.
    destruct (fetch_response W _) as [response|e]; [|split; assumption].
    destruct (ok response); [|split; assumption].
    pose proof (respond_effect W response "Error solving CAPTCHA: " s) as (_ & Hpage & _).
    pose proof (respond_well_named W response "Error solving CAPTCHA: " s Hn) as Hn'.
    destruct (respond W response "Error solving CAPTCHA: " s) as [[r s2] l2].
    unfold final in *; cbn [fst snd] in *. split; [|exact Hn'].
    rewrite Hpage. exact Hp.
  - exact IH.
Qed.

(** C6. For every accepted challenge descriptor with N checkbox names
    (none of them empty, as in every state the server can reach) and
    every list of indices, [solve_captcha] builds the form made of the
    submit field followed by one field of value "1" per index that is a
    whole number in 1..N, named by the checkbox name at that position, in
    the order of the indices; every other index, out of range or not
    whole, is skipped without an error; and that form, serialized, is the
    body of the request posted to the action URL once it is resolved. *)
Theorem solve_captcha_submission W indices s act sv names :
  active (captchaState s) = Some (act, sv, names) ->
  Forall (fun name => name <> "") names ->
  check_boxes names indices [("challenge-submit", sv)]
  = submission sv (selected names indices) /\
  (forall ks : list Z,
     selected names (map inject_Z ks)
     = omap (fun k => if (1 <=? k)%Z && (k <=? Z.of_nat (List.length names))%Z
                      then names !! Z.to_nat (k - 1) else None) ks) /\
  (forall q, whole q = false -> selected names [q] = []) /\
  (forall actionUrl,
     URL_href W act base_url = Ok actionUrl ->
     exists later,
       requests (solve_captcha W indices s)
       = Event (Request "POST" actionUrl (form_headers W)
                  (Some (URLSearchParams.toString (submission sv (selected names indices)))))
               s :: later).
Proof.
  intros Hact Hnames.
  assert (Hform : check_boxes names indices [("challenge-submit", sv)]
                  = submission sv (selected names indices)).
  { rewrite (check_boxes_selected names indices Hnames). reflexivity. }
  split; [exact Hform|]. split; [apply selected_whole|].
  split.
  { intros q Hq. unfold selected. cbn [omap list_omap].
    rewrite (position_fraction _ q Hq). reflexivity. }
  intros actionUrl Hurl.
  rewrite (solve_captcha_run W indices s act sv names Hact), Hurl. cbv zeta.
  unfold solve_request. rewrite Hform.
  destruct (fetch_response W _) as [response|e]; [|eexists; reflexivity].
  destruct (ok response); [|eexists; reflexivity].
  destruct (respond W response "Error solving CAPTCHA: " s) as [[r s2] l2].
  eexists; reflexivity.
Qed.

(** Indices 3 and 7 on the checkbox names f1 to f9. *)
Lemma solve_captcha_submission_witness :
  active (captchaState Sample.numbered)
  = Some ("/anomaly-verify", "go", ["f1"; "f2"; "f3"; "f4"; "f5"; "f6"; "f7"; "f8"; "f9"]) /\
  check_boxes ["f1"; "f2"; "f3"; "f4"; "f5"; "f6"; "f7"; "f8"; "f9"] [3 # 1; 7 # 1]
              [("challenge-submit", "go")]
  = [("challenge-submit", "go"); ("f3", "1"); ("f7", "1")] /\
  exists later,
    requests (solve_captcha (Sample.platform (fun _ => Ok (Sample.page Sample.success_page)))
                            [3 # 1; 7 # 1] Sample.numbered)
    = Event (Request "POST" "https://duckduckgo.com/anomaly-verify"
               (form_headers (Sample.platform (fun _ => Ok (Sample.page Sample.success_page))))
               (Some "challenge-submit=go&f3=1&f7=1"))
            Sample.numbered :: later.
Proof.
  split; [reflexivity|].
  assert (Hnames : Forall (fun name : string => name <> "")
                     ["f1"; "f2"; "f3"; "f4"; "f5"; "f6"; "f7"; "f8"; "f9"])
    by (repeat constructor; discriminate).
  destruct (solve_captcha_submission
              (Sample.platform (fun _ => Ok (Sample.page Sample.success_page)))
              [3 # 1; 7 # 1] Sample.numbered "/anomaly-verify" "go"
              ["f1"; "f2"; "f3"; "f4"; "f5"; "f6"; "f7"; "f8"; "f9"] eq_refl Hnames)
    as (Hform & _ & _ & Hpost).
  split; [exact Hform|].
  exact (Hpost "https://duckduckgo.com/anomaly-verify" eq_refl).
Defined.

(** [solve_captcha] leaves the descriptor as it found it, unless the
    response is itself a challenge page. *)
Lemma solve_captcha_descriptor W indices s :
  captchaState (final (solve_captcha W indices s)) = captchaState s \/
  exists req response html,
    fetch_response W req = Ok response /\ text response = Ok html /\
    classify html = Challenge.
Proof.
  destruct (active (captchaState s)) as [[[act sv] names]|] eqn:Hact.
  - rewrite (solve_captcha_run W indices s act sv names Hact).
    destruct (URL_href W act base_url) as [actionUrl|e]; [|left; reflexivity].
    cbv zeta.
    destruct (fetch_response W (solve_request W actionUrl sv names indices))
      as [response|e] eqn:Hresp; [|left; reflexivity].
    destruct (ok response); [|left; reflexivity].
    pose proof (respond_effect W response "Error solving CAPTCHA: " s) as (_ & _ & _ & Hc).
    destruct (respond W response "Error solving CAPTCHA: " s) as [[r s2] l2].
    destruct Hc as [Hc | (html & Htext & Hcl)]; [left; exact Hc|].
    right. exists (solve_request W actionUrl sv names indices), response, html. auto.
  - rewrite (solve_captcha_inactive W indices s Hact). left; reflexivity.
Qed.

(** C2 (the code at the failing input). On the accepted challenge of
    [Sample.busy], [solve_captcha [3; 7]] is answered by the success
    page: the call completes with "Captcha successfully solved", yet the
    descriptor is still stored, and a second [solve_captcha] posts a form
    built from it to the same action URL. *)
Theorem solve_captcha_keeps_descriptor :
  outcome (solve_captcha (Sample.platform (fun _ => Ok (Sample.page Sample.success_page)))
                         [3 # 1; 7 # 1] Sample.busy)
  = Ok (MkResult [TextItem ("Captcha successfully solved. You should call " +:+
                            quote +:+ "search" +:+ quote +:+ " tool again.")] None) /\
  captchaState (final (solve_captcha
                         (Sample.platform (fun _ => Ok (Sample.page Sample.success_page)))
                         [3 # 1; 7 # 1] Sample.busy))
  = captchaState Sample.busy /\
  map (fun e => (resource (issued e), body (issued e)))
      (requests (solve_captcha
                   (Sample.platform (fun _ => Ok (Sample.page Sample.success_page))) [1 # 1]
                   (final (solve_captcha
                             (Sample.platform (fun _ => Ok (Sample.page Sample.success_page)))
                             [3 # 1; 7 # 1] Sample.busy))))
  = [("https://duckduckgo.com/anomaly-verify",
      Some "challenge-submit=go&image-check_a=1")].
Proof. vm_compute. repeat split. Qed.

(** C10. If the parser has just detected a challenge and stored its
    descriptor, and the challenge form yields an empty instruction text,
    an empty action or an empty submit value, then in every state that
    holds that descriptor every [solve_captcha], whatever the indices and
    the platform, answers "No CAPTCHA challenge is currently active." as
    an error, issues no request and changes nothing. *)
Theorem empty_field_blocks_solve W html s data :
  classify html = Challenge ->
  outcome (parseSearchResults W html s) = Ok data ->
  form_instructions html = "" \/ form_action html = "" \/ form_submit_value html = "" ->
  (exists imgs names,
     data = Captcha "Search blocked by CAPTCHA challenge." (form_instructions html) imgs /\
     captchaState (final (parseSearchResults W html s))
     = MkCaptchaState (Some (form_instructions html)) (Some imgs) (Some (form_action html))
                      (Some (form_submit_value html)) (Some names)) /\
  forall s1 W' indices,
    captchaState s1 = captchaState (final (parseSearchResults W html s)) ->
    solve_captcha W' indices s1
    = (Ok (MkResult [TextItem "No CAPTCHA challenge is currently active."] (Some true)),
       s1, []).
Proof.
  intros Hcl Hok Hempty.
  pose proof (proj1 (classify_challenge html) Hcl) as Hform.
  destruct (each_image W html (tiles html) [] []) as [[imgs names]|e] eqn:Himgs.
  - rewrite (parse_challenge W html s imgs names Hform Himgs) in *.
    unfold outcome, final in *; cbn [fst snd] in *.
    inversion Hok; subst data. split; [eexists _, _; split; reflexivity|].
    intros s1 W' indices Hs1. apply solve_captcha_inactive. rewrite Hs1. unfold active.
    cbn [with_captcha captchaState challenge images action submitValue checkboxNames].
    destruct Hempty as [-> | [-> | ->]]; cbn [Js.truthy Js.is_empty negb andb];
      rewrite ?andb_false_r; reflexivity.
  - rewrite (parse_challenge_throws W html s e Hform Himgs) in Hok. discriminate.
Qed.

(** A [search] answered by the challenge page of [Sample.mute_challenge],
    which has no instruction text, then a [solve_captcha]. *)
Lemma empty_field_blocks_solve_witness :
  classify Sample.mute_challenge = Challenge /\
  form_instructions Sample.mute_challenge = "" /\
  outcome (solve_captcha (Sample.platform (fun _ => Ok (Sample.page Sample.success_page)))
             [1 # 1]
             (final (search (Sample.platform (Sample.serving Sample.mute_challenge Sample.jpeg))
                            "ducks" None None initial_state)))
  = Ok (MkResult [TextItem "No CAPTCHA challenge is currently active."] (Some true)) /\
  requests (solve_captcha (Sample.platform (fun _ => Ok (Sample.page Sample.success_page)))
              [1 # 1]
              (final (search (Sample.platform (Sample.serving Sample.mute_challenge Sample.jpeg))
                             "ducks" None None initial_state)))
  = [].
Proof.
  split; [reflexivity|]. split; [reflexivity|].
  rewrite (proj2 (empty_field_blocks_solve
                    (Sample.platform (Sample.serving Sample.mute_challenge Sample.jpeg))
                    Sample.mute_challenge initial_state _ eq_refl eq_refl
                    (or_introl eq_refl))
                 (final (search (Sample.platform
                                   (Sample.serving Sample.mute_challenge Sample.jpeg))
                                "ducks" None None initial_state))
                 (Sample.platform (fun _ => Ok (Sample.page Sample.success_page)))
                 [1 # 1] eq_refl).
  split; reflexivity.
Defined.

(* ===================================================================== *)
(** * Properties of the challenge extractor and the parser                *)
(* ===================================================================== *)

(** C3 (as stated, refuted). The challenge page of
    [Sample.lopsided_challenge] has nine tiles, one without a file name.
    A [search] answered by it stores a descriptor with nine image URLs and
    eight checkbox names; all nine downloads succeed, the compositor path
    is entered, and the composite is stored. *)
Lemma descriptor_counts_may_differ :
  (List.length <$> images (captchaState
     (final (search (Sample.platform (Sample.serving Sample.lopsided_challenge Sample.jpeg))
                    "ducks" None None initial_state))),
   List.length <$> checkboxNames (captchaState
     (final (search (Sample.platform (Sample.serving Sample.lopsided_challenge Sample.jpeg))
                    "ducks" None None initial_state))))
  = (Some 9, Some 8) /\
  captchaImages
    (final (search (Sample.platform (Sample.serving Sample.lopsided_challenge Sample.jpeg))
                   "ducks" None None initial_state))
    !! "/00112233445566778899aabbccddeeff.png"
  = Some "PNG 768x768".
Proof. vm_compute. split; reflexivity. Qed.

(** C3 (amended). Every descriptor the parser stores carries one image
    URL per tile image of the challenge form and one checkbox name per
    tile image whose source has a non-empty file name, in document order:
    never more names than URLs, and as many when every tile has a file
    name. Rendering the challenge enters the compositor path exactly when
    nine tile downloads succeed, whatever the state, hence whatever the
    number of checkbox names. *)
Theorem descriptor_counts W html s data :
  classify html = Challenge ->
  outcome (parseSearchResults W html s) = Ok data ->
  exists imgs names,
    data = Captcha "Search blocked by CAPTCHA challenge." (form_instructions html) imgs /\
    images (captchaState (final (parseSearchResults W html s))) = Some imgs /\
    checkboxNames (captchaState (final (parseSearchResults W html s))) = Some names /\
    List.length imgs = List.length (tiles html) /\
    names = map (checkbox_name html) (List.filter (has_stem html) (tiles html)) /\
    List.length names <= List.length imgs /\
    (Forall (fun elem => has_stem html elem = true) (tiles html) ->
     List.length names = List.length imgs) /\
    forall query s',
      dataToResult W data query s'
      = if (List.length (omap (fetched W) imgs) =? 9)%nat
        then compositor_path W (form_instructions html) (omap (fetched W) imgs)
                             (tile_events imgs s') s'
        else unavailable (tile_events imgs s') s'.
Proof.
  intros Hcl Hok.
  pose proof (proj1 (classify_challenge html) Hcl) as Hform.
  destruct (each_image W html (tiles html) [] []) as [[imgs names]|e] eqn:Himgs.
  - rewrite (parse_challenge W html s imgs names Hform Himgs) in *.
    unfold outcome, final in *; cbn [fst snd] in *. inversion Hok; subst data.
    apply each_image_ok in Himgs. destruct Himgs as (urls & -> & Hurls & ->).
    cbn [app]. apply Forall2_length in Hurls.
    exists urls, (map (checkbox_name html) (List.filter (has_stem html) (tiles html))).
    repeat split.
    + symmetry. exact Hurls.
    + rewrite length_map, <- Hurls. apply filter_length_le.
    + intros Hall. rewrite length_map, (filter_all _ _ Hall). exact Hurls.
    + intros query s'. apply dataToResult_captcha.
  - rewrite (parse_challenge_throws W html s e Hform Himgs) in Hok. discriminate.
Qed.

(** The nine-tile challenge of [Sample.duck_challenge]. *)
Lemma descriptor_counts_witness :
  classify Sample.duck_challenge = Challenge /\
  exists imgs names,
    images (captchaState (final (parseSearchResults
              (Sample.platform (fun _ => Ok Sample.refused))
              Sample.duck_challenge initial_state))) = Some imgs /\
    checkboxNames (captchaState (final (parseSearchResults
              (Sample.platform (fun _ => Ok Sample.refused))
              Sample.duck_challenge initial_state))) = Some names /\
    List.length names <= List.length imgs.
Proof.
  split; [reflexivity|].
  destruct (descriptor_counts (Sample.platform (fun _ => Ok Sample.refused))
              Sample.duck_challenge initial_state _ eq_refl eq_refl)
    as (imgs & names & _ & Hi & Hn & _ & _ & Hle & _).
  exists imgs, names. auto.
Defined.

(** C7 (as stated, refuted). On the challenge page of
    [Sample.broken_challenge], whose third tile has the source [http://],
    the URL constructor throws and the parser returns no classification
    at all. *)
Lemma parser_may_not_classify :
  outcome (parseSearchResults (Sample.platform (fun _ => Ok Sample.refused))
                              Sample.broken_challenge initial_state)
  = Throw "Invalid URL" /\
  final (parseSearchResults (Sample.platform (fun _ => Ok Sample.refused))
                            Sample.broken_challenge initial_state)
  = initial_state.
Proof. vm_compute. split; reflexivity. Qed.

(** C7 (amended). For every HTML input a single run of the parser issues
    no request and either returns exactly one classification, the one the
    markers give in the priority order challenge, challenge-failed,
    challenge-resolved, results, unrecognized (the three challenge markers
    are looked for before the results container), or throws; it throws
    only on a document with a challenge form one of whose tile sources
    the URL constructor rejects, and then nothing is stored. A run never
    sets both a token and a descriptor: it stores nothing, or a descriptor
    and only on a challenge document, or a token and only on a results
    document. *)
Theorem parser_classifies W html s :
  requests (parseSearchResults W html s) = [] /\
  match outcome (parseSearchResults W html s) with
  | Ok data => class_of data = classify html
  | Throw e =>
      classify html = Challenge /\
      final (parseSearchResults W html s) = s /\
      Exists (fun elem => URL_href W (tile_src html elem) base_url = Throw e) (tiles html)
  end /\
  (final (parseSearchResults W html s) = s \/
   (classify html = Challenge /\
    exists c, final (parseSearchResults W html s) = with_captcha c s) \/
   (classify html = ResultsPage /\
    final (parseSearchResults W html s) = with_token (Some (token_of html)) s)).
Proof.
  split; [apply parse_effect|]. split; [apply parse_outcome|apply parse_effect].
Qed.

(* ===================================================================== *)
(** * The pagination token loses nothing                                  *)
(* ===================================================================== *)

Module FormRoundTrip.

Import URLSearchParams.

(** Percent-decoding undoes the serializer, byte by byte. *)
Lemma unescape_encode_byte (b : unit16) (rest : string) :
  (Unit.code b < 256)%N ->
  unescape (encode_byte b +:+ rest) = String b (unescape rest).
Proof.
  intros H. rewrite (UnitFacts.byte_shape b H).
  destruct (low b) as [[] [] [] [] [] [] [] []]; reflexivity.
Qed.

Lemma unescape_encode_bytes (bs : string) :
  Utf8.all_below 256 bs = true -> unescape (encode_bytes bs) = bs.
Proof.
  induction bs as [|b bs IH]; [reflexivity|]. cbn [Utf8.all_below encode_bytes].
  rewrite andb_true_iff, N.ltb_lt. intros [Hb Hbs].
  rewrite (unescape_encode_byte b _ Hb), (IH Hbs). reflexivity.
Qed.

(** Decoding a serialized string gives the string back, as scalar
    values. *)
Lemma decode_encode (s : string) : decode (encode s) = Js.toWellFormed s.
Proof.
  unfold decode, encode.
  rewrite (unescape_encode_bytes _ (Utf8Facts.encode_is_bytes s)).
  apply Utf8Facts.utf8_decode_encode.
Qed.

Lemma free_of_append sep (a b : string) :
  free_of sep (a +:+ b) = free_of sep a && free_of sep b.
Proof.
  induction a as [|x a IH]; simpl; [reflexivity|]. rewrite IH, andb_assoc. reflexivity.
Qed.

(** A serialized byte is made of ASCII characters other than [&] and
    [=]. *)
Lemma encode_byte_free (b : unit16) :
  (Unit.code b < 256)%N ->
  free_of "&" (encode_byte b) = true /\ free_of "=" (encode_byte b) = true /\
  Utf8.all_below 128 (encode_byte b) = true.
Proof.
  intros H. rewrite (UnitFacts.byte_shape b H).
  destruct (low b) as [[] [] [] [] [] [] [] []]; repeat split; reflexivity.
Qed.

Lemma encode_bytes_free (bs : string) :
  Utf8.all_below 256 bs = true ->
  free_of "&" (encode_bytes bs) = true /\ free_of "=" (encode_bytes bs) = true /\
  Utf8.all_below 128 (encode_bytes bs) = true.
Proof.
  induction bs as [|b bs IH]; [repeat split; reflexivity|].
  cbn [Utf8.all_below encode_bytes]. rewrite andb_true_iff, N.ltb_lt. intros [Hb Hbs].
  destruct (IH Hbs) as (IH1 & IH2 & IH3).
  destruct (encode_byte_free b Hb) as (H1 & H2 & H3).
  rewrite !free_of_append, Utf8Facts.all_below_append, IH1, IH2, IH3, H1, H2, H3.
  repeat split; reflexivity.
Qed.

Lemma encode_free (s : string) :
  free_of "&" (encode s) = true /\ free_of "=" (encode s) = true /\
  Utf8.all_below 128 (encode s) = true.
Proof. apply encode_bytes_free, Utf8Facts.encode_is_bytes. Qed.

Lemma cut_at sep (a b : string) :
  free_of sep a = true -> cut sep (a +:+ String sep b) = (a, b).
Proof.
  induction a as [|x a IH]; simpl.
  - intros _. rewrite UnitFacts.unit_eqb_refl. reflexivity.
  - intros H. apply andb_true_iff in H. destruct H as [Hx Ha].
    apply negb_true_iff in Hx. rewrite Hx, (IH Ha). reflexivity.
Qed.

Lemma split_free sep (a : string) : free_of sep a = true -> Js.split sep a = [a].
Proof.
  induction a as [|x a IH]; simpl; [reflexivity|].
  intros H. apply andb_true_iff in H. destruct H as [Hx Ha].
  apply negb_true_iff in Hx. rewrite Hx, (IH Ha). reflexivity.
Qed.

Lemma split_at sep (a b : string) :
  free_of sep a = true -> Js.split sep (a +:+ String sep b) = a :: Js.split sep b.
Proof.
  induction a as [|x a IH]; simpl.
  - intros _. rewrite UnitFacts.unit_eqb_refl. reflexivity.
  - intros H. apply andb_true_iff in H. destruct H as [Hx Ha].
    apply negb_true_iff in Hx. rewrite Hx, (IH Ha). reflexivity.
Qed.

Lemma split_join (pieces : list string) :
  pieces <> [] ->
  Forall (fun piece => free_of "&" piece = true) pieces ->
  Js.split "&" (Js.join "&" pieces) = pieces.
Proof.
  induction pieces as [|x pieces IH]; [congruence|].
  intros _ Hall. inversion Hall as [|? ? Hx Hrest]; subst.
  destruct pieces as [|y pieces].
  - cbn [Js.join]. apply split_free, Hx.
  - change (Js.join "&" (x :: y :: pieces))
      with (x +:+ String "&" (Js.join "&" (y :: pieces))).
    rewrite (split_at "&" x _ Hx), IH; [reflexivity|congruence|exact Hrest].
Qed.

Lemma piece_free kv : free_of "&" (piece_of kv) = true.
Proof.
  unfold piece_of. rewrite !free_of_append.
  rewrite (proj1 (encode_free (fst kv))), (proj1 (encode_free (snd kv))). reflexivity.
Qed.

Lemma piece_ascii kv : Utf8.all_below 128 (piece_of kv) = true.
Proof.
  unfold piece_of. rewrite !Utf8Facts.all_below_append.
  rewrite (proj2 (proj2 (encode_free (fst kv)))), (proj2 (proj2 (encode_free (snd kv)))).
  reflexivity.
Qed.

Lemma piece_truthy kv : Js.truthy (piece_of kv) = true.
Proof. unfold piece_of. destruct (encode (fst kv)); reflexivity. Qed.

Lemma piece_read kv :
  (decode (fst (cut "=" (piece_of kv))), decode (snd (cut "=" (piece_of kv))))
  = (Js.toWellFormed (fst kv), Js.toWellFormed (snd kv)).
Proof.
  unfold piece_of. change ("=" +:+ encode (snd kv)) with (String "=" (encode (snd kv))).
  rewrite (cut_at "=" _ _ (proj1 (proj2 (encode_free (fst kv))))). cbn [fst snd].
  rewrite !decode_encode. reflexivity.
Qed.

Lemma join_ascii (pieces : list string) :
  Forall (fun piece => Utf8.all_below 128 piece = true) pieces ->
  Utf8.all_below 128 (Js.join "&" pieces) = true.
Proof.
  induction pieces as [|x pieces IH]; [reflexivity|].
  intros Hall. inversion Hall as [|? ? Hx Hrest]; subst.
  destruct pieces as [|y pieces]; [exact Hx|].
  change (Js.join "&" (x :: y :: pieces))
    with (x +:+ String "&" (Js.join "&" (y :: pieces))).
  rewrite Utf8Facts.all_below_append, Hx. cbn [Utf8.all_below andb].
  rewrite (IH Hrest). reflexivity.
Qed.

(** A serialized form is an ASCII string: it is its own UTF-8 encoding. *)
Lemma toString_ascii (p : t) : Utf8.all_below 128 (toString p) = true.
Proof.
  unfold toString. apply join_ascii, Forall_forall. intros x Hx.
  apply list_elem_of_fmap in Hx. destruct Hx as (a & -> & _). apply piece_ascii.
Qed.

(** Parsing a serialized form gives the entries of the form back. *)
Lemma parse_toString (p : t) : parse (toString p) = entries p.
Proof.
  unfold parse. rewrite (Utf8Facts.encode_ascii _ (toString_ascii p)).
  unfold toString, entries.
  destruct p as [|kv p]; [reflexivity|].
  rewrite split_join.
  - rewrite filter_all.
    + rewrite map_map. apply map_ext. intros a. apply piece_read.
    + apply Forall_forall. intros x Hx. apply list_elem_of_fmap in Hx.
      destruct Hx as (a & -> & _). apply piece_truthy.
  - discriminate.
  - apply Forall_forall. intros x Hx. apply list_elem_of_fmap in Hx.
    destruct Hx as (a & -> & _). apply piece_free.
Qed.

(** The entries of a form of well-formed strings are its pairs. *)
Lemma entries_id (p : t) :
  Forall (fun kv => Js.isWellFormed (fst kv) = true /\ Js.isWellFormed (snd kv) = true) p ->
  entries p = p.
Proof.
  unfold entries. induction p as [|[k v] p IH]; [reflexivity|].
  intros Hall. inversion Hall as [|? ? [Hk Hv] Hrest]; subst. cbn [map fst snd] in *.
  rewrite (Utf8Facts.toWellFormed_id k Hk), (Utf8Facts.toWellFormed_id v Hv), (IH Hrest).
  reflexivity.
Qed.

End FormRoundTrip.

(* ===================================================================== *)
(** * Properties of the result extractor                                  *)
(* ===================================================================== *)

Lemma result_of_titled html elem :
  result_of html elem = if titled html elem then Some (record_of html elem) else None.
Proof.
  unfold result_of, titled, record_of. fold (title_link html elem). fold (snippet html elem).
  destruct (0 <? Cheerio.length (title_link html elem))%nat; [|reflexivity].
  cbn [andb]. destruct (Js.truthy _); reflexivity.
Qed.

Lemma results_of_items html (items : list Cheerio.elem) :
  omap (result_of html) items = map (record_of html) (List.filter (titled html) items).
Proof.
  induction items as [|elem items IH]; [reflexivity|].
  cbn [omap list_omap List.filter]. rewrite IH, result_of_titled.
  destruct (titled html elem); reflexivity.
Qed.

Lemma form_fields_from (inputs : list Cheerio.elem) : forall formData,
  fold_left
    (fun formData input =>
       if Js.truthy_opt (Cheerio.attribs_get "name" (Cheerio.self input))
       then URLSearchParams.append
              (Js.or_empty (Cheerio.attribs_get "name" (Cheerio.self input)))
              (Js.or_empty (Cheerio.attribs_get "value" (Cheerio.self input)))
              formData
       else formData)
    inputs formData
  = formData ++ map field_of (List.filter named inputs).
Proof.
  induction inputs as [|input inputs IH]; intros formData.
  - simpl. rewrite app_nil_r. reflexivity.
  - cbn [fold_left List.filter]. rewrite IH. unfold named at 2.
    destruct (Js.truthy_opt _); [|reflexivity].
    unfold URLSearchParams.append. rewrite <- app_assoc. reflexivity.
Qed.

Lemma form_fields_named (inputs : list Cheerio.elem) :
  form_fields inputs = map field_of (List.filter named inputs).
Proof. unfold form_fields. rewrite form_fields_from. reflexivity. Qed.

Lemma append_empty (a b : string) : a +:+ b = "" -> a = "".
Proof. destruct a; [reflexivity|discriminate]. Qed.

Lemma join_empty sep (x : string) (l : list string) : Js.join sep (x :: l) = "" -> x = "".
Proof. destruct l; cbn [Js.join]; [auto|apply append_empty]. Qed.

(** A serialized form is the empty string only for the empty form. *)
Lemma toString_empty (p : URLSearchParams.t) : URLSearchParams.toString p = "" <-> p = [].
Proof.
  split; [|intros ->; reflexivity].
  destruct p as [|[k v] p]; [reflexivity|].
  unfold URLSearchParams.toString. cbn [map]. intros H.
  apply join_empty in H. exfalso. unfold URLSearchParams.piece_of in H. cbn [fst snd] in H.
  destruct (URLSearchParams.encode k); discriminate.
Qed.

Lemma forallb_true_Forall {A} (f : A -> bool) (l : list A) :
  forallb f l = true -> Forall (fun a => f a = true) l.
Proof.
  induction l as [|a l IH]; cbn [forallb]; intros H; [apply List.Forall_nil|].
  apply andb_true_iff in H. destruct H as [Ha Hl].
  apply List.Forall_cons; [exact Ha|exact (IH Hl)].
Qed.

Lemma well_formed_fields_check (p : URLSearchParams.t) :
  forallb (fun kv => Js.isWellFormed (fst kv) && Js.isWellFormed (snd kv)) p = true ->
  well_formed_fields p.
Proof.
  intros H. apply forallb_true_Forall in H. unfold well_formed_fields.
  induction H as [|kv p Hkv _ IH]; [apply List.Forall_nil|].
  apply andb_true_iff in Hkv. apply List.Forall_cons; [exact Hkv|exact IH].
Qed.

(** A result item without a title link gives no record: the results
    page of [Sample.untitled_results] has one result item and a next-page
    control, and extraction yields no record. *)
Example untitled_item_is_dropped :
  classify Sample.untitled_results = ResultsPage /\
  List.length (result_items Sample.untitled_results) = 1 /\
  outcome (parseSearchResults (Sample.platform (fun _ => Ok Sample.refused))
                              Sample.untitled_results initial_state)
  = Ok (Results 1 []).
Proof. vm_compute. repeat split. Qed.

(** C8. For every valid results document, that is a document with the
    results container and none of the challenge markers in which each of
    the N result items has a title link with non-empty trimmed text,
    extraction yields exactly N records, one per item in document order:
    the title is the trimmed link text, the URL the raw [href] (empty
    when absent), the snippet the trimmed snippet text, and the empty
    string when there is no snippet. With a next-page control whose form
    has an input with a name, the parser stores a token that is not
    empty: the form-encoding of the name/value pairs of the named inputs
    of the form, in document order, a missing value counting as the empty
    string. Form-decoding the token gives the entries of these pairs
    back, which are the pairs themselves, verbatim, when names and values
    are text. With no next-page control the parser stores no token: the
    state is as it was. *)
Theorem results_extraction W html s :
  classify html = ResultsPage ->
  Forall (fun elem => titled html elem = true) (result_items html) ->
  outcome (parseSearchResults W html s)
  = Ok (Results (Cheerio.length (next_forms html))
                (map (record_of html) (result_items html))) /\
  List.length (map (record_of html) (result_items html)) = List.length (result_items html) /\
  (forall elem, Cheerio.length (snippet html elem) = 0 ->
                description (record_of html elem) = "") /\
  (Cheerio.length (next_forms html) <> 0 ->
   List.filter named (next_inputs html) <> [] ->
   exists token,
     final (parseSearchResults W html s) = with_token (Some token) s /\
     token <> "" /\
     URLSearchParams.parse token
     = URLSearchParams.entries (map field_of (List.filter named (next_inputs html))) /\
     (well_formed_fields (map field_of (List.filter named (next_inputs html))) ->
      URLSearchParams.parse token = map field_of (List.filter named (next_inputs html)))) /\
  (Cheerio.length (next_forms html) = 0 -> final (parseSearchResults W html s) = s).
Proof.
  intros Hcl Hall.
  destruct (classify_results html Hcl) as (H1 & H2 & H3 & H4).
  rewrite (parse_results W html s H1 H2 H3 H4).
  unfold outcome, final; cbn [fst snd].
  rewrite results_of_items, form_fields_named, (filter_all _ _ Hall).
  split; [reflexivity|]. split; [apply length_map|].
  split.
  { intros elem Hlen. unfold record_of. cbn [description]. rewrite Hlen. reflexivity. }
  split.
  - intros Hmore Hnamed. apply Nat.eqb_neq in Hmore. rewrite Hmore.
    exists (URLSearchParams.toString (map field_of (List.filter named (next_inputs html)))).
    split; [reflexivity|]. split.
    { rewrite toString_empty. intros Hnil. apply map_eq_nil in Hnil. contradiction. }
    split; [apply FormRoundTrip.parse_toString|].
    intros Hwf. rewrite FormRoundTrip.parse_toString. apply FormRoundTrip.entries_id, Hwf.
  - intros ->. reflexivity.
Qed.

(** The results page of [Sample.two_results_and_next]: two titled items
    and a next-page control with three named inputs, one without a
    value. *)
Lemma results_extraction_witness :
  classify Sample.two_results_and_next = ResultsPage /\
  outcome (parseSearchResults (Sample.platform (fun _ => Ok Sample.refused))
                              Sample.two_results_and_next initial_state)
  = Ok (Results 1 [MkSearchResult "A" "https://a.example/" "a-desc";
                   MkSearchResult "B" "https://b.example/" "b-desc"]) /\
  exists token,
    final (parseSearchResults (Sample.platform (fun _ => Ok Sample.refused))
                              Sample.two_results_and_next initial_state)
    = with_token (Some token) initial_state /\
    token <> "" /\
    URLSearchParams.parse token = [("q", "wild ducks"); ("s", "10"); ("dc", "")].
Proof.
  split; [reflexivity|].
  destruct (results_extraction (Sample.platform (fun _ => Ok Sample.refused))
                               Sample.two_results_and_next initial_state)
    as (Hout & _ & _ & Hnext & _).
  - reflexivity.
  - apply forallb_true_Forall. vm_compute. reflexivity.
  - split; [exact Hout|].
    destruct Hnext as (token & Hfinal & Hne & _ & Hparse).
    + vm_compute. discriminate.
    + vm_compute. discriminate.
    + exists token. split; [exact Hfinal|]. split; [exact Hne|].
      apply Hparse, well_formed_fields_check. vm_compute. reflexivity.
Defined.

(* ===================================================================== *)
(** * Properties of the puzzle compositor                                 *)
(* ===================================================================== *)

(** C9 (as stated, refuted). The nine tile downloads of the challenge of
    [Sample.duck_challenge] all succeed, but the bodies are not JPEG
    data: decoding throws, no composite is produced or stored, and the
    [search] ends in the generic error. *)
Lemma undecodable_tiles_abort :
  List.length
    (omap (fetched (Sample.platform
                      (Sample.serving Sample.duck_challenge (fun _ => "GIF89a"))))
          (map (fun stem => "https://duckduckgo.com" +:+ Sample.tile_path stem) Sample.stems))
  = 9 /\
  outcome (search (Sample.platform (Sample.serving Sample.duck_challenge (fun _ => "GIF89a")))
                  "ducks" None None initial_state)
  = Ok (MkResult [TextItem "Error performing search: SOI not found"] (Some true)) /\
  captchaImages
    (final (search (Sample.platform (Sample.serving Sample.duck_challenge (fun _ => "GIF89a")))
                   "ducks" None None initial_state))
  = ∅.
Proof. vm_compute. repeat split. Qed.

(** C9 (amended). Rendering a challenge downloads its tiles. When
    exactly nine downloads succeed, every downloaded buffer decodes as a
    JPEG image and the overlay asset loads, the compositor builds one
    canvas whose width and height are each 3 times the tile edge of 256;
    once encoded, that single image is stored under a fresh path and the
    answer tells where to look at it (if encoding throws, nothing is
    stored). When eight or fewer downloads succeed, the answer is that
    the search is blocked and nothing is composed or stored. When nine
    succeed but composing throws, the error is thrown on and nothing is
    stored; and composing does throw when one of the nine buffers does
    not decode: the error is that of the first such buffer, it is thrown
    on, and nothing is stored. *)
Theorem compositor_contract W error challenge images query s :
  (List.length (omap (fetched W) images) = 9 ->
   Forall (fun b => exists img, decodeJPEGFromStream W b = Ok img) (omap (fetched W) images) ->
   (exists overlayImage, overlay_asset W = Ok overlayImage) ->
   exists c,
     compose W (omap (fetched W) images) = Ok c /\
     canvas_width c = (3 * tileSize)%Z /\ canvas_height c = (3 * tileSize)%Z /\
     match encodePNGToStream W c with
     | Ok png =>
         dataToResult W (Captcha error challenge images) query s
         = (Ok (MkResult
                  [TextItem (solve_instructions W challenge
                               ("/" +:+ randomBytes_hex W +:+ ".png"))] None),
            published ("/" +:+ randomBytes_hex W +:+ ".png") png s,
            tile_events images s)
     | Throw e =>
         dataToResult W (Captcha error challenge images) query s
         = (Throw e, s, tile_events images s)
     end) /\
  (List.length (omap (fetched W) images) <= 8 ->
   dataToResult W (Captcha error challenge images) query s
   = (Ok (MkResult [TextItem "Search blocked by DuckDuckGo, this search cannot be performed."]
                   None),
      s, tile_events images s)) /\
  (List.length (omap (fetched W) images) = 9 ->
   forall e, compose W (omap (fetched W) images) = Throw e ->
     dataToResult W (Captcha error challenge images) query s
     = (Throw e, s, tile_events images s)) /\
  (List.length (omap (fetched W) images) = 9 ->
   forall pre b post e,
     omap (fetched W) images = pre ++ b :: post ->
     Forall (fun b => exists img, decodeJPEGFromStream W b = Ok img) pre ->
     decodeJPEGFromStream W b = Throw e ->
     compose W (omap (fetched W) images) = Throw e /\
     dataToResult W (Captcha error challenge images) query s
     = (Throw e, s, tile_events images s)).
Proof.
  rewrite dataToResult_captcha. split; [|split; [|split]].
  - intros Hlen Hdec [overlayImage Hov].
    destruct (compose_total W _ overlayImage Hlen Hdec Hov) as [c Hc].
    exists c. split; [exact Hc|].
    destruct (compose_size W _ c Hc) as [Hw Hh]. split; [exact Hw|]. split; [exact Hh|].
    rewrite Hlen. cbn [Nat.eqb]. unfold compositor_path. rewrite Hc.
    destruct (encodePNGToStream W c); reflexivity.
  - intros Hlen.
    assert (Hne : (List.length (omap (fetched W) images) =? 9)%nat = false)
      by (apply Nat.eqb_neq; lia).
    rewrite Hne. reflexivity.
  - intros Hlen e He. rewrite Hlen. cbn [Nat.eqb]. unfold compositor_path. rewrite He.
    reflexivity.
  - intros Hlen pre b post e Hsplit Hpre Hb.
    pose proof (compose_throws W _ pre post b e Hsplit Hlen Hpre Hb) as He.
    split; [exact He|].
    rewrite Hlen. cbn [Nat.eqb]. unfold compositor_path. rewrite He. reflexivity.
Qed.

(** The nine tiles of [Sample.duck_challenge], all served as JPEG data. *)
Lemma compositor_contract_witness :
  List.length
    (omap (fetched (Sample.platform (Sample.serving Sample.duck_challenge Sample.jpeg)))
          (map (fun stem => "https://duckduckgo.com" +:+ Sample.tile_path stem) Sample.stems))
  = 9 /\
  exists c,
    compose (Sample.platform (Sample.serving Sample.duck_challenge Sample.jpeg))
            (omap (fetched (Sample.platform (Sample.serving Sample.duck_challenge Sample.jpeg)))
                  (map (fun stem => "https://duckduckgo.com" +:+ Sample.tile_path stem)
                       Sample.stems))
    = Ok c /\
    canvas_width c = 768%Z /\ canvas_height c = 768%Z.
Proof.
  split; [reflexivity|].
  destruct (proj1 (compositor_contract
                     (Sample.platform (Sample.serving Sample.duck_challenge Sample.jpeg))
                     "Search blocked by CAPTCHA challenge."
                     "Select all squares containing a duck:"
                     (map (fun stem => "https://duckduckgo.com" +:+ Sample.tile_path stem)
                          Sample.stems)
                     "ducks" initial_state))
    as (c & Hc & Hw & Hh & _).
  - reflexivity.
  - vm_compute. repeat constructor; eexists; reflexivity.
  - eexists; reflexivity.
  - exists c. auto.
Defined.

(* ===================================================================== *)
(** * The documents of the specification's examples                       *)
(* ===================================================================== *)

(** Nine tiles with the file names a.jpg to i.jpg give nine image URLs and
    nine checkbox names, matched in order. *)
Example nine_tiles :
  captchaState (final (parseSearchResults (Sample.platform (fun _ => Ok Sample.refused))
                                          Sample.duck_challenge initial_state))
  = MkCaptchaState
      (Some "Select all squares containing a duck:")
      (Some (map (fun stem => "https://duckduckgo.com/assets/anomaly/images/challenge/"
                              +:+ stem +:+ ".jpg") Sample.stems))
      (Some "/anomaly-verify") (Some "go")
      (Some (map (fun stem => "image-check_" +:+ stem) Sample.stems)).
Proof. vm_compute. reflexivity. Qed.

(** Two results and no next-page control: the summary lists the two and
    says that there are no more pages; no token is left. *)
Example two_results_summary :
  search (Sample.platform (fun _ => Ok (Sample.page Sample.two_results)))
         "ducks" None None Sample.busy
  = (Ok (MkResult
           [TextItem ("Found 2 results for query " +:+ quote +:+ "ducks" +:+ quote +:+
                      ". No more pages available." +:+ nl +:+ nl +:+ "Results:" +:+ nl +:+
                      "(A)[https://a.example/]" +:+ nl +:+ "a-desc" +:+ nl +:+ nl +:+
                      "(B)[https://b.example/]" +:+ nl +:+ "b-desc")]
           None),
     fresh "ducks" Sample.busy,
     [Event (search_request (Sample.platform (fun _ => Ok (Sample.page Sample.two_results)))
                            "q=ducks&b=")
            (fresh "ducks" Sample.busy)]).
Proof. vm_compute. reflexivity. Qed.

(** A next-page control whose form has no named input: the page says
    that there are more pages, but the token is the empty string and
    [search_next] refuses. *)
Example empty_token :
  nextFormData (searchState
    (final (search (Sample.platform (fun _ => Ok (Sample.page Sample.bare_next)))
                   "ducks" None None initial_state)))
  = Some "" /\
  outcome (search_next (Sample.platform (fun _ => Ok (Sample.page Sample.bare_next)))
             (final (search (Sample.platform (fun _ => Ok (Sample.page Sample.bare_next)))
                            "ducks" None None initial_state)))
  = Ok no_next_page.
Proof. vm_compute. split; reflexivity. Qed.

(** The image server answers 200 for a stored path and 404 for any
    other; a stored image is gone once its timeout has fired. *)
Example image_server :
  serve (Some "/00112233445566778899aabbccddeeff.png")
        (final (search (Sample.platform (Sample.serving Sample.duck_challenge Sample.jpeg))
                       "ducks" None None initial_state))
  = (200%Z, Some "PNG 768x768") /\
  serve (Some "/favicon.ico")
        (final (search (Sample.platform (Sample.serving Sample.duck_challenge Sample.jpeg))
                       "ducks" None None initial_state))
  = (404%Z, None) /\
  serve (Some "/00112233445566778899aabbccddeeff.png")
        (expire "/00112233445566778899aabbccddeeff.png"
           (final (search (Sample.platform (Sample.serving Sample.duck_challenge Sample.jpeg))
                          "ducks" None None initial_state)))
  = (404%Z, None).
Proof. vm_compute. repeat split. Qed.

(* ===================================================================== *)
(** * Further properties: the requests of the tools                       *)
(* ===================================================================== *)

Lemma try_catch_requests {A} (m : M A) (h : string -> A) s :
  requests (try_catch m (fun e => ret (h e)) s) = requests (m s).
Proof.
  unfold try_catch. destruct (m s) as [[[a|e] s1] l1]; simpl; rewrite ?app_nil_r; reflexivity.
Qed.

Lemma dataToResult_issued W data query s :
  map issued (requests (dataToResult W data query s)) = downloads data.
Proof.
  destruct data as [error challenge imgs| | | |]; try reflexivity.
  rewrite dataToResult_captcha. unfold compositor_path, unavailable, downloads.
  assert (H : map issued (tile_events imgs s) = map tile_request (List.filter Js.truthy imgs)).
  { unfold tile_events. rewrite map_map. reflexivity. }
  destruct (_ =? 9)%nat; [|exact H].
  destruct (compose W _); [|exact H].
  destruct (encodePNGToStream W _); exact H.
Qed.

Lemma parse_downloads W html s data :
  outcome (parseSearchResults W html s) = Ok data ->
  downloads data = [] \/
  exists imgs,
    classify html = Challenge /\
    images (captchaState (final (parseSearchResults W html s))) = Some imgs /\
    downloads data = map tile_request (List.filter Js.truthy imgs).
Proof.
  intros Hok.
  destruct (has html (Cheerio.by_id "challenge-form")) eqn:Hform.
  - destruct (each_image W html (tiles html) [] []) as [[imgs names]|e] eqn:Himgs.
    + rewrite (parse_challenge W html s imgs names Hform Himgs) in *.
      unfold outcome, final in *; cbn [fst snd] in *. inversion Hok; subst data.
      right. exists imgs. split; [apply classify_challenge, Hform|]. split; reflexivity.
    + rewrite (parse_challenge_throws W html s e Hform Himgs) in Hok. discriminate.
  - left. pose proof (parse_outcome W html s) as Hcl. rewrite Hok in Hcl.
    destruct data; try reflexivity.
    symmetry in Hcl. apply classify_challenge in Hcl. congruence.
Qed.

(** Answering a response: the requests are the downloads of the parse
    result, and the descriptor ends as the parser leaves it. *)
Lemma respond_issued W response failure s :
  map issued (requests (respond W response failure s)) = [] \/
  exists html imgs,
    text response = Ok html /\ classify html = Challenge /\
    images (captchaState (final (respond W response failure s))) = Some imgs /\
    map issued (requests (respond W response failure s))
    = map tile_request (List.filter Js.truthy imgs).
Proof.
  destruct (text response) as [html|e] eqn:Htext.
  2:{ left. unfold respond. rewrite try_catch_requests, Htext. reflexivity. }
  assert (Hc : captchaState (final (respond W response failure s))
               = captchaState (final (parseSearchResults W html s))).
  { unfold respond. rewrite try_catch_final, Htext, bind_lift_ok.
    apply (parse_render W html (fun s' => Js.or_empty (currentQuery (searchState s'))) s). }
  rewrite Hc.
  assert (Hr : requests (respond W response failure s)
               = requests ((data <- parseSearchResults W html ;;
                            s' <- get ;;
                            dataToResult W data (Js.or_empty (currentQuery (searchState s')))) s)).
  { unfold respond. rewrite try_catch_requests, Htext, bind_lift_ok. reflexivity. }
  rewrite Hr. clear Hr Hc.
  pose proof (parse_downloads W html s) as Hd.
  pose proof (proj1 (parse_effect W html s)) as Hnil.
  unfold bind. destruct (parseSearchResults W html s) as [[[data|e] s1] l1];
    unfold requests, outcome, final in *; cbn [fst snd] in *; [|left; subst; reflexivity].
  subst l1. unfold get. cbn [app].
  pose proof (dataToResult_issued W data (Js.or_empty (currentQuery (searchState s1))) s1) as Hi.
  destruct (dataToResult W data _ s1) as [[r2 s2] l2].
  unfold requests in Hi; cbn [fst snd app] in *. rewrite Hi.
  destruct (Hd data eq_refl) as [-> | (imgs & Hcl & Himgs & ->)]; [left; reflexivity|].
  right. exists html, imgs. auto.
Qed.

Lemma respond_to_issued W response query s :
  map issued (requests (respond_to W response query s)) = [] \/
  exists html imgs,
    text response = Ok html /\ classify html = Challenge /\
    images (captchaState (final (respond_to W response query s))) = Some imgs /\
    map issued (requests (respond_to W response query s))
    = map tile_request (List.filter Js.truthy imgs).
Proof.
  destruct (text response) as [html|e] eqn:Htext.
  2:{ left. unfold respond_to. rewrite try_catch_requests, Htext. reflexivity. }
  assert (Hc : captchaState (final (respond_to W response query s))
               = captchaState (final (parseSearchResults W html s))).
  { unfold respond_to. rewrite try_catch_final, Htext, bind_lift_ok.
    apply (parse_render_fixed W html query s). }
  rewrite Hc.
  assert (Hr : requests (respond_to W response query s)
               = requests ((data <- parseSearchResults W html ;;
                            dataToResult W data query) s)).
  { unfold respond_to. rewrite try_catch_requests, Htext, bind_lift_ok. reflexivity. }
  rewrite Hr. clear Hr Hc.
  pose proof (parse_downloads W html s) as Hd.
  pose proof (proj1 (parse_effect W html s)) as Hnil.
  unfold bind. destruct (parseSearchResults W html s) as [[[data|e] s1] l1];
    unfold requests, outcome, final in *; cbn [fst snd] in *; [|left; subst; reflexivity].
  subst l1. cbn [app].
  pose proof (dataToResult_issued W data query s1) as Hi.
  destruct (dataToResult W data _ s1) as [[r2 s2] l2].
  unfold requests in Hi; cbn [fst snd app] in *. rewrite Hi.
  destruct (Hd data eq_refl) as [-> | (imgs & Hcl & Himgs & ->)]; [left; reflexivity|].
  right. exists html, imgs. auto.
Qed.

(** Prepending the post to what answering the response issues. *)
Lemma post_then_respond W req response s0 (r : result CallToolResult) s2 l2 :
  fetch_response W req = Ok response -> ok response = true ->
  (map issued l2 = [] \/
   exists html imgs,
     text response = Ok html /\ classify html = Challenge /\
     images (captchaState s2) = Some imgs /\
     map issued l2 = map tile_request (List.filter Js.truthy imgs)) ->
  post_then_tiles W req (r, s2, Event req s0 :: l2).
Proof.
  intros Hresp Hok [Hnil | (html & imgs & Htext & Hcl & Himgs & Hl)]; unfold post_then_tiles;
    unfold requests, final; cbn [fst snd map issued].
  - left. rewrite Hnil. reflexivity.
  - right. exists response, html, imgs. rewrite Hl. repeat split; assumption.
Qed.

(** X1. A tool call never posts more than one form, and the only other
    requests it ever issues are tile downloads. [search] posts exactly
    once; [search_next] and [solve_captcha] either issue nothing or post
    exactly once; after the post come downloads only if it brought an ok
    challenge page, one GET per non-empty image URL of the descriptor then
    stored, in order. *)
Theorem tools_post_once W s :
  (forall query region dateFrame,
     post_then_tiles W (search_request W (search_body query region dateFrame))
                     (search W query region dateFrame s)) /\
  (requests (search_next W s) = [] \/
   exists token,
     nextFormData (searchState s) = Some token /\
     post_then_tiles W (search_request W token) (search_next W s)) /\
  (forall indices,
     requests (solve_captcha W indices s) = [] \/
     exists act sv names actionUrl,
       active (captchaState s) = Some (act, sv, names) /\
       URL_href W act base_url = Ok actionUrl /\
       post_then_tiles W (solve_request W actionUrl sv names indices)
                       (solve_captcha W indices s)).
Proof.
  split; [|split].
  - intros query region dateFrame. rewrite search_run. cbv zeta.
    destruct (fetch_response W _) as [response|e] eqn:Hresp; [|left; reflexivity].
    destruct (ok response) eqn:Hok; [|left; reflexivity].
    pose proof (respond_to_issued W response query (fresh query s)) as H.
    destruct (respond_to W response query (fresh query s)) as [[r s2] l2].
    apply (post_then_respond W _ response _ r s2 l2 Hresp Hok). exact H.
  - destruct (nextFormData (searchState s)) as [token|] eqn:Htok.
    2:{ left. rewrite (search_next_refuses W s (or_introl Htok)). reflexivity. }
    destruct (string_eq_dec token "") as [->|Hne].
    { left. rewrite (search_next_refuses W s (or_intror (or_introl Htok))). reflexivity. }
    destruct (Z_lt_le_dec 5 (currentPage (searchState s))) as [Hcap|Hcap].
    { left. rewrite (search_next_refuses W s (or_intror (or_intror Hcap))). reflexivity. }
    right. exists token. split; [reflexivity|].
    rewrite (search_next_run W s token Htok Hne Hcap).
    destruct (fetch_response W _) as [response|e] eqn:Hresp; [|left; reflexivity].
    destruct (ok response) eqn:Hok; [|left; reflexivity].
    pose proof (respond_issued W response "Error performing search: " (advanced s)) as H.
    destruct (respond W response "Error performing search: " (advanced s)) as [[r s2] l2].
    apply (post_then_respond W _ response _ r s2 l2 Hresp Hok). exact H.
  - intros indices.
    destruct (active (captchaState s)) as [[[act sv] names]|] eqn:Hact.
    2:{ left. rewrite (solve_captcha_inactive W indices s Hact). reflexivity. }
    rewrite (solve_captcha_run W indices s act sv names Hact).
    destruct (URL_href W act base_url) as [actionUrl|e] eqn:Hurl; [|left; reflexivity].
    right. exists act, sv, names, actionUrl. split; [reflexivity|]. split; [exact Hurl|].
    cbv zeta.
    destruct (fetch_response W _) as [response|e] eqn:Hresp; [|left; reflexivity].
    destruct (ok response) eqn:Hok; [|left; reflexivity].
    pose proof (respond_issued W response "Error solving CAPTCHA: " s) as H.
    destruct (respond W response "Error solving CAPTCHA: " s) as [[r s2] l2].
    apply (post_then_respond W _ response _ r s2 l2 Hresp Hok). exact H.
Qed.

(** X2. A response whose status is not a success short-circuits every
    tool before any parsing: the answer is an error naming the status
    code and text, exactly one request has been issued, nothing is
    downloaded, and the descriptor is untouched; [search] has by then
    reset the session and [search_next] has consumed its token. *)
Theorem transport_error_short_circuits W s response :
  ok response = false ->
  (forall query region dateFrame,
     fetch_response W (search_request W (search_body query region dateFrame)) = Ok response ->
     search W query region dateFrame s
     = (Ok (MkResult [TextItem ("Error fetching search results: " +:+
                                Js.toString (status response) +:+ " " +:+
                                statusText response)] (Some true)),
        fresh query s,
        [Event (search_request W (search_body query region dateFrame)) (fresh query s)])) /\
  (forall token,
     nextFormData (searchState s) = Some token -> token <> "" ->
     (currentPage (searchState s) <= 5)%Z ->
     fetch_response W (search_request W token) = Ok response ->
     search_next W s
     = (Ok (MkResult [TextItem ("Error fetching search results: " +:+
                                Js.toString (status response) +:+ " " +:+
                                statusText response)] (Some true)),
        advanced s,
        [Event (search_request W token) (advanced s)])) /\
  (forall indices act sv names actionUrl,
     active (captchaState s) = Some (act, sv, names) ->
     URL_href W act base_url = Ok actionUrl ->
     fetch_response W (solve_request W actionUrl sv names indices) = Ok response ->
     solve_captcha W indices s
     = (Ok (MkResult [TextItem ("Error solving CAPTCHA: " +:+
                                Js.toString (status response) +:+ " " +:+
                                statusText response)] (Some true)),
        s,
        [Event (solve_request W actionUrl sv names indices) s])).
Proof.
  intros Hok. split; [|split].
  - intros query region dateFrame Hresp. rewrite search_run. cbv zeta.
    rewrite Hresp, Hok. reflexivity.
  - intros token Htok Hne Hcap Hresp.
    rewrite (search_next_run W s token Htok Hne Hcap), Hresp, Hok. reflexivity.
  - intros indices act sv names actionUrl Hact Hurl Hresp.
    rewrite (solve_captcha_run W indices s act sv names Hact), Hurl. cbv zeta.
    rewrite Hresp, Hok. reflexivity.
Qed.

(** A refused search from the initial state. *)
Lemma transport_error_short_circuits_witness :
  ok Sample.refused = false /\
  search (Sample.platform (fun _ => Ok Sample.refused)) "ducks" None None initial_state
  = (Ok (MkResult [TextItem "Error fetching search results: 503 Service Unavailable"]
                  (Some true)),
     fresh "ducks" initial_state,
     [Event (search_request (Sample.platform (fun _ => Ok Sample.refused)) "q=ducks&b=")
            (fresh "ducks" initial_state)]).
Proof.
  split; [reflexivity|].
  exact (proj1 (transport_error_short_circuits
                  (Sample.platform (fun _ => Ok Sample.refused)) initial_state
                  Sample.refused eq_refl) "ducks" None None eq_refl).
Defined.

(* ===================================================================== *)
(** * Further properties: the page counter                                *)
(* ===================================================================== *)

(** One [search_next]: the page number advances by one exactly when the
    call issues its request, which it only does up to page 5; the query
    stays. *)
Lemma search_next_step W s :
  currentPage (searchState (final (search_next W s)))
  = (currentPage (searchState s) + Z.of_nat (posted (search_next W s)))%Z /\
  (posted (search_next W s) = 1 -> (currentPage (searchState s) <= 5)%Z) /\
  currentQuery (searchState (final (search_next W s))) = currentQuery (searchState s).
Proof.
  assert (Hstay : forall H : nextFormData (searchState s) = None \/
                             nextFormData (searchState s) = Some "" \/
                             (5 < currentPage (searchState s))%Z,
            currentPage (searchState (final (search_next W s)))
            = (currentPage (searchState s) + Z.of_nat (posted (search_next W s)))%Z /\
            (posted (search_next W s) = 1 -> (currentPage (searchState s) <= 5)%Z) /\
            currentQuery (searchState (final (search_next W s)))
            = currentQuery (searchState s)).
  { intros H. rewrite (search_next_refuses W s H). unfold posted, final, requests; cbn.
    split; [lia|]. split; [discriminate|reflexivity]. }
  destruct (nextFormData (searchState s)) as [token|] eqn:Htok; [|apply Hstay; auto].
  destruct (string_eq_dec token "") as [->|Hne]; [apply Hstay; auto|].
  destruct (Z_lt_le_dec 5 (currentPage (searchState s))) as [Hcap|Hcap]; [apply Hstay; auto|].
  clear Hstay. rewrite (search_next_run W s token Htok Hne Hcap).
  destruct (fetch_response W _) as [response|e].
  - destruct (ok response).
    + pose proof (respond_effect W response "Error performing search: " (advanced s))
        as (Hq & Hp & _).
      destruct (respond W response "Error performing search: " (advanced s)) as [[r s2] l2].
      unfold posted, final, requests in *; cbn [fst snd] in *.
      rewrite Hq, Hp. cbn. split; [lia|]. split; [intros _; exact Hcap|reflexivity].
    + unfold posted, final, requests; cbn. split; [lia|]. split; [intros _; exact Hcap|reflexivity].
  - unfold posted, final, requests; cbn. split; [lia|]. split; [intros _; exact Hcap|reflexivity].
Qed.

Lemma browse_pages (Ws : list world) : forall s,
  currentPage (searchState (fst (browse Ws s)))
  = (currentPage (searchState s) + Z.of_nat (snd (browse Ws s)))%Z /\
  (Z.of_nat (snd (browse Ws s)) <= Z.max 0 (6 - currentPage (searchState s)))%Z.
Proof.
  induction Ws as [|W Ws IH]; intros s; cbn [browse fst snd].
  - split; lia.
  - destruct (IH (final (search_next W s))) as [IHp IHn].
    destruct (search_next_step W s) as (Hp & Hcap & _).
    rewrite IHp, Hp. split; [lia|].
    assert (Hposted : posted (search_next W s) = 0 \/ posted (search_next W s) = 1).
    { unfold posted. destruct (requests (search_next W s)); auto. }
    destruct Hposted as [H0 | H1].
    + rewrite H0 in *. lia.
    + specialize (Hcap H1). rewrite H1 in *. lia.
Qed.

(** X3. The page counter counts the requests of [search_next]: however
    often it is called and whatever the transport answers, the page
    number is the one it started from plus the number of calls that
    issued a request, and no more than five calls in a row following a
    [search] ever issue one. *)
Theorem at_most_five_next_pages W query region dateFrame s (Ws : list world) :
  currentPage (searchState (fst (browse Ws (final (search W query region dateFrame s)))))
  = (1 + Z.of_nat (snd (browse Ws (final (search W query region dateFrame s)))))%Z /\
  snd (browse Ws (final (search W query region dateFrame s))) <= 5.
Proof.
  destruct (browse_pages Ws (final (search W query region dateFrame s))) as [Hp Hn].
  assert (H1 : currentPage (searchState (final (search W query region dateFrame s))) = 1%Z).
  { rewrite search_run. cbv zeta.
    destruct (fetch_response W _) as [response|e]; [|reflexivity].
    destruct (ok response); [|reflexivity].
    pose proof (respond_to_effect W response query (fresh query s)) as (_ & Hpage & _).
    destruct (respond_to W response query (fresh query s)) as [[r s2] l2].
    exact Hpage. }
  rewrite H1 in *. split; [exact Hp|lia].
Qed.

(** X4. [solve_captcha] never changes the query or the page number, and
    [search_next] never changes the query; the page number after
    [search_next] is the one before plus one if the call issued a request
    and unchanged if it did not. *)
Theorem session_frame W s :
  (forall indices,
     currentQuery (searchState (final (solve_captcha W indices s)))
     = currentQuery (searchState s) /\
     currentPage (searchState (final (solve_captcha W indices s)))
     = currentPage (searchState s)) /\
  currentQuery (searchState (final (search_next W s))) = currentQuery (searchState s) /\
  currentPage (searchState (final (search_next W s)))
  = (currentPage (searchState s) + Z.of_nat (posted (search_next W s)))%Z.
Proof.
  split.
  - intros indices.
    destruct (active (captchaState s)) as [[[act sv] names]|] eqn:Hact.
    2:{ rewrite (solve_captcha_inactive W indices s Hact). split; reflexivity. }
    rewrite (solve_captcha_run W indices s act sv names Hact).
    destruct (URL_href W act base_url) as [actionUrl|e]; [|split; reflexivity].
    cbv zeta.
    destruct (fetch_response W _) as [response|e]; [|split; reflexivity].
    destruct (ok response); [|split; reflexivity].
    pose proof (respond_effect W response "Error solving CAPTCHA: " s) as (Hq & Hp & _).
    destruct (respond W response "Error solving CAPTCHA: " s) as [[r s2] l2].
    split; assumption.
  - destruct (search_next_step W s) as (Hp & _ & Hq). split; assumption.
Qed.

(** X5. In every state the server can reach, the page number is between
    1 and 6. *)
Theorem page_number_bounds s :
  reachable s -> (1 <= currentPage (searchState s) <= 6)%Z.
Proof. intros H. exact (proj1 (reachable_invariant s H)). Qed.

(** The state after a [search] and two [search_next] calls, each answered
    by a results page with a next-page control: page 3. *)
Lemma page_number_bounds_witness :
  reachable
    (final (search_next Sample.paging
       (final (search_next Sample.paging
          (final (search Sample.paging "ducks" None None initial_state)))))) /\
  (1 <= currentPage (searchState
         (final (search_next Sample.paging
            (final (search_next Sample.paging
               (final (search Sample.paging "ducks" None None initial_state)))))))
   <= 6)%Z /\
  currentPage (searchState
    (final (search_next Sample.paging
       (final (search_next Sample.paging
          (final (search Sample.paging "ducks" None None initial_state)))))))
  = 3%Z.
Proof.
  split; [repeat constructor|].
  split; [|reflexivity].
  exact (page_number_bounds _
           (reach_search_next Sample.paging _ (reach_search_next Sample.paging _
              (reach_search Sample.paging "ducks" None None _ reach_initial)))).
Defined.

(* ===================================================================== *)
(** * Further properties: what an answer depends on                       *)
(* ===================================================================== *)

Lemma try_catch_outcome {A} (m : M A) (h : string -> A) s :
  outcome (try_catch m (fun e => ret (h e)) s)
  = match outcome (m s) with
    | Ok a => Ok a
    | Throw e => Ok (h e)
    end.
Proof. unfold try_catch. destruct (m s) as [[[a|e] s1] l1]; reflexivity. Qed.

(** What the parser returns does not depend on the state it runs in. *)
Lemma parse_outcome_stateless W html s s' :
  outcome (parseSearchResults W html s) = outcome (parseSearchResults W html s').
Proof.
  destruct (has html (Cheerio.by_id "challenge-form")) eqn:H1.
  { destruct (each_image W html (tiles html) [] []) as [[imgs names]|e] eqn:Himgs.
    - rewrite !(parse_challenge W html _ imgs names H1 Himgs). reflexivity.
    - rewrite !(parse_challenge_throws W html _ e H1 Himgs). reflexivity. }
  destruct (has html (Cheerio.by_id "error-form")) eqn:H2.
  { unfold parseSearchResults. unfold has in H1, H2. rewrite H1, H2. reflexivity. }
  destruct (has html (Cheerio.by_id "success-form")) eqn:H3.
  { rewrite !(parse_success W html _ H1 H2 H3). reflexivity. }
  destruct (has html (Cheerio.by_class "results")) eqn:H4.
  - rewrite !(parse_results W html _ H1 H2 H3 H4). reflexivity.
  - rewrite !(parse_unknown W html _ H1 H2 H3 H4). reflexivity.
Qed.

(** The session the parser leaves depends on the session it found only. *)
Lemma parse_session W html s s' :
  searchState s = searchState s' ->
  searchState (final (parseSearchResults W html s))
  = searchState (final (parseSearchResults W html s')).
Proof.
  intros Hs.
  destruct (has html (Cheerio.by_id "challenge-form")) eqn:H1.
  { destruct (each_image W html (tiles html) [] []) as [[imgs names]|e] eqn:Himgs.
    - rewrite !(parse_challenge W html _ imgs names H1 Himgs). exact Hs.
    - rewrite !(parse_challenge_throws W html _ e H1 Himgs). exact Hs. }
  destruct (has html (Cheerio.by_id "error-form")) eqn:H2.
  { destruct (parse_failed W html s H1 H2) as (error & next & ->).
    destruct (parse_failed W html s' H1 H2) as (error' & next' & ->). exact Hs. }
  destruct (has html (Cheerio.by_id "success-form")) eqn:H3.
  { rewrite !(parse_success W html _ H1 H2 H3). exact Hs. }
  destruct (has html (Cheerio.by_class "results")) eqn:H4.
  - rewrite !(parse_results W html _ H1 H2 H3 H4). unfold final; cbn [fst snd].
    destruct (_ =? 0)%nat; [exact Hs|]. unfold with_token; cbn. rewrite Hs. reflexivity.
  - rewrite !(parse_unknown W html _ H1 H2 H3 H4). exact Hs.
Qed.

(** Neither does what rendering returns and requests. *)
Lemma dataToResult_stateless W data query s s' :
  outcome (dataToResult W data query s) = outcome (dataToResult W data query s').
Proof.
  destruct data as [error challenge imgs| | | |]; try reflexivity.
  rewrite !dataToResult_captcha. unfold compositor_path, unavailable.
  destruct (_ =? 9)%nat; [|reflexivity].
  destruct (compose W _); [|reflexivity].
  destruct (encodePNGToStream W _); reflexivity.
Qed.

Lemma respond_to_stateless W response query s s' :
  outcome (respond_to W response query s) = outcome (respond_to W response query s') /\
  map issued (requests (respond_to W response query s))
  = map issued (requests (respond_to W response query s')).
Proof.
  unfold respond_to. rewrite !try_catch_outcome, !try_catch_requests.
  destruct (text response) as [html|e]; [|split; reflexivity].
  rewrite !bind_lift_ok. unfold bind.
  pose proof (parse_outcome_stateless W html s s') as Ho.
  pose proof (proj1 (parse_effect W html s)) as Hl.
  pose proof (proj1 (parse_effect W html s')) as Hl'.
  destruct (parseSearchResults W html s) as [[[data|e] s1] l1];
    destruct (parseSearchResults W html s') as [[[data'|e'] s1'] l1'];
    unfold outcome, requests in *; cbn [fst snd] in *; try discriminate;
    subst l1 l1'.
  - inversion Ho; subst data'.
    pose proof (dataToResult_stateless W data query s1 s1') as Hd.
    pose proof (dataToResult_issued W data query s1) as Hi.
    pose proof (dataToResult_issued W data query s1') as Hi'.
    destruct (dataToResult W data query s1) as [[r2 s2] l2].
    destruct (dataToResult W data query s1') as [[r2' s2'] l2'].
    unfold outcome, requests in *; cbn [fst snd app] in *.
    rewrite Hd, Hi, Hi'. split; reflexivity.
  - inversion Ho; subst. split; reflexivity.
Qed.

(** X6. What [search] answers and which requests it issues depend on
    the query, the filters and the platform only, never on the session,
    the descriptor or the images left by earlier calls; the session it
    leaves is the same from every state. *)
Theorem search_forgets_the_past W query region dateFrame s s' :
  outcome (search W query region dateFrame s) = outcome (search W query region dateFrame s') /\
  map issued (requests (search W query region dateFrame s))
  = map issued (requests (search W query region dateFrame s')) /\
  searchState (final (search W query region dateFrame s))
  = searchState (final (search W query region dateFrame s')).
Proof.
  rewrite !search_run. cbv zeta.
  destruct (fetch_response W _) as [response|e]; [|repeat split].
  destruct (ok response) eqn:Hok; [|repeat split].
  destruct (respond_to_stateless W response query (fresh query s) (fresh query s'))
    as [Ho Hr].
  assert (Hs : searchState (final (respond_to W response query (fresh query s)))
               = searchState (final (respond_to W response query (fresh query s')))).
  { unfold respond_to. rewrite !try_catch_final.
    destruct (text response) as [html|e]; [|reflexivity].
    rewrite !bind_lift_ok.
    rewrite (proj1 (parse_render_fixed W html query (fresh query s))).
    rewrite (proj1 (parse_render_fixed W html query (fresh query s'))).
    apply parse_session. reflexivity. }
  destruct (respond_to W response query (fresh query s)) as [[r s2] l2].
  destruct (respond_to W response query (fresh query s')) as [[r' s2'] l2'].
  unfold outcome, requests, final in *; cbn [fst snd map issued] in *.
  rewrite Ho, Hr, Hs. repeat split.
Qed.

(** X7. Rendering a parse result never throws except on the compositor
    path, always answers with a single text item, and flags an error for
    a failed challenge only: an unrecognized page, a blocked search and a
    challenge to solve are all reported as ordinary text. *)
Theorem only_failed_challenge_is_flagged W data query s :
  (class_of data <> Challenge ->
   exists message,
     dataToResult W data query s
     = (Ok (MkResult [TextItem message]
              (if JsString.eqb (mode data) "captcha-failed" then Some true else None)),
        s, [])) /\
  (forall res, outcome (dataToResult W data query s) = Ok res ->
     exists message,
       res = MkResult [TextItem message]
               (if JsString.eqb (mode data) "captcha-failed" then Some true else None)).
Proof.
  split.
  - intros Hc. destruct data; try (eexists; reflexivity). exfalso; apply Hc; reflexivity.
  - intros res Hres.
    destruct data as [error challenge imgs| | | |];
      try (inversion Hres; subst; eexists; reflexivity).
    rewrite dataToResult_captcha in Hres. unfold compositor_path, unavailable in Hres.
    destruct (_ =? 9)%nat; [|inversion Hres; subst; eexists; reflexivity].
    destruct (compose W _); [|discriminate].
    destruct (encodePNGToStream W _); [|discriminate].
    inversion Hres; subst. eexists; reflexivity.
Qed.

(* ===================================================================== *)
(** * Further properties: the body of a search                            *)
(* ===================================================================== *)

Lemma property_listed k (obj : list (string * string)) v :
  Js.property k obj = Some v -> In v (map snd obj).
Proof.
  induction obj as [|[k0 v0] obj IH]; cbn [Js.property map snd In]; [discriminate|].
  destruct (JsString.eqb k0 k); [|auto].
  intros H. inversion H. auto.
Qed.

(** The codes of a table of well-formed strings are well formed. *)
Lemma table_code_text (table : list (string * string)) key code :
  forallb Js.isWellFormed (map snd table) = true ->
  code_of table key = Some code -> Js.toWellFormed code = code.
Proof.
  intros Htable Hcode. apply Utf8Facts.toWellFormed_id.
  rewrite forallb_forall in Htable. apply Htable.
  unfold code_of in Hcode. destruct key as [k|]; [|discriminate].
  destruct (Js.truthy k); [|discriminate].
  destruct (Js.property k table) as [c|] eqn:Hc; [|discriminate].
  destruct (Js.truthy c); [|discriminate].
  inversion Hcode; subst. exact (property_listed k table code Hc).
Qed.

Lemma search_form_entries query region dateFrame :
  URLSearchParams.entries (search_form query region dateFrame)
  = search_form (Js.toWellFormed query) region dateFrame.
Proof.
  unfold search_form, URLSearchParams.entries.
  assert (Hr : forallb Js.isWellFormed (map snd supportedRegions) = true)
    by (vm_compute; reflexivity).
  assert (Hd : forallb Js.isWellFormed (map snd supportedDateFrame) = true)
    by (vm_compute; reflexivity).
  destruct (code_of supportedRegions region) as [kl|] eqn:Hkl;
    destruct (code_of supportedDateFrame dateFrame) as [df|] eqn:Hdf;
    cbn [map app fst snd];
    rewrite ?(table_code_text _ _ _ Hr Hkl), ?(table_code_text _ _ _ Hd Hdf);
    reflexivity.
Qed.

(** X8. The body [search] posts decodes, as a form, to the query under
    [q], then the region code under [kl] and the date code under [df]
    when the filter is one of the listed ones with a non-empty code, then
    an empty [b]. The query arrives exactly as given when it is well
    formed; in general it arrives as its well-formed version, every
    surrogate outside a pair replaced by U+FFFD. In both tables every key
    gives its own code, [global] and [any] giving no filter. *)
Theorem search_body_decodes query region dateFrame :
  URLSearchParams.parse (search_body query region dateFrame)
  = search_form (Js.toWellFormed query) region dateFrame /\
  (Js.isWellFormed query = true ->
   URLSearchParams.parse (search_body query region dateFrame)
   = search_form query region dateFrame) /\
  table_ok supportedRegions = true /\ table_ok supportedDateFrame = true /\
  code_of supportedRegions (Some "global") = None /\
  code_of supportedDateFrame (Some "any") = None /\
  search_form query None None = [("q", query); ("b", "")].
Proof.
  assert (H : URLSearchParams.parse (search_body query region dateFrame)
              = search_form (Js.toWellFormed query) region dateFrame).
  { rewrite <- search_form_entries. unfold search_body, search_form.
    rewrite FormRoundTrip.parse_toString.
    destruct (code_of supportedRegions region) as [kl|];
      destruct (code_of supportedDateFrame dateFrame) as [df|]; reflexivity. }
  split; [exact H|]. split.
  { intros Hwf. rewrite H, (Utf8Facts.toWellFormed_id query Hwf). reflexivity. }
  repeat split; vm_compute; reflexivity.
Qed.

(* ===================================================================== *)
(** * Further properties: the image server                                *)
(* ===================================================================== *)

(** The path under which a call on this platform stores its composite. *)
Lemma serve_published path png s :
  serve (Some path) (published path png s) = (200%Z, Some png) /\
  forall other, other <> path ->
    serve (Some other) (published path png s) = serve (Some other) s.
Proof.
  unfold serve, published; cbn [captchaImages Js.or_empty]. split.
  - rewrite lookup_insert_eq. reflexivity.
  - intros other Hne. rewrite lookup_insert_ne by congruence. reflexivity.
Qed.

Lemma serve_expired path s :
  serve (Some path) (expire path s) = (404%Z, None) /\
  forall other, other <> path ->
    serve (Some other) (expire path s) = serve (Some other) s.
Proof.
  unfold serve, expire; cbn [captchaImages Js.or_empty]. split.
  - rewrite lookup_delete_eq. reflexivity.
  - intros other Hne. rewrite lookup_delete_ne by congruence. reflexivity.
Qed.

(** X9. When rendering a challenge ends with an answer and nine tiles
    were downloaded, the answer is the instruction text naming the path
    [/<random hex>.png]; the image server then answers 200 with the
    encoded composite for exactly that path, every other path is served
    as before, a timeout of five minutes is pending for the path, and
    once it has fired the path is answered with 404. *)
Theorem composite_is_served W error challenge imgs query s res s2 l :
  dataToResult W (Captcha error challenge imgs) query s = (Ok res, s2, l) ->
  List.length (omap (fetched W) imgs) = 9 ->
  res = MkResult [TextItem (solve_instructions W challenge
                              ("/" +:+ randomBytes_hex W +:+ ".png"))] None /\
  (exists c png,
     compose W (omap (fetched W) imgs) = Ok c /\ encodePNGToStream W c = Ok png /\
     serve (Some ("/" +:+ randomBytes_hex W +:+ ".png")) s2 = (200%Z, Some png)) /\
  (forall other, other <> "/" +:+ randomBytes_hex W +:+ ".png" ->
     serve (Some other) s2 = serve (Some other) s) /\
  In ((5 * 60 * 1000)%Z, "/" +:+ randomBytes_hex W +:+ ".png") (timeouts s2) /\
  serve (Some ("/" +:+ randomBytes_hex W +:+ ".png"))
        (expire ("/" +:+ randomBytes_hex W +:+ ".png") s2)
  = (404%Z, None).
Proof.
  intros Hrun Hlen. rewrite dataToResult_captcha, Hlen in Hrun. cbn [Nat.eqb] in Hrun.
  unfold compositor_path in Hrun.
  destruct (compose W _) as [c|e] eqn:Hc; [|discriminate].
  destruct (encodePNGToStream W c) as [png|e] eqn:Hpng; [|discriminate].
  inversion Hrun; subst res s2 l. clear Hrun.
  destruct (serve_published ("/" +:+ randomBytes_hex W +:+ ".png") png s) as [Hhit Hmiss].
  split; [reflexivity|]. split; [exists c, png; auto|]. split; [exact Hmiss|].
  split.
  - unfold published; cbn [timeouts]. apply in_or_app. right. left. reflexivity.
  - apply serve_expired.
Qed.

(** The nine tiles of [Sample.duck_challenge], all served as JPEG data. *)
Lemma composite_is_served_witness :
  List.length
    (omap (fetched (Sample.platform (Sample.serving Sample.duck_challenge Sample.jpeg)))
          (map (fun stem => "https://duckduckgo.com" +:+ Sample.tile_path stem) Sample.stems))
  = 9 /\
  serve (Some "/00112233445566778899aabbccddeeff.png")
        (final (dataToResult
                  (Sample.platform (Sample.serving Sample.duck_challenge Sample.jpeg))
                  (Captcha "Search blocked by CAPTCHA challenge."
                           "Select all squares containing a duck:"
                           (map (fun stem => "https://duckduckgo.com" +:+ Sample.tile_path stem)
                                Sample.stems))
                  "ducks" initial_state))
  = (200%Z, Some "PNG 768x768").
Proof.
  split; [reflexivity|].
  destruct (dataToResult
              (Sample.platform (Sample.serving Sample.duck_challenge Sample.jpeg))
              (Captcha "Search blocked by CAPTCHA challenge."
                       "Select all squares containing a duck:"
                       (map (fun stem => "https://duckduckgo.com" +:+ Sample.tile_path stem)
                            Sample.stems))
              "ducks" initial_state) as [[[res|e] s2] l] eqn:Hrun.
  - destruct (composite_is_served _ _ _ _ _ _ _ _ _ Hrun eq_refl)
      as (_ & (c & png & Hc & Hpng & Hserved) & _).
    unfold final; cbn [fst snd].
    assert (Hs : serve (Some "/00112233445566778899aabbccddeeff.png") s2
                 = (200%Z, Some png)) by exact Hserved.
    rewrite Hs. vm_compute in Hc. inversion Hc; subst c.
    vm_compute in Hpng. inversion Hpng. reflexivity.
  - vm_compute in Hrun. discriminate.
Defined.

Lemma fired_keeps path (pending : list (Z * string)) t q :
  q <> path -> In (t, q) pending -> In (t, q) (fired path pending).
Proof.
  intros Hne. induction pending as [|[t' q'] pending IH]; [auto|].
  cbn [fired snd]. intros [Heq | Hin].
  - inversion Heq; subst. destruct (JsString.eqb q path) eqn:E.
    + apply StringFacts.string_eqb_eq in E. congruence.
    + left; reflexivity.
  - destruct (JsString.eqb q' path); [exact Hin|]. right. apply IH, Hin.
Qed.

Lemma images_expire_same s s' :
  captchaImages s' = captchaImages s -> timeouts s' = timeouts s ->
  images_expire s -> images_expire s'.
Proof. unfold images_expire. intros -> ->. auto. Qed.

Lemma images_expire_published hex png s :
  images_expire s -> images_expire (published ("/" +:+ hex +:+ ".png") png s).
Proof.
  intros Hs path image. unfold published; cbn [captchaImages timeouts].
  destruct (decide (path = "/" +:+ hex +:+ ".png")) as [->|Hne].
  - intros _. split; [eauto|]. apply in_or_app. right. left. reflexivity.
  - rewrite lookup_insert_ne by congruence. intros H. destruct (Hs path image H) as [Hp Ht].
    split; [exact Hp|]. apply in_or_app. left. exact Ht.
Qed.

Lemma images_expire_expire path s : images_expire s -> images_expire (expire path s).
Proof.
  intros Hs q image. unfold expire; cbn [captchaImages timeouts].
  destruct (decide (q = path)) as [->|Hne].
  - rewrite lookup_delete_eq. discriminate.
  - rewrite lookup_delete_ne by congruence. intros H. destruct (Hs q image H) as [Hp Ht].
    split; [exact Hp|]. apply fired_keeps; assumption.
Qed.

Lemma parse_store W html s :
  captchaImages (final (parseSearchResults W html s)) = captchaImages s /\
  timeouts (final (parseSearchResults W html s)) = timeouts s.
Proof.
  destruct (parse_effect W html s) as [_ [-> | [[_ [c ->]] | [_ ->]]]]; split; reflexivity.
Qed.

Lemma dataToResult_final W data query s :
  final (dataToResult W data query s) = s \/
  exists png,
    final (dataToResult W data query s)
    = published ("/" +:+ randomBytes_hex W +:+ ".png") png s.
Proof.
  destruct data as [error challenge imgs| | | |]; try (left; reflexivity).
  rewrite dataToResult_captcha. unfold compositor_path, unavailable.
  destruct (_ =? 9)%nat; [|left; reflexivity].
  destruct (compose W _); [|left; reflexivity].
  destruct (encodePNGToStream W _) as [png|e]; [|left; reflexivity].
  right. exists png. reflexivity.
Qed.

Lemma render_images W html (query : state -> string) s :
  images_expire s ->
  images_expire (final ((data <- parseSearchResults W html ;;
                         s' <- get ;; dataToResult W data (query s')) s)).
Proof.
  intros Hs. unfold bind, get.
  destruct (parse_store W html s) as [Hi Ht].
  destruct (parseSearchResults W html s) as [[[data|e] s1] l1];
    unfold final in *; cbn [fst snd] in *.
  - pose proof (images_expire_same s s1 Hi Ht Hs) as Hs1.
    destruct (dataToResult_final W data (query s1) s1) as [Hf | [png Hf]];
      destruct (dataToResult W data (query s1) s1) as [[r2 s2] l2];
      unfold final in Hf; cbn [fst snd] in *; subst s2.
    + exact Hs1.
    + apply images_expire_published, Hs1.
  - exact (images_expire_same s s1 Hi Ht Hs).
Qed.

Lemma respond_images W response failure s :
  images_expire s -> images_expire (final (respond W response failure s)).
Proof.
  intros Hs. unfold respond. rewrite try_catch_final.
  destruct (text response) as [html|e].
  - rewrite bind_lift_ok.
    apply (render_images W html (fun s' => Js.or_empty (currentQuery (searchState s'))) s Hs).
  - rewrite bind_lift_throw. exact Hs.
Qed.

Lemma respond_to_images W response query s :
  images_expire s -> images_expire (final (respond_to W response query s)).
Proof.
  intros Hs. unfold respond_to. rewrite try_catch_final.
  destruct (text response) as [html|e].
  - rewrite bind_lift_ok.
    pose proof (render_images W html (fun _ => query) s Hs) as H.
    unfold bind, get in *.
    destruct (parseSearchResults W html s) as [[[data|e] s1] l1]; [|exact H].
    cbn in H. destruct (dataToResult W data query s1) as [[r2 s2] l2]. exact H.
  - rewrite bind_lift_throw. exact Hs.
Qed.

Lemma reachable_images s : reachable s -> images_expire s.
Proof.
  induction 1 as [|W query region dateFrame s _ IH|W s _ IH|W indices s _ IH|imageUrl s _ IH].
  - intros path image H. change (captchaImages initial_state) with (∅ : gmap string buffer) in H.
    rewrite lookup_empty in H. discriminate.
  - rewrite search_run. cbv zeta.
    assert (Hf : images_expire (fresh query s))
      by (apply (images_expire_same s); [reflexivity|reflexivity|exact IH]).
    destruct (fetch_response W _) as [response|e]; [|exact Hf].
    destruct (ok response); [|exact Hf].
    pose proof (respond_to_images W response query (fresh query s) Hf) as H.
    destruct (respond_to W response query (fresh query s)) as [[r s2] l2]. exact H.
  - destruct (nextFormData (searchState s)) as [token|] eqn:Htok.
    2:{ rewrite (search_next_refuses W s (or_introl Htok)). exact IH. }
    destruct (string_eq_dec token "") as [->|Hne].
    { rewrite (search_next_refuses W s (or_intror (or_introl Htok))). exact IH. }
    destruct (Z_lt_le_dec 5 (currentPage (searchState s))) as [Hcap|Hcap].
    { rewrite (search_next_refuses W s (or_intror (or_intror Hcap))). exact IH. }
    rewrite (search_next_run W s token Htok Hne Hcap).
    assert (Hf : images_expire (advanced s))
      by (apply (images_expire_same s); [reflexivity|reflexivity|exact IH]).
    destruct (fetch_response W _) as [response|e]; [|exact Hf].
    destruct (ok response); [|exact Hf].
    pose proof (respond_images W response "Error performing search: " (advanced s) Hf) as H.
    destruct (respond W response "Error performing search: " (advanced s)) as [[r s2] l2].
    exact H.
  - destruct (active (captchaState s)) as [[[act sv] names]|] eqn:Hact.
    2:{ rewrite (solve_captcha_inactive W indices s Hact). exact IH. }
    rewrite (solve_captcha_run W indices s act sv names Hact).
    destruct (URL_href W act base_url) as [actionUrl|e]; [|exact IH].
    cbv zeta.
    destruct (fetch_response W _) as [response|e]; [|exact IH].
    destruct (ok response); [|exact IH].
    pose proof (respond_images W response "Error solving CAPTCHA: " s IH) as H.
    destruct (respond W response "Error solving CAPTCHA: " s) as [[r s2] l2]. exact H.
  - apply images_expire_expire, IH.
Qed.

(** X10. In every state the server can reach, each stored image sits
    under a path of the form [/....png] and has a timeout of five minutes
    pending that will delete it; so a request without a path, or with the
    empty path, is always answered with 404. *)
Theorem stored_images_expire s :
  reachable s ->
  images_expire s /\
  serve None s = (404%Z, None) /\ serve (Some "") s = (404%Z, None).
Proof.
  intros H. pose proof (reachable_images s H) as Hs. split; [exact Hs|].
  assert (Hnone : captchaImages s !! "" = None).
  { destruct (captchaImages s !! "") as [image|] eqn:E; [|reflexivity].
    destruct (Hs "" image E) as [[hex Hhex] _]. discriminate. }
  unfold serve; cbn [Js.or_empty]. rewrite Hnone. split; reflexivity.
Qed.

(** The state after a [search] answered by a nine-tile challenge. *)
Lemma stored_images_expire_witness :
  reachable (final (search (Sample.platform (Sample.serving Sample.duck_challenge Sample.jpeg))
                           "ducks" None None initial_state)) /\
  timeouts (final (search (Sample.platform (Sample.serving Sample.duck_challenge Sample.jpeg))
                          "ducks" None None initial_state))
  = [(300000%Z, "/00112233445566778899aabbccddeeff.png")] /\
  serve None (final (search (Sample.platform (Sample.serving Sample.duck_challenge Sample.jpeg))
                            "ducks" None None initial_state))
  = (404%Z, None).
Proof.
  split; [repeat constructor|]. split; [reflexivity|].
  exact (proj1 (proj2 (stored_images_expire _
           (reach_search (Sample.platform (Sample.serving Sample.duck_challenge Sample.jpeg))
                         "ducks" None None _ reach_initial)))).
Defined.

(* ===================================================================== *)
(** * Further properties: from tile sources to checkbox names             *)
(* ===================================================================== *)

Lemma split_not_nil sep s : Js.split sep s <> [].
Proof.
  destruct s as [|c s]; cbn [Js.split]; [discriminate|].
  destruct (Unit.eqb c sep); [discriminate|]. destruct (Js.split sep s); discriminate.
Qed.

Lemma split_length_after sep (a b : string) :
  2 <= List.length (Js.split sep (a +:+ String sep b)).
Proof.
  induction a as [|c a IH]; simpl.
  - rewrite UnitFacts.unit_eqb_refl. simpl.
    pose proof (split_not_nil sep b). destruct (Js.split sep b); [congruence|simpl; lia].
  - destruct (Unit.eqb c sep); [simpl; lia|].
    destruct (Js.split sep (a +:+ String sep b)); simpl in *; lia.
Qed.

(** The last piece of a split is the last piece of what follows any
    separator. *)
Lemma pop_after sep (a b : string) :
  Js.pop (Js.split sep (a +:+ String sep b)) = Js.pop (Js.split sep b).
Proof.
  unfold Js.pop. induction a as [|c a IH]; simpl.
  - rewrite UnitFacts.unit_eqb_refl. pose proof (split_not_nil sep b).
    destruct (Js.split sep b); [congruence|reflexivity].
  - pose proof (split_length_after sep a b) as Hlen.
    destruct (Unit.eqb c sep).
    + destruct (Js.split sep (a +:+ String sep b)); [simpl in Hlen; lia|exact IH].
    + destruct (Js.split sep (a +:+ String sep b)) as [|h [|h' t]];
        simpl in Hlen; try lia. exact IH.
Qed.

Lemma replace_extension (stem : string) :
  URLSearchParams.free_of "." stem = true -> Js.replace ".jpg" "" (stem +:+ ".jpg") = stem.
Proof.
  induction stem as [|c stem IH]; [reflexivity|].
  intros H.
  change (negb (Unit.eqb c ".") && URLSearchParams.free_of "." stem = true) in H.
  apply andb_true_iff in H. destruct H as [Hc Hs].
  apply negb_true_iff in Hc. rewrite UnitFacts.unit_eqb_sym in Hc.
  change (Js.replace ".jpg" "" (String c stem +:+ ".jpg"))
    with (match (if Unit.eqb "." c then Js.strip_prefix "jpg" (stem +:+ ".jpg") else None) with
          | Some r => "" +:+ r
          | None => String c (Js.replace ".jpg" "" (stem +:+ ".jpg"))
          end).
  rewrite Hc, (IH Hs). reflexivity.
Qed.

(** X11. For a tile whose source is [dir/stem.jpg], where the stem
    contains neither a slash nor a dot, the file name the parser derives
    is the stem, so the checkbox name is [image-check_stem]; a source
    that ends in a slash, like the empty source, gives the empty file
    name and hence no checkbox name. *)
Theorem filename_of_jpg (dir stem : string) :
  URLSearchParams.free_of "/" stem = true ->
  URLSearchParams.free_of "." stem = true ->
  filename_of (dir +:+ "/" +:+ stem +:+ ".jpg") = stem /\
  filename_of (dir +:+ "/") = "" /\
  filename_of "" = "".
Proof.
  intros Hslash Hdot. unfold filename_of. split; [|split; [|reflexivity]].
  - change (dir +:+ "/" +:+ stem +:+ ".jpg") with (dir +:+ String "/" (stem +:+ ".jpg")).
    rewrite pop_after.
    assert (Hfree : URLSearchParams.free_of "/" (stem +:+ ".jpg") = true).
    { rewrite FormRoundTrip.free_of_append, Hslash. reflexivity. }
    rewrite (FormRoundTrip.split_free "/" _ Hfree). cbn [Js.pop last fmap option_fmap option_map].
    rewrite (replace_extension stem Hdot). reflexivity.
  - change (dir +:+ "/") with (dir +:+ String "/" EmptyString).
    rewrite pop_after. reflexivity.
Qed.

(** The tile [/assets/anomaly/images/challenge/a.jpg]. *)
Lemma filename_of_jpg_witness :
  URLSearchParams.free_of "/" "a" = true /\
  filename_of "/assets/anomaly/images/challenge/a.jpg" = "a".
Proof.
  split; [reflexivity|].
  exact (proj1 (filename_of_jpg "/assets/anomaly/images/challenge" "a" eq_refl eq_refl)).
Defined.

(** X12. When the parser stores a descriptor, its image URLs are the tile
    sources resolved against [https://duckduckgo.com], tile by tile in
    document order, whether or not the tiles have file names, and its
    checkbox names are those of the tiles that have a file name, in
    document order; and when every tile has a file name, the checkbox
    names are matched with the tiles one to one, so that the index k+1
    given to [solve_captcha] selects the checkbox of the tile at position
    k, the one whose image URL is at position k. *)
Theorem tiles_are_matched W html s data :
  classify html = Challenge ->
  outcome (parseSearchResults W html s) = Ok data ->
  exists imgs names,
    images (captchaState (final (parseSearchResults W html s))) = Some imgs /\
    checkboxNames (captchaState (final (parseSearchResults W html s))) = Some names /\
    Forall2 (fun elem u => URL_href W (tile_src html elem) base_url = Ok u) (tiles html) imgs /\
    (forall (k : nat) elem,
       tiles html !! k = Some elem ->
       exists u, imgs !! k = Some u /\ URL_href W (tile_src html elem) base_url = Ok u) /\
    names = map (checkbox_name html) (List.filter (has_stem html) (tiles html)) /\
    (Forall (fun elem => has_stem html elem = true) (tiles html) ->
     names = map (checkbox_name html) (tiles html) /\
     forall (k : nat) elem,
       tiles html !! k = Some elem ->
       names !! k = Some (checkbox_name html elem) /\
       selected names [inject_Z (Z.of_nat (S k))] = [checkbox_name html elem]).
Proof.
  intros Hcl Hok.
  pose proof (proj1 (classify_challenge html) Hcl) as Hform.
  destruct (each_image W html (tiles html) [] []) as [[imgs names]|e] eqn:Himgs.
  2:{ rewrite (parse_challenge_throws W html s e Hform Himgs) in Hok. discriminate. }
  rewrite (parse_challenge W html s imgs names Hform Himgs).
  unfold final; cbn [fst snd with_captcha captchaState images checkboxNames].
  apply each_image_ok in Himgs. destruct Himgs as (urls & -> & Hurls & ->).
  cbn [app].
  exists urls, (map (checkbox_name html) (List.filter (has_stem html) (tiles html))).
  split; [reflexivity|]. split; [reflexivity|]. split; [exact Hurls|].
  split.
  { intros k elem Hk. destruct (Forall2_lookup_l _ _ _ _ _ Hurls Hk) as (u & Hu & Hres). eauto. }
  split; [reflexivity|].
  intros Hstems. rewrite (filter_all _ _ Hstems). split; [reflexivity|].
  intros k elem Hk.
  assert (Hname : map (checkbox_name html) (tiles html) !! k = Some (checkbox_name html elem)).
  { rewrite list_lookup_fmap, Hk. reflexivity. }
  split; [exact Hname|].
  unfold selected. cbn [omap list_omap]. rewrite position_whole.
  apply lookup_lt_Some in Hname.
  assert (Hin : ((1 <=? Z.of_nat (S k)) && (Z.of_nat (S k) <=?
                   Z.of_nat (List.length (map (checkbox_name html) (tiles html)))))%Z = true).
  { apply andb_true_iff. split; apply Z.leb_le; lia. }
  rewrite Hin. cbn [mbind option_bind].
  replace (Z.to_nat (Z.of_nat (S k) - 1)) with k by lia.
  rewrite list_lookup_fmap, Hk. reflexivity.
Qed.

(** The challenge of [Sample.lopsided_challenge]: nine tiles, the last
    without a file name; nine image URLs and eight checkbox names. *)
Lemma tiles_are_matched_witness :
  classify Sample.lopsided_challenge = Challenge /\
  exists imgs names,
    images (captchaState (final (parseSearchResults
              (Sample.platform (fun _ => Ok Sample.refused))
              Sample.lopsided_challenge initial_state))) = Some imgs /\
    checkboxNames (captchaState (final (parseSearchResults
              (Sample.platform (fun _ => Ok Sample.refused))
              Sample.lopsided_challenge initial_state))) = Some names /\
    Forall2 (fun elem u => Sample.href (tile_src Sample.lopsided_challenge elem) base_url = Ok u)
            (tiles Sample.lopsided_challenge) imgs /\
    names = map (checkbox_name Sample.lopsided_challenge)
                (List.filter (has_stem Sample.lopsided_challenge)
                             (tiles Sample.lopsided_challenge)).
Proof.
  split; [reflexivity|].
  destruct (tiles_are_matched (Sample.platform (fun _ => Ok Sample.refused))
              Sample.lopsided_challenge initial_state _ eq_refl eq_refl)
    as (imgs & names & Hi & Hn & Hurls & _ & Heq & _).
  exists imgs, names. auto.
Defined.

(* ===================================================================== *)
(** * Further properties: the fetch tool                                  *)
(* ===================================================================== *)

Section NodeInduction.

Variable P : Cheerio.node -> Prop.
Hypothesis Htext : forall s, P (Cheerio.Text s).
Hypothesis Hcomment : forall s, P (Cheerio.Comment s).
Hypothesis Helement : forall name a ch, Forall P ch -> P (Cheerio.Element name a ch).


End NodeInduction.

Lemma by_tag_by_name t : by_name (Cheerio.by_tag t).
Proof. intros name a a' ch ch'. reflexivity. Qed.

Lemma by_name_shallow s : by_name s -> shallow s.
Proof. intros H name a ch ch'. apply H. Qed.





















(* ===================================================================== *)
(** * Further properties: the first version of the server                 *)
(* ===================================================================== *)

(** The first parser never throws, issues no request, and writes the
    token only. *)
Lemma legacy_parse html s :
  Legacy.parseSearchResults html s
  = (Ok (Legacy.MkData (Cheerio.length (next_forms html))
                       (omap (result_of html) (result_items html))),
     if (Cheerio.length (next_forms html) =? 0)%nat then s
     else with_token (Some (URLSearchParams.toString (form_fields (next_inputs html)))) s,
     []).
Proof.
  unfold Legacy.parseSearchResults, result_items, next_inputs.
  destruct (Cheerio.length (next_forms html) =? 0)%nat; reflexivity.
Qed.

(** X15. On a document the later parser classifies as a results page,
    it and the first parser agree: the same records, the same count of
    next-page forms, the same state afterwards, and no request. *)
Theorem legacy_parser_agrees W html s :
  classify html = ResultsPage ->
  exists d,
    Legacy.parseSearchResults html s
    = (Ok d, final (parseSearchResults W html s), []) /\
    parseSearchResults W html s
    = (Ok (Results (Legacy.hasMore d) (Legacy.results d)),
       final (Legacy.parseSearchResults html s), []).
Proof.
  intros Hc. apply classify_results in Hc. destruct Hc as (H1 & H2 & H3 & H4).
  rewrite (parse_results W html s H1 H2 H3 H4), legacy_parse.
  eexists. split; reflexivity.
Qed.

Lemma legacy_parser_agrees_witness :
  exists d,
    Legacy.parseSearchResults Sample.two_results_and_next initial_state
    = (Ok d, final (parseSearchResults Sample.paging Sample.two_results_and_next initial_state),
       []) /\
    parseSearchResults Sample.paging Sample.two_results_and_next initial_state
    = (Ok (Results (Legacy.hasMore d) (Legacy.results d)),
       final (Legacy.parseSearchResults Sample.two_results_and_next initial_state), []).
Proof.
  apply (legacy_parser_agrees Sample.paging Sample.two_results_and_next initial_state).
  reflexivity.
Defined.

Module ComponentRoundTrip.

Import URLSearchParams.

Lemma unescape_escape_byte (b : unit16) (rest : string) :
  (Unit.code b < 256)%N ->
  unescape (Legacy.escape_byte b +:+ rest) = String b (unescape rest).
Proof.
  intros H. rewrite (UnitFacts.byte_shape b H).
  destruct (low b) as [[] [] [] [] [] [] [] []]; reflexivity.
Qed.

Lemma unescape_escape_bytes (bs : string) :
  Utf8.all_below 256 bs = true -> unescape (Legacy.escape_bytes bs) = bs.
Proof.
  induction bs as [|b bs IH]; [reflexivity|]. cbn [Utf8.all_below Legacy.escape_bytes].
  rewrite andb_true_iff, N.ltb_lt. intros [Hb Hbs].
  rewrite (unescape_escape_byte b _ Hb), (IH Hbs). reflexivity.
Qed.

Lemma escape_byte_free (b : unit16) :
  (Unit.code b < 256)%N ->
  free_of "&" (Legacy.escape_byte b) = true /\ free_of "=" (Legacy.escape_byte b) = true /\
  Utf8.all_below 128 (Legacy.escape_byte b) = true.
Proof.
  intros H. rewrite (UnitFacts.byte_shape b H).
  destruct (low b) as [[] [] [] [] [] [] [] []]; repeat split; reflexivity.
Qed.

Lemma escape_bytes_free (bs : string) :
  Utf8.all_below 256 bs = true ->
  free_of "&" (Legacy.escape_bytes bs) = true /\
  free_of "=" (Legacy.escape_bytes bs) = true /\
  Utf8.all_below 128 (Legacy.escape_bytes bs) = true.
Proof.
  induction bs as [|b bs IH]; [repeat split; reflexivity|].
  cbn [Utf8.all_below Legacy.escape_bytes]. rewrite andb_true_iff, N.ltb_lt. intros [Hb Hbs].
  destruct (IH Hbs) as (IH1 & IH2 & IH3).
  destruct (escape_byte_free b Hb) as (H1 & H2 & H3).
  rewrite !FormRoundTrip.free_of_append, Utf8Facts.all_below_append, IH1, IH2, IH3, H1, H2, H3.
  repeat split; reflexivity.
Qed.

(** The body built from an encoded component decodes to the string the
    component encodes, as scalar values. *)
Lemma parse_component (query : string) :
  parse ("q=" +:+ Legacy.escape_bytes (Utf8.encode query) +:+ "&b=")
  = [("q", Js.toWellFormed query); ("b", "")].
Proof.
  destruct (escape_bytes_free _ (Utf8Facts.encode_is_bytes query)) as (Hamp & Heq & Hascii).
  set (component := Legacy.escape_bytes (Utf8.encode query)) in *.
  unfold parse.
  rewrite Utf8Facts.encode_ascii.
  2:{ rewrite !Utf8Facts.all_below_append, Hascii. reflexivity. }
  change ("q=" +:+ component +:+ "&b=")
    with (String "q" (String "=" component) +:+ String "&" "b=").
  assert (Hfree : free_of "&" (String "q" (String "=" component)) = true).
  { cbn [free_of]. rewrite Hamp. reflexivity. }
  rewrite (FormRoundTrip.split_at "&" _ "b=" Hfree).
  change (Js.split "&" "b=") with ["b="].
  change (List.filter Js.truthy [String "q" (String "=" component); "b="])
    with [String "q" (String "=" component); "b="].
  cbn [map].
  change (cut "=" (String "q" (String "=" component))) with ("q", component).
  cbn [fst snd]. unfold decode at 2. subst component.
  rewrite (unescape_escape_bytes _ (Utf8Facts.encode_is_bytes query)), Utf8Facts.utf8_decode_encode.
  reflexivity.
Qed.

End ComponentRoundTrip.

(** X16. For a well-formed query, the body the first [search] builds by
    hand, [q=] followed by the URI-encoded query and [&b=], decodes as a
    form to the query under [q] and an empty [b]: the same form as the
    body the later [search] serializes when no filter is given. For a
    query with a surrogate outside a pair the two versions part:
    [encodeURIComponent] throws, so the first [search] resets the session,
    issues no request and answers with the error, while the later one
    posts the query with U+FFFD in place of the surrogate. *)
Theorem legacy_body_decodes malformed query :
  (Js.isWellFormed query = true ->
   exists body,
     Legacy.search_body malformed query = Ok body /\
     URLSearchParams.parse body = [("q", query); ("b", "")] /\
     URLSearchParams.parse body = URLSearchParams.parse (search_body query None None)) /\
  (Js.isWellFormed query = false ->
   Legacy.search_body malformed query = Throw malformed /\
   (forall W s,
      Legacy.search W malformed query s
      = (Ok (error_result ("Error performing search: " +:+ malformed)), fresh query s, [])) /\
   URLSearchParams.parse (search_body query None None)
   = [("q", Js.toWellFormed query); ("b", "")]).
Proof.
  assert (Hlater : URLSearchParams.parse (search_body query None None)
                   = [("q", Js.toWellFormed query); ("b", "")]).
  { change (search_body query None None)
      with (URLSearchParams.toString [("q", query); ("b", "")]).
    rewrite FormRoundTrip.parse_toString. reflexivity. }
  split.
  - intros Hwf. unfold Legacy.search_body, Legacy.encodeURIComponent. rewrite Hwf.
    eexists. split; [reflexivity|].
    rewrite ComponentRoundTrip.parse_component, Hlater, (Utf8Facts.toWellFormed_id query Hwf).
    split; reflexivity.
  - intros Hill.
    assert (Hbody : Legacy.search_body malformed query = Throw malformed).
    { unfold Legacy.search_body, Legacy.encodeURIComponent. rewrite Hill. reflexivity. }
    split; [exact Hbody|]. split; [|exact Hlater].
    intros W s. unfold Legacy.search, try_catch, set_searchState.
    rewrite bind_modify, Hbody. reflexivity.
Qed.

(** X17. In the first version, [search_next] called on page 5 with a
    token, when the request brings a page, answers that more pages are
    available whatever the page contains, since the counter has passed 5;
    and the next [search_next] is refused without a request. *)
Theorem legacy_sixth_page_claims_more W s token response html :
  nextFormData (searchState s) = Some token -> token <> "" ->
  currentPage (searchState s) = 5%Z ->
  fetch_response W (Request "POST" search_endpoint Legacy.form_headers (Some token))
  = Ok response ->
  ok response = true -> text response = Ok html ->
  outcome (Legacy.search_next W s)
  = Ok (MkResult
          [TextItem (Legacy.summary true (omap (result_of html) (result_items html))
                                    (Legacy.interpolate (currentQuery (searchState s))))]
          None) /\
  currentPage (searchState (final (Legacy.search_next W s))) = 6%Z /\
  Legacy.search_next W (final (Legacy.search_next W s))
  = (Ok no_next_page, final (Legacy.search_next W s), []).
Proof.
  intros Htok Hne Hpage Hresp Hok Htext.
  assert (Ht : Js.truthy_opt (Some token) = true) by (destruct token; [congruence|reflexivity]).
  assert (Hrun : exists s',
             Legacy.search_next W s
             = (Ok (MkResult
                      [TextItem (Legacy.summary true (omap (result_of html) (result_items html))
                                   (Legacy.interpolate (currentQuery (searchState s))))]
                      None), s',
                [Event (Request "POST" search_endpoint Legacy.form_headers (Some token))
                       (advanced s)]) /\
             currentPage (searchState s') = 6%Z).
  { unfold Legacy.search_next. rewrite bind_get, Htok, Ht, Hpage. cbn [negb orb Z.ltb Z.compare Pos.compare Pos.compare_cont].
    unfold try_catch, set_currentPage, set_nextFormData.
    rewrite !bind_modify. cbn [searchState currentQuery currentPage nextFormData
                               captchaState captchaImages timeouts].
    rewrite bind_fetch.
    change (State (MkSearchState (currentQuery (searchState s)) (5 + 1) None)
                  (captchaState s) (captchaImages s) (timeouts s))
      with (State (MkSearchState (currentQuery (searchState s)) 6 None)
                  (captchaState s) (captchaImages s) (timeouts s)).
    unfold advanced. rewrite Hpage.
    change (5 + 1)%Z with 6%Z.
    rewrite Hresp, Hok. cbn [negb]. rewrite Htext.
    unfold bind at 1. unfold lift at 1.
    unfold bind at 1. rewrite legacy_parse.
    destruct (Cheerio.length (next_forms html) =? 0)%nat eqn:Hn;
      rewrite bind_get; unfold ret, with_token;
      cbn [Legacy.hasMore Legacy.results searchState currentPage currentQuery app];
      change (5 <? 6)%Z with true; rewrite orb_true_r;
      (eexists; split; [reflexivity|reflexivity]). }
  destruct Hrun as (s' & Hrun & Hsix). rewrite Hrun. unfold outcome, final. cbn [fst snd].
  split; [reflexivity|]. split; [exact Hsix|].
  unfold Legacy.search_next. rewrite bind_get, Hsix.
  rewrite orb_true_r. reflexivity.
Qed.

Lemma legacy_sixth_page_claims_more_witness :
  outcome (Legacy.search_next Sample.ending Sample.fifth_page)
  = Ok (MkResult
          [TextItem (Legacy.summary true
                       [MkSearchResult "A" "https://a.example/" "a-desc";
                        MkSearchResult "B" "https://b.example/" "b-desc"] "ducks")]
          None) /\
  currentPage (searchState (final (Legacy.search_next Sample.ending Sample.fifth_page))) = 6%Z /\
  Legacy.search_next Sample.ending (final (Legacy.search_next Sample.ending Sample.fifth_page))
  = (Ok no_next_page, final (Legacy.search_next Sample.ending Sample.fifth_page), []).
Proof.
  apply (legacy_sixth_page_claims_more Sample.ending Sample.fifth_page "q=ducks&s=40"
           (Sample.page Sample.two_results) Sample.two_results);
    try reflexivity.
  discriminate.
Defined.
